(** * stella.neural_network: a shallow embedding of [ConvNN]

    The development follows [src/stella/neural_network.py].  It embeds the
    parts of [ConvNN] that hold algorithmic content: the gap filler and
    the windowing loop of [predict], the table handling of [train_models],
    [create_df] and [ensemble_metrics], the directory set-up of
    [fetch_dir], and the control flow of [cross_validation].

    Conventions of the embedding.
    - A float64 array is a [list Q]: exact arithmetic on finite values.
      Where the code treats NaN specially (np.nanmean in [create_df]) a
      cell is an [option Q] and [None] stands for NaN.
    - A Python exception is a value of [exn]; a computation that may raise
      returns a [result].
    - The collaborators (keras, scikit-learn, np.random, the square root
      inside np.std) are variables of the sections that use them. *)

From Stdlib Require Import ZArith QArith Qround Qabs Lia Lqa.
From Stdlib Require Import Sorting.Sorted Sorting.Permutation Strings.Ascii.
From stdpp Require Import base option list strings pretty gmap.

Local Open Scope Z_scope.

(** ** Exceptions and results *)

Inductive exn : Type :=
| ValueError (msg : string)
| NameError (name : string)
| UnboundLocalError (name : string)
| AttributeError (name : string)
| KeyError (key : string)
| IndexError
| TypeError
| OSError
| External (origin : string).

Inductive result (A : Type) : Type :=
| Ok (a : A)
| Raise (e : exn).

Arguments Ok {A} a.
Arguments Raise {A} e.

#[global] Instance result_ret : MRet result := fun A a => Ok a.

#[global] Instance result_bind : MBind result := fun A B k m =>
  match m with
  | Ok a => k a
  | Raise e => Raise e
  end.

Definition is_ok {A : Type} (m : result A) : bool :=
  match m with Ok _ => true | Raise _ => false end.

(** ** Python and numpy sequences *)

Module Py.

(** A slice bound as [list.__getitem__] and numpy normalise it: a negative
    bound counts from the end, and every bound is clamped to [0, len]. *)
Definition bound (len i : Z) : Z :=
  if i <? 0 then Z.max 0 (i + len) else Z.min i len.

(** [l[a:b]] *)
Definition slice {A : Type} (l : list A) (a b : Z) : list A :=
  let len := Z.of_nat (length l) in
  let a' := bound len a in
  let b' := bound len b in
  take (Z.to_nat (b' - a')) (drop (Z.to_nat a') l).

(** [l[i]] for a non-negative index, as [range] and np.where produce. *)
Definition index {A : Type} (l : list A) (i : nat) : result A :=
  match l !! i with
  | Some x => Ok x
  | None => Raise IndexError
  end.

(** [np.zeros((n,))] *)
Definition zeros (n : Z) : result (list Q) :=
  if n <? 0 then Raise (ValueError "negative dimensions are not allowed")
  else Ok (replicate (Z.to_nat n) 0%Q).

(** [np.insert(l, i, values)] for an index [0 <= i]: the values go in
    front of position [i]; an index past the end is refused. *)
Definition insert {A : Type} (l : list A) (i : nat) (values : list A)
  : result (list A) :=
  if (length l <? i)%nat then Raise IndexError
  else Ok (take i l ++ values ++ drop i l).

(** [dst[i] = f] for a row of width [width]: numpy copies a value of the
    same width, broadcasts a value of width one, and refuses the rest. *)
Definition assign_row (width : Z) (f : list Q) : result (list Q) :=
  if Z.of_nat (length f) =? width then Ok f
  else match f with
       | [x] => Ok (replicate (Z.to_nat width) x)
       | _ => Raise (ValueError "could not broadcast input array")
       end.

End Py.

(** ** The windowing loop of [predict] *)

Module Windows.

(** [int(cadences/2)]: [int] truncates towards zero. *)
Definition cadence_pad (cadences : Z) : Z := Z.quot cadences 2.

(** The body of [for i in range(len(lc))], up to the value [f] that is
    stored in [reshaped_data[i]].  The test [i <= cadences/2] compares an
    integer with a true quotient, which is [2*i <= cadences].  The time
    axis [t] that the loop also computes is never stored or returned. *)
Definition window (cadences : Z) (lc : list Q) (i : Z) : result (list Q) :=
  let len := Z.of_nat (length lc) in
  if 2 * i <=? cadences then
    let fill_length := cadence_pad cadences - i in
    padding_array ← Py.zeros fill_length;
    Ok (padding_array ++ Py.slice lc 0 (i + cadence_pad cadences))
  else if len - cadence_pad cadences <=? i then
    let loc0 := i - cadence_pad cadences in
    let loc1 := len in
    let fill_length :=
      Z.abs (cadences - Z.of_nat (length (Py.slice lc loc0 loc1))) in
    padding_array ← Py.zeros fill_length;
    Ok (Py.slice lc loc0 loc1 ++ padding_array)
  else
    let loc0 := i - cadence_pad cadences in
    let loc1 := i + cadence_pad cadences in
    Ok (Py.slice lc loc0 loc1).

(** The rows written by the loop, in order, for the indices [idx]. *)
Fixpoint fill_rows (cadences : Z) (lc : list Q) (idx : list nat)
  : result (list (list Q)) :=
  match idx with
  | [] => Ok []
  | i :: idx' =>
      f ← window cadences lc (Z.of_nat i);
      row ← Py.assign_row cadences f;
      rows ← fill_rows cadences lc idx';
      Ok (row :: rows)
  end.

(** [reshaped_data = np.zeros((len(lc), cadences))] followed by the loop:
    every row is overwritten, so the zeros never show. *)
Definition reshaped_data (cadences : Z) (lc : list Q)
  : result (list (list Q)) :=
  if cadences <? 0 then Raise (ValueError "negative dimensions are not allowed")
  else fill_rows cadences lc (seq 0 (length lc)).

End Windows.

(** ** numpy and scipy on rationals *)

Module Np.
Local Open Scope Q_scope.

(** [x < y] on floats. *)
Definition Qltb (x y : Q) : bool := negb (Qle_bool y x).

(** Python's [sorted] and [np.sort]: they compare with [<] only and keep
    equal items in their order.  An insertion sort that puts an item in
    front of the first one that is not smaller does the same. *)
Section Sorted.
Context {A : Type} (ltb : A -> A -> bool).

Fixpoint place (x : A) (l : list A) : list A :=
  match l with
  | [] => [x]
  | y :: l' => if ltb y x then y :: place x l' else x :: y :: l'
  end.

Fixpoint sorted (l : list A) : list A :=
  match l with
  | [] => []
  | x :: l' => place x (sorted l')
  end.

End Sorted.

(** [<] on the 2-tuples of [zip(t, f)]: the first components decide unless
    they are equal. *)
Definition pair_ltb (p q : Q * Q) : bool :=
  if Qeq_bool p.1 q.1 then Qltb p.2 q.2 else Qltb p.1 q.1.

(** [np.diff] *)
Fixpoint diff (t : list Q) : list Q :=
  match t with
  | a :: t' => match t' with
               | b :: _ => (b - a) :: diff t'
               | [] => []
               end
  | [] => []
  end.

(** [np.nanmedian] of an array without NaN.  numpy gives NaN for an empty
    array; the code then only maps over or compares against empty arrays,
    so the value chosen here for that case is never looked at. *)
Definition nanmedian (l : list Q) : Q :=
  let s := sorted Qltb l in
  let n := length l in
  if (n =? 0)%nat then 0
  else if Nat.odd n then nth (n / 2) s 0
  else (nth (n / 2 - 1) s 0 + nth (n / 2) s 0) / 2.

(** [np.where(d >= thr)[0]] *)
Definition where_ge (d : list Q) (thr : Q) : list nat :=
  List.filter (fun i => Qle_bool thr (nth i d 0)) (seq 0 (length d)).

(** [np.arange(start, stop, step)] on floats: [ceil((stop-start)/step)]
    values [start + k*step]; a zero step is refused.  In exact
    arithmetic the values stay below [stop].  In binary64 the quotient
    and the products are rounded, and the last value can come out above
    [stop]; the interpolant of [fill_in_sample] then refuses it.  What
    is proved of [fill_in_sample] on a light curve with gaps is
    therefore stated for the calls that return. *)
Definition arange (start stop step : Q) : result (list Q) :=
  if Qeq_bool step 0 then Raise (ValueError "Maximum allowed size exceeded")
  else
    let n := Z.to_nat (Qceiling ((stop - start) / step)) in
    Ok (map (fun k : nat => start + inject_Z (Z.of_nat k) * step) (seq 0 n)).

(** [np.full(n, v)] *)
Definition full (n : nat) (v : Q) : list Q := replicate n v.

(** [scipy.interpolate.interp1d(x, y)] with its defaults (linear, bounds
    checked), for the two-point arrays the gap filler passes.  The
    abscissae are put in increasing order first; evaluation refuses a
    point outside them. *)
Definition interp1d (x y : list Q) : result (list Q -> result (list Q)) :=
  match x, y with
  | [x0; x1], [y0; y1] =>
      let '(xlo, ylo, xhi, yhi) :=
        if Qltb x1 x0 then (x1, y1, x0, y0) else (x0, y0, x1, y1) in
      Ok (fun x_new =>
            if forallb (fun v => Qle_bool xlo v && Qle_bool v xhi) x_new
            then
              let slope := (yhi - ylo) / (xhi - xlo) in
              Ok (map (fun v => slope * (v - xlo) + ylo) x_new)
            else
              Raise (ValueError
                       "A value in x_new is outside the interpolation range."))
  | _, _ =>
      Raise (ValueError
               "x and y arrays must be equal in length along interpolation axis.")
  end.

End Np.

(** ** The gap filler of [predict] *)

Section GapFiller.
Local Open Scope Q_scope.

(** [np.nanstd]/[np.std]: the standard deviation takes a square root,
    which leaves the rationals. *)
Variable nanstd : list Q -> Q.

(** The standard normal variates of numpy's global generator, in the order
    they are drawn; the state of the generator is the number drawn so
    far. *)
Variable draws : nat -> Q.

(** [np.random.normal(loc, scale, size)] *)
Definition normal (loc scale : Q) (size : nat) (k : nat)
  : result (list Q * nat) :=
  if Np.Qltb scale 0 then Raise (ValueError "scale < 0")
  else Ok (map (fun j : nat => loc + scale * draws (k + j)) (seq 0 size),
           (k + size)%nat).

(** The arrays [t], [f], [e] of [fill_in_sample] and the generator state. *)
Definition gap_state : Type := list Q * list Q * list Q * nat.

(** One turn of [for i in diff_ind].  [step] is [np.nanmedian(diff)]. *)
Definition fill_gap (step avg_noise : Q) (i : nat) (st : gap_state)
  : result gap_state :=
  let '(t, f, e, k) := st in
  let start := Z.of_nat i in
  let stop := (Z.of_nat i + 2)%Z in
  func ← Np.interp1d (Py.slice t start stop) (Py.slice f start stop);
  t_start ← Py.index t i;
  t_next ← Py.index t (i + 1);
  new_time ← Np.arange t_start t_next step;
  values ← func new_time;
  '(noise, k') ← normal 0 avg_noise (length new_time) k;
  let new_flux := zip_with Qplus values noise in
  t' ← Py.insert t i new_time;
  f' ← Py.insert f i new_flux;
  e' ← Py.insert e i (Np.full (length new_time) avg_noise);
  Ok (t', f', e', k').

Fixpoint fill_gaps (step avg_noise : Q) (diff_ind : list nat) (st : gap_state)
  : result gap_state :=
  match diff_ind with
  | [] => Ok st
  | i :: rest =>
      st' ← fill_gap step avg_noise i st;
      fill_gaps step avg_noise rest st'
  end.

(** [t, f = zip( *sorted(zip(t, f)))]: unpacking needs the two tuples that
    the outer [zip] yields, and it yields none when the list is empty. *)
Definition unzip_sorted (t f : list Q) : result (list Q * list Q) :=
  match Np.sorted Np.pair_ltb (zip t f) with
  | [] => Raise (ValueError "not enough values to unpack (expected 2, got 0)")
  | ps => Ok (ps.*1, ps.*2)
  end.

(** The indices that [fill_in_sample] flags as abnormal gaps. *)
Definition diff_ind (t : list Q) (sigma : Q) : list nat :=
  let diff := Np.diff t in
  Np.where_ge diff (Np.nanmedian diff + sigma * nanstd diff).

(** The state after the insertion loop, before the sort. *)
Definition inserted (t f e : list Q) (sigma : Q) (k : nat)
  : result gap_state :=
  let diff := Np.diff t in
  let avg_noise := nanstd f / 2 in
  if (0 <? length (diff_ind t sigma))%nat
  then fill_gaps (Np.nanmedian diff) avg_noise (diff_ind t sigma) (t, f, e, k)
  else Ok (t, f, e, k).

Definition fill_in_sample (t f e : list Q) (sigma : Q) (k : nat)
  : result gap_state :=
  '(t, f, e, k) ← inserted t f e sigma k;
  '(t, f) ← unzip_sorted t f;
  Ok (t, f, e, k).

(** The default [sigma=2.5]. *)
Definition sigma : Q := 5 # 2.

(** [lc = lc/np.nanmedian(lc)].  Division by a zero median gives 0 in
    the rationals, where numpy gives inf or NaN without raising;
    statements about the normalized values assume a median that is not
    zero. *)
Definition normalize (lc : list Q) : list Q :=
  map (fun x => x / Np.nanmedian lc) lc.

(** [self.model.predict] of keras. *)
Variable model_predict : list (list Q) -> result (list Q).

(** The body of [for j in range(len(times))] in [predict]. *)
Definition predict_one (cadences : Z) (time lc err : list Q) (k : nat)
  : result (list Q * nat) :=
  '(time, lc, err, k) ← fill_in_sample time lc err sigma k;
  let lc := normalize lc in
  reshaped_data ← Windows.reshaped_data cadences lc;
  preds ← model_predict reshaped_data;
  Ok (preds, k).

Fixpoint predict_from (cadences : Z) (times fluxes errs : list (list Q))
    (j : nat) (js : list nat) (k : nat) : result (list (list Q)) :=
  match js with
  | [] => Ok []
  | _ :: js' =>
      time ← Py.index times j;
      lc ← Py.index fluxes j;
      err ← Py.index errs j;
      '(preds, k) ← predict_one cadences time lc err k;
      predictions ← predict_from cadences times fluxes errs (S j) js' k;
      Ok (preds :: predictions)
  end.

Definition predict (cadences : Z) (times fluxes errs : list (list Q)) (k : nat)
  : result (list (list Q)) :=
  predict_from cadences times fluxes errs 0 (seq 0 (length times)) k.

End GapFiller.

(** ** Strings, formats and glob patterns *)

Module Str.


Definition chars (s : string) : list ascii := String.list_ascii_of_string s.

(** [str.lower] on ASCII text. *)
Definition lower_char (c : ascii) : ascii :=
  let n := nat_of_ascii c in
  if ((65 <=? n) && (n <=? 90))%nat then ascii_of_nat (n + 32) else c.

Definition lower (s : string) : string :=
  String.string_of_list_ascii (map lower_char (chars s)).

(** ['{0:04d}'.format(n)] for a natural number: the decimal digits, with
    zeros in front up to a width of four. *)
Definition fmt_04d (n : nat) : string :=
  let s := pretty n in
  String.string_of_list_ascii (replicate (4 - String.length s) "0"%char) +:+ s.

(** [s.split('_s')[-1]]: what follows the last ["_s"], or all of [s]. *)
Fixpoint after_last_s (s : list ascii) : option (list ascii) :=
  match s with
  | [] => None
  | c :: s' =>
      match after_last_s s' with
      | Some r => Some r
      | None =>
          match c, s' with
          | "_"%char, "s"%char :: r => Some r
          | _, _ => None
          end
      end
  end.

(** [s.split('_')[0]]: what precedes the first ["_"], or all of [s]. *)
Fixpoint before_first_underscore (s : list ascii) : list ascii :=
  match s with
  | [] => []
  | c :: s' => if Ascii.eqb c "_" then [] else c :: before_first_underscore s'
  end.

(** [(val.split('_s')[-1]).split('_')[0]] *)
Definition seed_text (val : string) : string :=
  String.string_of_list_ascii
    (before_first_underscore (default (chars val) (after_last_s (chars val)))).

(** [os.path.join(dir, name)] for a relative [name] *)
Definition path_join (dir name : string) : string :=
  match last (chars dir) with
  | None => name
  | Some c => if Ascii.eqb c "/" then dir +:+ name else dir +:+ "/" +:+ name
  end.

(** [fnmatch] as [glob.glob] applies it to the entries of a directory:
    ["*"] stands for any run of characters and ["?"] for one.  A bracket
    would open a character class; the patterns of this module are built
    from fixed text, formatted integers and the text of a float, and
    hold none. *)
Fixpoint fnmatch (pat name : list ascii) : bool :=
  match pat with
  | [] => match name with [] => true | _ => false end
  | p :: pat' =>
      if Ascii.eqb p "*" then
        (fix star (name : list ascii) : bool :=
           fnmatch pat' name
           || match name with
              | [] => false
              | _ :: name' => star name'
              end) name
      else
        match name with
        | [] => false
        | c :: name' =>
            (Ascii.eqb p "?" || Ascii.eqb p c) && fnmatch pat' name'
        end
  end.

(** A character that a glob pattern takes literally. *)
Definition plain_char (c : ascii) : bool :=
  negb (Ascii.eqb c "*" || Ascii.eqb c "?" || Ascii.eqb c "[").

Definition plain (s : string) : bool := forallb plain_char (chars s).

End Str.

(** ** astropy tables and the files of the output directory *)

(** A table cell: a float, with [None] for NaN. *)
Definition cell : Type := option Q.

Record column : Type := Column { colname : string; data : list cell }.

(** An astropy [Table]: its columns in order. *)
Definition table : Type := list column.

Module Table.

Definition colnames (tb : table) : list string := map colname tb.

(** [len(tb)]: the number of rows. *)
Definition len (tb : table) : nat :=
  match tb with
  | [] => 0
  | c :: _ => length (data c)
  end.

(** [tb[name]] *)
Definition getitem (tb : table) (name : string) : result column :=
  match List.find (fun c => String.eqb (colname c) name) tb with
  | Some c => Ok c
  | None => Raise (KeyError name)
  end.

(** [tb.add_column(col, index=...)]: a name that is taken is refused, and
    so is a column whose length differs from that of a table that already
    has columns.  (Some astropy versions stretch a one-row column to the
    table length instead; in [create_df] the arrays of unequal length then
    stop np.nanmean, so either way the call does not return.) *)
Definition add_column (tb : table) (col : column) (index : option nat)
  : result table :=
  if bool_decide (colname col ∈ colnames tb)
  then Raise (ValueError "Duplicate column names")
  else if negb (bool_decide (tb = [])) && negb (length (data col) =? len tb)%nat
  then Raise (ValueError "Inconsistent data column lengths")
  else match index with
       | None => Ok (tb ++ [col])
       | Some i => Ok (take i tb ++ col :: drop i tb)
       end.

(** [Table(cols, names=...)] *)
Fixpoint create (cols : list column) (tb : table) : result table :=
  match cols with
  | [] => Ok tb
  | c :: cols' => tb' ← add_column tb c None; create cols' tb'
  end.

End Table.

(** What a file of the output directory holds.  A table file is modelled
    by the table itself: its header names and columns.  [train_models]
    writes with [format='ascii'] and [create_df] reads with
    [format="csv"]; the model lets a table survive that change of
    delimiter, which can only help the reader. *)
Inductive file : Type :=
| TableFile (tb : table)
| ModelFile (seed : nat)
| OtherFile.

(** The entries of [self.output_dir], by name. *)
Abbreviation directory := (gmap string file).

(** [Table.read(path, format="csv")] *)
Definition read_table (dir : directory) (name : string) : result table :=
  match dir !! name with
  | Some (TableFile tb) => Ok tb
  | Some _ => Raise (External "astropy.io.ascii")
  | None => Raise OSError
  end.

(** [np.sort(glob.glob(os.path.join(self.output_dir, pattern)))], as entry
    names: every path has the same directory part, so the paths sort as
    the names do.  This is [glob.glob] for an output directory whose
    name holds no glob character; with one, [glob.glob] reads the
    directory part as a pattern too and lists another directory, or
    nothing.  Statements about which files are found assume a plain
    directory name. *)
Definition glob_sorted (dir : directory) (pattern : string) : list string :=
  Np.sorted String.ltb
    (List.filter (fun name => Str.fnmatch (Str.chars pattern) (Str.chars name))
                 (elements (dom dir))).

(** ** Rounding, NaN-ignoring means and thresholds *)

Module Stats.
Local Open Scope Q_scope.

(** Round to the nearest integer, halves to the even neighbour, as
    [np.round] does. *)
Definition rint (q : Q) : Z :=
  let fl := Qfloor q in
  let r := q - inject_Z fl in
  if Np.Qltb r (1 # 2) then fl
  else if Np.Qltb (1 # 2) r then (fl + 1)%Z
  else if Z.even fl then fl else (fl + 1)%Z.

(** [np.round(x, decimals)] on one value. *)
Definition round_to (decimals : nat) (x : cell) : cell :=
  let scale := inject_Z (10 ^ Z.of_nat decimals) in
  option_map (fun q => inject_Z (rint (q * scale)) / scale) x.

(** [np.round(arr, 3)] *)
Definition round3 (arr : list cell) : list cell := map (round_to 3) arr.

Definition Qsum (l : list Q) : Q := foldr Qplus 0 l.

(** [np.nanmean] of one slice: the mean of the values that are not NaN,
    and NaN when there is none. *)
Definition nanmean (xs : list cell) : cell :=
  match omap id xs with
  | [] => None
  | vals => Some (Qsum vals / inject_Z (Z.of_nat (length vals)))
  end.

(** [np.nanmean(mean_arr, axis=0)]: one mean per row, across the arrays.
    Arrays of unequal length do not form a matrix.  With no array at all
    numpy returns a scalar NaN; the caller fails in its next statement
    whatever becomes of it, and the model gives the empty column. *)
Definition nanmean_axis0 (mean_arr : list (list cell)) : result (list cell) :=
  match mean_arr with
  | [] => Ok []
  | first :: _ =>
      if forallb (fun a => (length a =? length first)%nat) mean_arr
      then Ok (map (fun i => nanmean (map (fun a => nth i a None) mean_arr))
                   (seq 0 (length first)))
      else Raise (ValueError "inhomogeneous shape")
  end.

(** [x >= y] and [x < y] on floats: false when either side is NaN. *)
Definition ge (x y : cell) : bool :=
  match x, y with
  | Some a, Some b => Qle_bool b a
  | _, _ => false
  end.

Definition lt (x y : cell) : bool :=
  match x, y with
  | Some a, Some b => Np.Qltb a b
  | _, _ => false
  end.

(** [arr[mask] = v] *)
Definition mask_assign (arr : list cell) (mask : list bool) (v : cell)
  : list cell :=
  zip_with (fun x (b : bool) => if b then v else x) arr mask.

(** The three statements that build [pred_round] in [create_df]. *)
Definition pred_round (pred : list cell) (threshold : cell) (n : nat)
  : list cell :=
  let zeros := replicate n (Some 0) in
  let ones := mask_assign zeros (map (fun p => ge p threshold) pred) (Some 1) in
  mask_assign ones (map (fun p => lt p threshold) pred) (Some 0).

End Stats.

(** ** Computations that change an object or the disk and may raise *)

Definition M (S A : Type) : Type := S -> result A * S.

#[global] Instance M_ret (S : Type) : MRet (M S) := fun A a s => (Ok a, s).

#[global] Instance M_bind (S : Type) : MBind (M S) := fun A B k m s =>
  match m s with
  | (Ok a, s') => k a s'
  | (Raise e, s') => (Raise e, s')
  end.

(** A computation that only reads. *)
Definition lift {S A : Type} (r : result A) : M S A := fun s => (r, s).

Definition get {S : Type} : M S S := fun s => (Ok s, s).

Definition modify {S : Type} (f : S -> S) : M S unit := fun s => (Ok tt, f s).

(** [for x in xs], threading the loop variables [acc]. *)
Fixpoint for_each {S A B : Type} (body : A -> B -> M S B) (xs : list A)
    (acc : B) : M S B :=
  match xs with
  | [] => mret acc
  | x :: xs' => acc' ← body x acc; for_each body xs' acc'
  end.

(** ** The [ConvNN] object *)

(** The validation and test partitions of the training set [self.ds]. *)
Record dataset : Type := {
  val_ids : list cell;
  val_labels : list cell;
  val_tpeaks : list cell;
  test_ids : list cell;
  test_labels : list cell;
  test_tpeaks : list cell
}.

(** The attributes of a [ConvNN] that the embedded methods read or set.
    An attribute that has not been set is [None].  [frac_balance] holds
    the text that [str.format] prints for the float. *)
Record ConvNN : Type := {
  ds : dataset;
  frac_balance : string;
  output_dir : option string;
  epochs : option nat;
  history_table : option table;
  val_pred_table : option table;
  test_pred_table : option table;
  average_precision : option cell;
  accuracy : option cell;
  recall_score : option cell;
  precision_score : option cell;
  prec_recall_curve : option (list cell * list cell)
}.

Definition getattr {A : Type} (name : string) (a : option A) : result A :=
  match a with
  | Some v => Ok v
  | None => Raise (AttributeError name)
  end.

Definition set_epochs (v : nat) (self : ConvNN) : ConvNN :=
  {| ds := ds self; frac_balance := frac_balance self;
     output_dir := output_dir self; epochs := Some v;
     history_table := history_table self;
     val_pred_table := val_pred_table self;
     test_pred_table := test_pred_table self;
     average_precision := average_precision self; accuracy := accuracy self;
     recall_score := recall_score self;
     precision_score := precision_score self;
     prec_recall_curve := prec_recall_curve self |}.

Definition set_tables (h v t : table) (self : ConvNN) : ConvNN :=
  {| ds := ds self; frac_balance := frac_balance self;
     output_dir := output_dir self; epochs := epochs self;
     history_table := Some h; val_pred_table := Some v;
     test_pred_table := Some t;
     average_precision := average_precision self; accuracy := accuracy self;
     recall_score := recall_score self;
     precision_score := precision_score self;
     prec_recall_curve := prec_recall_curve self |}.

Definition set_output_dir (d : string) (self : ConvNN) : ConvNN :=
  {| ds := ds self; frac_balance := frac_balance self;
     output_dir := Some d; epochs := epochs self;
     history_table := history_table self;
     val_pred_table := val_pred_table self;
     test_pred_table := test_pred_table self;
     average_precision := average_precision self; accuracy := accuracy self;
     recall_score := recall_score self;
     precision_score := precision_score self;
     prec_recall_curve := prec_recall_curve self |}.

Definition set_average_precision (v : cell) (self : ConvNN) : ConvNN :=
  {| ds := ds self; frac_balance := frac_balance self;
     output_dir := output_dir self; epochs := epochs self;
     history_table := history_table self;
     val_pred_table := val_pred_table self;
     test_pred_table := test_pred_table self; average_precision := Some v;
     accuracy := accuracy self; recall_score := recall_score self;
     precision_score := precision_score self;
     prec_recall_curve := prec_recall_curve self |}.

Definition set_accuracy (v : cell) (self : ConvNN) : ConvNN :=
  {| ds := ds self; frac_balance := frac_balance self;
     output_dir := output_dir self; epochs := epochs self;
     history_table := history_table self;
     val_pred_table := val_pred_table self;
     test_pred_table := test_pred_table self;
     average_precision := average_precision self; accuracy := Some v;
     recall_score := recall_score self;
     precision_score := precision_score self;
     prec_recall_curve := prec_recall_curve self |}.

Definition set_recall_score (v : cell) (self : ConvNN) : ConvNN :=
  {| ds := ds self; frac_balance := frac_balance self;
     output_dir := output_dir self; epochs := epochs self;
     history_table := history_table self;
     val_pred_table := val_pred_table self;
     test_pred_table := test_pred_table self;
     average_precision := average_precision self; accuracy := accuracy self;
     recall_score := Some v; precision_score := precision_score self;
     prec_recall_curve := prec_recall_curve self |}.

Definition set_precision_score (v : cell) (self : ConvNN) : ConvNN :=
  {| ds := ds self; frac_balance := frac_balance self;
     output_dir := output_dir self; epochs := epochs self;
     history_table := history_table self;
     val_pred_table := val_pred_table self;
     test_pred_table := test_pred_table self;
     average_precision := average_precision self; accuracy := accuracy self;
     recall_score := recall_score self; precision_score := Some v;
     prec_recall_curve := prec_recall_curve self |}.

Definition set_prec_recall_curve (v : list cell * list cell) (self : ConvNN) : ConvNN :=
  {| ds := ds self; frac_balance := frac_balance self;
     output_dir := output_dir self; epochs := epochs self;
     history_table := history_table self;
     val_pred_table := val_pred_table self;
     test_pred_table := test_pred_table self;
     average_precision := average_precision self; accuracy := accuracy self;
     recall_score := recall_score self;
     precision_score := precision_score self; prec_recall_curve := Some v |}.

(** ** [train_models] *)

Section TrainModels.

(** keras: [self.model.fit(...).history] for the model of a seed, as the
    metric names with their per-epoch values, and [self.model.predict] on
    the validation and the test data. *)
Variable fit : nat -> nat -> result (list (string * list cell)).
Variable predict_val : nat -> result (list cell).
Variable predict_test : nat -> result (list cell).

(** The object and the entries of its output directory. *)
Definition disk_state : Type := ConvNN * directory.

Definition write (name : string) (f : file) : M disk_state unit :=
  modify (fun st => (st.1, <[name := f]> st.2)).

(** [for cn in col_names: table.add_column(Column(..., name=cn+'_s....'))] *)
Fixpoint add_history (history : list (string * list cell)) (seed : nat)
    (tb : table) : result table :=
  match history with
  | [] => Ok tb
  | (cn, values) :: rest =>
      tb' ← Table.add_column tb
              (Column (cn +:+ "_s" +:+ Str.fmt_04d seed) values) None;
      add_history rest seed tb'
  end.

(** The body of [for seed in seeds]; the loop variables are the three
    tables. *)
Definition train_seed (n_epochs : nat) (pred_test : bool) (seed : nat)
    (tables : table * table * table) : M disk_state (table * table * table) :=
  let '(tb, val_table, test_table) := tables in
  st ← get;
  let fmt_tail := "_s" +:+ Str.fmt_04d seed +:+ "_i" +:+ Str.fmt_04d n_epochs
                  +:+ "_b" +:+ frac_balance st.1 in
  let model_fmt := "model" +:+ fmt_tail +:+ ".h5" in
  history ← lift (fit seed n_epochs);
  tb ← lift (add_history history seed tb);
  _ ← lift (getattr "output_dir" (output_dir st.1));
  _ ← write model_fmt (ModelFile seed);
  val_preds ← lift (predict_val seed);
  val_table ← lift (Table.add_column val_table
                      (Column ("pred_s" +:+ Str.fmt_04d seed) val_preds) None);
  test_table ←
    (if pred_test then
       test_preds ← lift (predict_test seed);
       lift (Table.add_column test_table
               (Column ("test_s" +:+ Str.fmt_04d seed) test_preds) None)
     else mret test_table);
  mret (tb, val_table, test_table).

Definition train_models (seeds : list nat) (n_epochs : nat)
    (pred_test save : bool) : M disk_state unit :=
  _ ← modify (fun st => (set_epochs n_epochs st.1, st.2));
  st ← get;
  let d := ds st.1 in
  val_table ← lift (Table.create [Column "tic" (val_ids d);
                                  Column "gt" (val_labels d);
                                  Column "tpeak" (val_tpeaks d)] []);
  test_table ← lift (Table.create [Column "tic" (test_ids d);
                                   Column "gt" (test_labels d);
                                   Column "tpeak" (test_tpeaks d)] []);
  '(tb, val_table, test_table) ←
    for_each (train_seed n_epochs pred_test) seeds ([], val_table, test_table);
  _ ← modify (fun st => (set_tables tb val_table test_table st.1, st.2));
  if save then
    let fmt_table := "_i" +:+ Str.fmt_04d n_epochs +:+ "_b"
                     +:+ frac_balance st.1 +:+ ".txt" in
    let hist_fmt := "histories" +:+ fmt_table in
    let pred_fmt := "predval" +:+ fmt_table in
    _ ← lift (getattr "output_dir" (output_dir st.1));
    _ ← write hist_fmt (TableFile tb);
    _ ← write pred_fmt (TableFile val_table);
    if (3 <? length (Table.colnames test_table))%nat then
      let test_fmt := "predtest" +:+ fmt_table in
      write test_fmt (TableFile test_table)
    else mret tt
  else mret tt.

End TrainModels.

(** [self.predval_fmt.format(seed, epochs, frac_balance)], the per-seed
    file name that [__init__] defines. *)
Definition predval_fmt (seed n_epochs : nat) (balance : string) : string :=
  "predval_s" +:+ Str.fmt_04d seed +:+ "_i" +:+ Str.fmt_04d n_epochs
  +:+ "_b" +:+ balance +:+ ".txt".

(** ** [create_df] *)

(** The glob pattern for a kind of prediction file. *)
Definition pred_pattern (kind : string) (n_epochs : nat) (balance : string)
  : string :=
  kind +:+ "*i" +:+ Str.fmt_04d n_epochs +:+ "*_b" +:+ balance +:+ ".txt".

(** The loop variables of [for i, val in enumerate(files)]: the table
    [df], the list [mean_arr] and the table [r] read last. *)
Definition read_state : Type := table * list (list cell) * option table.

Fixpoint read_files (dir : directory) (out : string) (files : list string)
    (acc : read_state) : result read_state :=
  match files with
  | [] => Ok acc
  | name :: rest =>
      let '(df, mean_arr, _) := acc in
      let val := Str.path_join out name in
      r ← read_table dir name;
      pred ← Table.getitem r "pred";
      df ← Table.add_column df
             (Column ("s" +:+ Str.seed_text val) (Stats.round3 (data pred)))
             None;
      read_files dir out rest
        (df, mean_arr ++ [Stats.round3 (data pred)], Some r)
  end.

(** The files that [create_df] finds, with the directory they are in.  A
    [data_set] that is neither name leaves [files] unbound, which shows
    at its first use. *)
Definition find_files (self : ConvNN) (dir : directory) (data_set : string)
  : result (list string * string) :=
  if String.eqb (Str.lower data_set) "validation" then
    out ← getattr "output_dir" (output_dir self);
    n_epochs ← getattr "epochs" (epochs self);
    Ok (glob_sorted dir (pred_pattern "predval" n_epochs (frac_balance self)),
        out)
  else if String.eqb (Str.lower data_set) "test" then
    out ← getattr "output_dir" (output_dir self);
    n_epochs ← getattr "epochs" (epochs self);
    Ok (glob_sorted dir (pred_pattern "predtest" n_epochs (frac_balance self)),
        out)
  else Raise (UnboundLocalError "files").

Definition insufficient_models : exn :=
  ValueError "Can only calculate metrics for multiple models.".

(** [mode is 'metrics'] compares identities; the default argument and a
    literal ['metrics'] of a caller are one interned object, so the test
    is modelled as equality of the text. *)
Definition create_df (self : ConvNN) (dir : directory) (threshold : cell)
    (mode data_set : string) : result table :=
  '(files, out) ← find_files self dir data_set;
  if String.eqb mode "metrics" && (length files <? 2)%nat
  then Raise insufficient_models
  else
    '(df, mean_arr, r) ← read_files dir out files ([], [], None);
    pred ← Stats.nanmean_axis0 mean_arr;
    df ← Table.add_column df (Column "pred" pred) None;
    r ← match r with
        | Some r => Ok r
        | None => Raise (UnboundLocalError "r")
        end;
    gt ← Table.getitem r "gt";
    df ← Table.add_column df (Column "gt" (data gt)) (Some 0%nat);
    tpeak ← Table.getitem r "tpeak";
    df ← Table.add_column df (Column "peak" (data tpeak)) (Some 0%nat);
    tic ← Table.getitem r "# tic";
    df ← Table.add_column df (Column "tic" (data tic)) (Some 0%nat);
    p ← Table.getitem df "pred";
    let pred_round := Stats.pred_round (data p) threshold (Table.len df) in
    df ← Table.add_column df (Column "pred_round" pred_round) (Some 0%nat);
    Ok df.

(** ** The names a method of the module can see *)

Module Scope.

(** What a global name of [neural_network.py] is bound to. *)
Inductive pyobj : Type :=
| PyModule
| PyClass
| PyList
| PyStr
| PyBuiltin.

(** The module namespace after its import statements and its one class
    definition have run, with the names every module has. *)
Definition module_globals : list (string * pyobj) :=
  [("__name__", PyStr); ("__doc__", PyStr); ("__file__", PyStr);
   ("__package__", PyStr); ("__builtins__", PyModule);
   ("os", PyModule); ("glob", PyModule); ("np", PyModule);
   ("tqdm", PyClass); ("tf", PyModule); ("keras", PyModule);
   ("interp1d", PyClass); ("Table", PyClass); ("Column", PyClass);
   ("__all__", PyList); ("ConvNN", PyClass)].

(** The builtin functions, constants and the exception classes that the
    module mentions. *)
Definition builtins : list string :=
  ["abs"; "all"; "any"; "ascii"; "bin"; "bool"; "breakpoint"; "bytearray";
   "bytes"; "callable"; "chr"; "classmethod"; "compile"; "complex";
   "delattr"; "dict"; "dir"; "divmod"; "enumerate"; "eval"; "exec";
   "filter"; "float"; "format"; "frozenset"; "getattr"; "globals";
   "hasattr"; "hash"; "help"; "hex"; "id"; "input"; "int"; "isinstance";
   "issubclass"; "iter"; "len"; "list"; "locals"; "map"; "max";
   "memoryview"; "min"; "next"; "object"; "oct"; "open"; "ord"; "pow";
   "print"; "property"; "range"; "repr"; "reversed"; "round"; "set";
   "setattr"; "slice"; "sorted"; "staticmethod"; "str"; "sum"; "super";
   "tuple"; "type"; "vars"; "zip"; "__import__";
   "True"; "False"; "None"; "NotImplemented"; "Ellipsis";
   "Exception"; "ValueError"; "OSError"; "NameError"; "KeyError";
   "IndexError"; "TypeError"; "AttributeError"].

(** Loading a name that the function does not assign: the module
    namespace, then the builtins, then [NameError]. *)
Definition load_global (name : string) : result pyobj :=
  match List.find (fun b => String.eqb b.1 name) module_globals with
  | Some b => Ok b.2
  | None =>
      if bool_decide (name ∈ builtins) then Ok PyBuiltin
      else Raise (NameError name)
  end.

(** Using a global as the float on one side of a numpy comparison: no
    global of the module is a number. *)
Definition as_float (o : pyobj) : result cell :=
  match o with
  | PyModule | PyClass | PyList | PyStr | PyBuiltin => Raise TypeError
  end.

(** [o.warn(...)]: only a module can hold the function; the warning it
    emits changes nothing that is modelled. *)
Definition call_warn (o : pyobj) : result unit :=
  match o with
  | PyModule => Ok tt
  | _ => Raise (AttributeError "warn")
  end.

End Scope.

(** ** [ensemble_metrics] *)

Section EnsembleMetrics.
Local Open Scope Q_scope.

(** scikit-learn; each may raise on the arrays it is given. *)
Variable average_precision_score : list cell -> list cell -> result Q.
Variable sklearn_recall_score : list cell -> list cell -> result Q.
Variable sklearn_precision_score : list cell -> list cell -> result Q.
Variable precision_recall_curve :
  list cell -> list cell -> result (list cell * list cell * list cell).

(** [x == y] on floats. *)
Definition cell_eqb (x y : cell) : bool :=
  match x, y with
  | Some a, Some b => Qeq_bool a b
  | _, _ => false
  end.

(** [np.sum(arr == gt) / len(df)] *)
Definition fraction_equal (arr gt : list cell) (n : nat) : cell :=
  let hits := length (List.filter (fun b : bool => b) (zip_with cell_eqb arr gt)) in
  if (n =? 0)%nat then None
  else Some (inject_Z (Z.of_nat hits) / inject_Z (Z.of_nat n)).

(** [xs[-1]] *)
Definition last_item {A : Type} (xs : list A) : result A :=
  match last xs with
  | Some x => Ok x
  | None => Raise IndexError
  end.

(** The body of [for i, val in enumerate(df.columns[4:])]; the loop
    variables are the lists [ap] and [ac]. *)
Definition score_column (df : table) (val : string)
    (acc : list cell * list cell) : M ConvNN (list cell * list cell) :=
  let '(ap, ac) := acc in
  gt ← lift (Table.getitem df "gt");
  col ← lift (Table.getitem df val);
  score ← lift (average_precision_score (data gt) (data col));
  let ap := ap ++ [Stats.round_to 4 (Some score)] in
  let arr := data col in
  threshold ← lift (Scope.load_global "threshold");
  thr ← lift (Scope.as_float threshold);
  let arr := Stats.mask_assign arr (map (fun x => Stats.ge x thr) arr) (Some 1) in
  threshold ← lift (Scope.load_global "threshold");
  thr ← lift (Scope.as_float threshold);
  let arr := Stats.mask_assign arr (map (fun x => Stats.lt x thr) arr) (Some 0) in
  gt ← lift (Table.getitem df "gt");
  let ac :=
    ac ++ [Stats.round_to 4 (fraction_equal arr (data gt) (Table.len df))] in
  mret (ap, ac).

Definition ensemble_metrics (df : table) : M ConvNN unit :=
  '(ap, ac) ← for_each (score_column df) (drop 4 (Table.colnames df)) ([], []);
  gt ← lift (Table.getitem df "gt");
  pred_round ← lift (Table.getitem df "pred_round");
  rs ← lift (sklearn_recall_score (data gt) (data pred_round));
  let rs := Stats.round_to 4 (Some rs) in
  gt ← lift (Table.getitem df "gt");
  pred_round ← lift (Table.getitem df "pred_round");
  ps ← lift (sklearn_precision_score (data gt) (data pred_round));
  let ps := Stats.round_to 4 (Some ps) in
  gt ← lift (Table.getitem df "gt");
  pred ← lift (Table.getitem df "pred");
  '(prec_curve, rec_curve, _) ←
    lift (precision_recall_curve (data gt) (data pred));
  a ← lift (last_item ap);
  _ ← modify (set_average_precision a);
  c ← lift (last_item ac);
  _ ← modify (set_accuracy c);
  _ ← modify (set_recall_score rs);
  _ ← modify (set_precision_score ps);
  modify (set_prec_recall_curve (rec_curve, prec_curve)).

End EnsembleMetrics.

(** ** [fetch_dir] *)

(** What [fetch_dir] sees of the operating system: the home directory,
    the directories that exist, and whether a directory may be made. *)
Record os_state : Type := {
  home : string;
  dirs : gset string;
  mkdir_allowed : string -> bool
}.

Definition fetch_state : Type := ConvNN * os_state.

(** [os.path.isdir] *)
Definition isdir (path : string) : M fetch_state bool :=
  st ← get; mret (bool_decide (path ∈ dirs st.2)).

(** [os.mkdir]: [OSError] when the directory exists or may not be made. *)
Definition mkdir (path : string) : M fetch_state unit := fun st =>
  if bool_decide (path ∈ dirs st.2) then (Raise OSError, st)
  else if mkdir_allowed st.2 path then
    (Ok tt, (st.1, {| home := home st.2; dirs := {[path]} ∪ dirs st.2;
                      mkdir_allowed := mkdir_allowed st.2 |}))
  else (Raise OSError, st).

(** [try: body / except OSError: handler] *)
Definition try_except_OSError {S A : Type} (body handler : M S A) : M S A :=
  fun s =>
    match body s with
    | (Raise OSError, s') => handler s'
    | outcome => outcome
    end.

Definition fetch_dir : M fetch_state unit :=
  st ← get;
  let download_dir := Str.path_join (home st.2) ".stella" in
  exists_ ← isdir download_dir;
  if (exists_ : bool) then
    modify (fun st => (set_output_dir download_dir st.1, st.2))
  else
    download_dir ←
      try_except_OSError
        (_ ← mkdir download_dir; mret download_dir)
        (let download_dir := "." in
         warnings ← lift (Scope.load_global "warnings");
         _ ← lift (Scope.call_warn warnings);
         mret download_dir);
    modify (fun st => (set_output_dir download_dir st.1, st.2)).

(** [ConvNN.__init__], as far as [output_dir] goes. *)
Definition init_output_dir (output_dir_arg : option string)
  : M fetch_state unit :=
  match output_dir_arg with
  | None => fetch_dir
  | Some d => modify (fun st => (set_output_dir d st.1, st.2))
  end.

(** ** Objects and directories used as examples *)

Definition no_attributes : ConvNN :=
  {| ds := {| val_ids := []; val_labels := []; val_tpeaks := [];
              test_ids := []; test_labels := []; test_tpeaks := [] |};
     frac_balance := "0.73"; output_dir := None; epochs := None;
     history_table := None; val_pred_table := None; test_pred_table := None;
     average_precision := None; accuracy := None; recall_score := None;
     precision_score := None; prec_recall_curve := None |}.

(** A home directory in which nothing can be made. *)
Definition read_only_home : os_state :=
  {| home := "/home/user"; dirs := {["/home/user"]};
     mkdir_allowed := fun _ => false |}.

(** A per-seed prediction file with two rows, in the layout that
    [create_df] reads. *)
Definition seed_file (pred : list cell) : table :=
  [Column "# tic" [Some 1%Q; Some 2%Q];
   Column "pred" pred;
   Column "gt" [Some 0%Q; Some 1%Q];
   Column "tpeak" [Some 10%Q; Some 20%Q]].

(** An object after five epochs of training, with its output directory. *)
Definition trained : ConvNN :=
  {| ds := {| val_ids := [Some 1%Q; Some 2%Q];
              val_labels := [Some 0%Q; Some 1%Q];
              val_tpeaks := [Some 10%Q; Some 20%Q];
              test_ids := []; test_labels := []; test_tpeaks := [] |};
     frac_balance := "0.73"; output_dir := Some "/home/user/.stella";
     epochs := Some 5%nat;
     history_table := None; val_pred_table := None; test_pred_table := None;
     average_precision := None; accuracy := None; recall_score := None;
     precision_score := None; prec_recall_curve := None |}.

(** Three prediction files; the first row holds 0.2, 0.4 and NaN. *)
Definition three_seeds : directory :=
  <["predval_s0001_i0005_b0.73.txt" :=
      TableFile (seed_file [Some (2 # 10)%Q; Some (5001 # 10000)%Q])]>
  (<["predval_s0002_i0005_b0.73.txt" :=
       TableFile (seed_file [Some (4 # 10)%Q; Some (4999 # 10000)%Q])]>
   (<["predval_s0003_i0005_b0.73.txt" :=
        TableFile (seed_file [None; None])]> ∅)).

Definition one_seed : directory :=
  <["predval_s0001_i0005_b0.73.txt" :=
      TableFile (seed_file [Some (2 # 10)%Q; Some (5001 # 10000)%Q])]> ∅.

(** The table that [create_df] makes of the three files at threshold
    0.5. *)
Definition aggregated : table :=
  Eval vm_compute in
    match create_df trained three_seeds (Some (1 # 2)%Q) "metrics" "validation"
    with
    | Ok df => df
    | Raise _ => []
    end.

(** A stand-in for keras: one metric per epoch and a fixed prediction. *)
Definition example_fit (seed n_epochs : nat)
  : result (list (string * list cell)) :=
  Ok [("loss", replicate n_epochs (Some (1 # 10)%Q));
      ("accuracy", replicate n_epochs (Some (9 # 10)%Q))].

Definition example_predict (seed : nat) : result (list cell) :=
  Ok [Some (1 # 2)%Q; Some (1 # 3)%Q].

(** The object and its directory after
    [train_models(seeds=[1, 2], epochs=5, save=True)]. *)
Definition after_training : disk_state :=
  (train_models example_fit example_predict example_predict
     [1%nat; 2%nat] 5 false true (trained, ∅)).2.

(** A light curve with one gap, between the times 3 and 10. *)
Definition gappy_time : list Q := [0; 1; 2; 3; 10; 11; 12]%Q.
Definition gappy_flux : list Q := [5; 6; 5; 6; 5; 6; 5]%Q.
Definition gappy_err : list Q := [1; 1; 1; 1; 1; 1; 1]%Q.

(** What [fill_in_sample] returns for it when every standard deviation
    is 1 and every random draw is 0. *)
Definition filled : gap_state :=
  Eval vm_compute in
    match fill_in_sample (fun _ => 1%Q) (fun _ => 0%Q)
            gappy_time gappy_flux gappy_err sigma 0
    with
    | Ok st => st
    | Raise _ => ([], [], [], 0%nat)
    end.

(** A stand-in for the classifier: the score 0 for every window. *)
Definition example_model (rows : list (list Q)) : result (list Q) :=
  Ok (map (fun _ => 0%Q) rows).

(** Two light curves, the second without a gap. *)
Definition two_times : list (list Q) := [gappy_time; [0; 1; 2; 3]%Q].
Definition two_fluxes : list (list Q) := [gappy_flux; [5; 6; 5; 6]%Q].
Definition two_errs : list (list Q) := [gappy_err; [1; 1; 1; 1]%Q].

(** What [predict] returns for them at [cadences = 4]. *)
Definition predicted : list (list Q) :=
  Eval vm_compute in
    match predict (fun _ => 1%Q) (fun _ => 0%Q) example_model 4
            two_times two_fluxes two_errs 0
    with
    | Ok ps => ps
    | Raise _ => []
    end.

(** ** [cross_validation] *)

(** The attributes of a [ConvNN] that [cross_validation] reads or sets.
    [__init__] assigns [labels]; no method of the class assigns [seed],
    which is there only if a caller has set it from outside. *)
Record cv_object : Type := {
  cv_labels : list cell;
  cv_seed : option Z;
  cv_kfolds_train_labels : option (list cell);
  cv_kfolds_val_labels : option (list cell);
  cv_kfolds_table : option table
}.

Definition set_kfolds_train_labels (v : list cell) (self : cv_object)
  : cv_object :=
  {| cv_labels := cv_labels self; cv_seed := cv_seed self;
     cv_kfolds_train_labels := Some v;
     cv_kfolds_val_labels := cv_kfolds_val_labels self;
     cv_kfolds_table := cv_kfolds_table self |}.

Definition set_kfolds_val_labels (v : list cell) (self : cv_object)
  : cv_object :=
  {| cv_labels := cv_labels self; cv_seed := cv_seed self;
     cv_kfolds_train_labels := cv_kfolds_train_labels self;
     cv_kfolds_val_labels := Some v;
     cv_kfolds_table := cv_kfolds_table self |}.

Definition set_kfolds_table (v : table) (self : cv_object) : cv_object :=
  {| cv_labels := cv_labels self; cv_seed := cv_seed self;
     cv_kfolds_train_labels := cv_kfolds_train_labels self;
     cv_kfolds_val_labels := cv_kfolds_val_labels self;
     cv_kfolds_table := Some v |}.

Section CrossValidation.

(** scikit-learn: the train and validation indices of fold [i] among
    [n_splits] folds of [n_samples] samples (shuffled or not). *)
Variable kfold_indices : nat -> Z -> nat -> list nat * list nat.

(** The method [create_model(self, seed)] when it is given its seed. *)
Variable create_model : Z -> M cv_object unit.

(** The statements of the loop body that follow the call of
    [create_model]: training, prediction, metrics, the saved file and
    the columns added to [tab]. *)
Variable rest_of_fold : nat -> table -> M cv_object table.

(** [KFold(n_splits=n_splits, shuffle=shuffle)] for an integer and a
    bool.  The texts are the fixed opening words of the messages. *)
Definition KFold (n_splits : Z) : result Z :=
  if n_splits <=? 1
  then Raise (ValueError
                "k-fold cross-validation requires at least one train/test split")
  else Ok n_splits.

(** [kf.split(y)]: one pair of index arrays per fold. *)
Definition kf_split (n_splits : Z) (n_samples : nat)
  : result (list (list nat * list nat)) :=
  if Z.of_nat n_samples <? n_splits
  then Raise (ValueError "Cannot have number of splits")
  else Ok (map (kfold_indices n_samples n_splits) (seq 0 (Z.to_nat n_splits))).

(** [y[idx]] for an array of indices. *)
Fixpoint fancy_index (y : list cell) (idx : list nat) : result (list cell) :=
  match idx with
  | [] => Ok []
  | i :: idx' => v ← Py.index y i; vs ← fancy_index y idx'; Ok (v :: vs)
  end.

(** Calling [self.create_model] with the given positional arguments:
    the method takes exactly one besides [self]. *)
Definition call_create_model (args : list Z) : M cv_object unit :=
  match args with
  | [seed] => create_model seed
  | _ => lift (Raise TypeError)
  end.

(** [int(0.90 * num_flares)] *)
Definition trainval_cutoff (num_flares : nat) : Z :=
  Qfloor ((9 # 10) * inject_Z (Z.of_nat num_flares)).

(** The body of [for ti, vi in kf.split(y_trainval)]; the loop variables
    are the counter [i] and the table [tab].  The rows of
    [training_matrix], the peaks and the ids are indexed with the same
    arrays as the labels and are as many, so indexing them raises when
    indexing the labels does. *)
Definition cv_fold (y_trainval : list cell) (fold : list nat * list nat)
    (acc : nat * table) : M cv_object (nat * table) :=
  let '(ti, vi) := fold in
  let '(i, tab) := acc in
  train_labels ← lift (fancy_index y_trainval ti);
  _ ← modify (set_kfolds_train_labels train_labels);
  val_labels ← lift (fancy_index y_trainval vi);
  _ ← modify (set_kfolds_val_labels val_labels);
  _ ← call_create_model [];
  tab ← rest_of_fold i tab;
  mret (S i, tab).

Definition cross_validation (n_epochs n_splits : Z) : M cv_object unit :=
  self ← get;
  let num_flares := length (cv_labels self) in
  let y_trainval := Py.slice (cv_labels self) 0 (trainval_cutoff num_flares) in
  kf ← lift (KFold n_splits);
  _ ← lift (getattr "seed" (cv_seed self));
  folds ← lift (kf_split kf (length y_trainval));
  '(_, tab) ← for_each (cv_fold y_trainval) folds (0%nat, []);
  modify (set_kfolds_table tab).

End CrossValidation.

(** ** Light curves with a rational standard deviation *)

(** The population variance, as [np.nanstd] squares it. *)
Definition Qmean (l : list Q) : Q :=
  (Stats.Qsum l / inject_Z (Z.of_nat (length l)))%Q.

Definition variance (l : list Q) : Q :=
  Qmean (map (fun x => ((x - Qmean l) * (x - Qmean l))%Q) l).

(** [np.nanstd] on the arrays of the examples below: their variance is
    the square of a rational, and the square root is taken of the
    numerator and the denominator of the reduced fraction. *)
Definition exact_std (l : list Q) : Q :=
  let v := Qred (variance l) in
  (inject_Z (Z.sqrt (Qnum v)) / inject_Z (Z.sqrt (Z.pos (Qden v))))%Q.





(** Eleven points with one gap, between the times 4 and 15: the time
    differences have median 1 and standard deviation 3, the flux has
    standard deviation 2. *)
Definition gap_time : list Q := [0; 1; 2; 3; 4; 15; 16; 17; 18; 19; 20]%Q.
Definition gap_flux : list Q := [9; 1; 7; 3; 6; 4; 6; 4; 5; 5; 5]%Q.
Definition gap_err : list Q := [1; 1; 1; 1; 1; 1; 1; 1; 1; 1; 1]%Q.

Definition gap_filled : gap_state :=
  Eval vm_compute in
    match fill_in_sample exact_std (fun _ => 0%Q)
            gap_time gap_flux gap_err sigma 0
    with
    | Ok st => st
    | Raise _ => ([], [], [], 0%nat)
    end.

(** The windows of an eight-sample light curve at [cadences = 4]. *)
Definition eight_rows : list (list Q) :=
  Eval vm_compute in
    match Windows.reshaped_data 4 [1; 2; 3; 4; 5; 6; 7; 8]%Q with
    | Ok rows => rows
    | Raise _ => []
    end.

(** ** Vocabulary of the statements *)

(** [a] may stand in front of [b] in a sorted list: [b < a] does not
    hold. *)
Definition not_after {A : Type} (ltb : A -> A -> bool) (a b : A) : Prop :=
  ltb b a = false.

(** The values of [np.arange] for a step that is not zero. *)
Definition arange_values (start stop step : Q) : list Q :=
  map (fun k : nat => (start + inject_Z (Z.of_nat k) * step)%Q)
      (seq 0 (Z.to_nat (Qceiling ((stop - start) / step)))).

(** The exceptions a computation can end in. *)
Definition raises_only {A : Type} (P : exn -> Prop) (m : result A) : Prop :=
  forall e, m = Raise e -> P e.

Definition not_insufficient (e : exn) : Prop := e <> insufficient_models.

(** The file [name] of the directory holds a table whose ['pred'] column
    is [p]. *)
Definition reads (dir : directory) (name : string) (p : list cell) : Prop :=
  exists tb c,
    read_table dir name = Ok tb /\ Table.getitem tb "pred" = Ok c /\ data c = p.

(** The column that [create_df] makes of the predictions [p] read from
    the file [name] of the directory [out]. *)
Definition seed_column (out name : string) (p : list cell) : column :=
  Column ("s" +:+ Str.seed_text (Str.path_join out name)) (Stats.round3 p).

(** The thresholded label of a mean prediction. *)
Definition label (threshold m : cell) : cell :=
  if Stats.ge m threshold then Some 1%Q else Some 0%Q.

(** A name that the per-seed template [predval_fmt] can produce. *)
Definition per_seed_name (name : string) : Prop :=
  exists rest, name = "predval_s" +:+ rest.

(** The name under which [train_models] saves the validation table. *)
Definition saved_predval (n_epochs : nat) (balance : string) : string :=
  "predval" +:+ "_i" +:+ Str.fmt_04d n_epochs +:+ "_b" +:+ balance +:+ ".txt".

(** What the insertion loop of [fill_in_sample] keeps and adds between
    two states: the original samples stay, in their order; the error
    array only gains copies of [avg_noise]; the three arrays gain the
    same number of values, and one random number is drawn for each. *)
Definition grows (avg_noise : Q) (st st' : gap_state) : Prop :=
  let '(t, f, e, k) := st in
  let '(t', f', e', k') := st' in
  sublist t t' /\ sublist (zip t f) (zip t' f') /\ sublist e e'
  /\ Forall (fun v => v ∈ e \/ v = avg_noise) e'
  /\ (length t' + length e = length t + length e')%nat
  /\ (k' + length t = k + length t')%nat.

(** The value of a decimal digit and of a run of digits. *)
Definition digit_value (c : ascii) : N := N.of_nat (nat_of_ascii c - 48).

Definition decimal_value (s : list ascii) : N :=
  fold_left (fun acc c => (10 * acc + digit_value c)%N) s 0%N.

Definition digit_char (c : ascii) : bool :=
  let n := nat_of_ascii c in ((48 <=? n) && (n <=? 57))%nat.

(** The name under which [train_models] saves the model of a seed. *)
Definition saved_model (seed n_epochs : nat) (balance : string) : string :=
  "model" +:+ ("_s" +:+ Str.fmt_04d seed +:+ "_i" +:+ Str.fmt_04d n_epochs
               +:+ "_b" +:+ balance) +:+ ".h5".

(** The per-seed name of the test predictions, [self.predtest_fmt]. *)
Definition predtest_fmt (seed n_epochs : nat) (balance : string) : string :=
  "predtest_s" +:+ Str.fmt_04d seed +:+ "_i" +:+ Str.fmt_04d n_epochs
  +:+ "_b" +:+ balance +:+ ".txt".

(** A computation keeps a property of the state, whether it returns or
    raises. *)
Definition keeps {S A : Type} (P : S -> Prop) (m : M S A) : Prop :=
  forall s r s', m s = (r, s') -> P s -> P s'.

(** The column that [train_models] adds for a seed to the validation
    table and to the test table. *)
Definition pred_column (seed : nat) : string := "pred_s" +:+ Str.fmt_04d seed.
Definition test_column (seed : nat) : string := "test_s" +:+ Str.fmt_04d seed.

(** The directory after the models of the seeds have been saved. *)
Definition with_models (n_epochs : nat) (balance : string) (seeds : list nat)
    (dir : directory) : directory :=
  fold_left (fun d seed =>
               <[saved_model seed n_epochs balance := ModelFile seed]> d)
            seeds dir.

(** * Properties of computations that may raise *)

Section ResultFacts.

Lemma raises_only_bind {A B : Type} (P : exn -> Prop) (m : result A)
    (k : A -> result B) :
  raises_only P m -> (forall a, m = Ok a -> raises_only P (k a)) ->
  raises_only P (m ≫= k).
Proof.
  intros Hm Hk e. destruct m as [a | e']; simpl.
  - now apply Hk.
  - intros [= <-]. now apply Hm.
Qed.

Lemma raises_only_ok {A : Type} (P : exn -> Prop) (a : A) :
  raises_only P (Ok a).
Proof. intros e H. discriminate. Qed.

Lemma raises_only_raise {A : Type} (P : exn -> Prop) (e : exn) :
  P e -> raises_only P (Raise e : result A).
Proof. intros H e' [= <-]. exact H. Qed.

Lemma bind_Ok_inv {A B : Type} (m : result A) (k : A -> result B) (b : B) :
  m ≫= k = Ok b -> exists a, m = Ok a /\ k a = Ok b.
Proof. destruct m as [a | e]; simpl; [eauto | discriminate]. Qed.

End ResultFacts.

(** * Properties of the windowing loop *)

Section SliceFacts.
Context {A : Type}.
Implicit Types l : list A.

Lemma bound_range (len i : Z) : 0 <= len -> 0 <= Py.bound len i <= len.
Proof. unfold Py.bound. destruct (i <? 0) eqn:E; lia. Qed.

Lemma bound_nonneg (len i : Z) : 0 <= i -> Py.bound len i = Z.min i len.
Proof. unfold Py.bound. destruct (i <? 0) eqn:E; lia. Qed.

Lemma length_slice l (a b : Z) :
  Z.of_nat (length (Py.slice l a b)) =
  Z.max 0 (Py.bound (Z.of_nat (length l)) b - Py.bound (Z.of_nat (length l)) a).
Proof.
  unfold Py.slice.
  pose proof (bound_range (Z.of_nat (length l)) a ltac:(lia)).
  pose proof (bound_range (Z.of_nat (length l)) b ltac:(lia)).
  rewrite length_take, length_drop. lia.
Qed.

Lemma length_slice_inside l (a b : Z) :
  0 <= a <= b -> b <= Z.of_nat (length l) ->
  Z.of_nat (length (Py.slice l a b)) = b - a.
Proof.
  intros Ha Hb. rewrite length_slice, !bound_nonneg by lia. lia.
Qed.

Lemma slice_prefix l (b : Z) :
  0 <= b -> Py.slice l 0 b = take (Z.to_nat b) l.
Proof.
  intros Hb. unfold Py.slice. rewrite !bound_nonneg by lia.
  rewrite (Z.min_l 0) by lia.
  change (Z.to_nat 0) with 0%nat. rewrite drop_0, Z.sub_0_r.
  destruct (Z.le_ge_cases b (Z.of_nat (length l))).
  - now rewrite Z.min_l by lia.
  - rewrite Z.min_r by lia. rewrite Nat2Z.id.
    rewrite !take_ge by lia. reflexivity.
Qed.

End SliceFacts.

Section WindowFacts.
Import Windows.

Lemma zeros_ok (n : Z) :
  0 <= n -> Py.zeros n = Ok (replicate (Z.to_nat n) 0%Q).
Proof. intros Hn. unfold Py.zeros. destruct (n <? 0) eqn:E; [lia | easy]. Qed.

Lemma cadence_pad_div (cadences : Z) :
  0 <= cadences -> cadence_pad cadences = cadences / 2.
Proof. intros H. unfold cadence_pad. now apply Z.quot_div_nonneg. Qed.

Lemma cadence_pad_even (cadences : Z) :
  0 <= cadences -> Z.even cadences = true ->
  2 * cadence_pad cadences = cadences.
Proof.
  intros H Hev. rewrite cadence_pad_div by easy.
  apply Z.even_spec in Hev. destruct Hev as [k ->].
  rewrite (Z.mul_comm 2 k), Z.div_mul by lia. lia.
Qed.

Lemma cadence_pad_bounds (cadences : Z) :
  0 <= cadences ->
  2 * cadence_pad cadences <= cadences < 2 * cadence_pad cadences + 2.
Proof.
  intros H. rewrite cadence_pad_div by easy.
  pose proof (Z.div_mod cadences 2 ltac:(lia)).
  pose proof (Z.mod_pos_bound cadences 2 ltac:(lia)). lia.
Qed.

(** The left-boundary branch: [cadence_pad - i] zeros, then the head of
    the light curve. *)
Lemma window_left (cadences : Z) (lc : list Q) (i : Z) :
  0 <= i -> 2 * i <= cadences ->
  window cadences lc i =
  Ok (replicate (Z.to_nat (cadence_pad cadences - i)) 0%Q
      ++ take (Z.to_nat (i + cadence_pad cadences)) lc).
Proof.
  intros Hi Hle. unfold window.
  pose proof (cadence_pad_bounds cadences ltac:(lia)).
  destruct (2 * i <=? cadences) eqn:E; [| lia].
  rewrite zeros_ok by lia. simpl. now rewrite slice_prefix by lia.
Qed.

(** The right-boundary branch always pads to the full width. *)
Lemma window_right_length (cadences : Z) (lc : list Q) (i : Z) :
  0 <= cadences -> i < Z.of_nat (length lc) ->
  cadences < 2 * i -> Z.of_nat (length lc) - cadence_pad cadences <= i ->
  exists w, window cadences lc i = Ok w /\ Z.of_nat (length w) = cadences.
Proof.
  intros Hc Hi Hgt Hge. unfold window.
  pose proof (cadence_pad_bounds cadences Hc) as Hp.
  destruct (2 * i <=? cadences) eqn:E1; [lia |].
  destruct (Z.of_nat (length lc) - cadence_pad cadences <=? i) eqn:E2; [| lia].
  set (s := Py.slice lc (i - cadence_pad cadences) (Z.of_nat (length lc))).
  assert (Hs : Z.of_nat (length s) = Z.of_nat (length lc) - (i - cadence_pad cadences)).
  { unfold s. apply length_slice_inside; lia. }
  rewrite zeros_ok by lia. simpl. eexists; split; [reflexivity |].
  rewrite length_app, length_replicate. lia.
Qed.

(** The interior branch: the bare slice, [2 * cadence_pad] wide. *)
Lemma window_interior (cadences : Z) (lc : list Q) (i : Z) :
  0 <= cadences ->
  cadences < 2 * i -> i < Z.of_nat (length lc) - cadence_pad cadences ->
  window cadences lc i =
    Ok (Py.slice lc (i - cadence_pad cadences) (i + cadence_pad cadences))
  /\ Z.of_nat (length (Py.slice lc (i - cadence_pad cadences)
                                  (i + cadence_pad cadences)))
     = 2 * cadence_pad cadences.
Proof.
  intros Hc Hgt Hlt. unfold window.
  pose proof (cadence_pad_bounds cadences Hc) as Hp.
  destruct (2 * i <=? cadences) eqn:E1; [lia |].
  destruct (Z.of_nat (length lc) - cadence_pad cadences <=? i) eqn:E2; [lia |].
  split; [reflexivity |]. rewrite length_slice_inside; lia.
Qed.

(** With an even width and at least [cadences] samples every branch
    yields [cadences] values. *)
Lemma window_length_even (cadences : Z) (lc : list Q) (i : Z) :
  Z.even cadences = true -> 0 <= cadences <= Z.of_nat (length lc) ->
  0 <= i < Z.of_nat (length lc) ->
  exists w, window cadences lc i = Ok w /\ Z.of_nat (length w) = cadences.
Proof.
  intros Hev Hc Hi.
  pose proof (cadence_pad_even cadences ltac:(lia) Hev) as Hp.
  destruct (Z.le_gt_cases (2 * i) cadences) as [Hl | Hl].
  - rewrite window_left by lia. eexists; split; [reflexivity |].
    rewrite length_app, length_replicate, length_take. lia.
  - destruct (Z.le_gt_cases (Z.of_nat (length lc) - cadence_pad cadences) i).
    + apply window_right_length; lia.
    + destruct (window_interior cadences lc i) as [-> Hlen]; try lia.
      eexists; split; [reflexivity | lia].
Qed.

Lemma assign_row_same (width : Z) (f : list Q) :
  Z.of_nat (length f) = width -> Py.assign_row width f = Ok f.
Proof. intros H. unfold Py.assign_row. now rewrite (proj2 (Z.eqb_eq _ _) H). Qed.

(** When every window has the full width, the loop stores them as they
    are. *)
Lemma fill_rows_ok (cadences : Z) (lc : list Q) (idx : list nat) :
  (forall i, i ∈ idx ->
     exists w, window cadences lc (Z.of_nat i) = Ok w
               /\ Z.of_nat (length w) = cadences) ->
  exists rows, fill_rows cadences lc idx = Ok rows
    /\ length rows = length idx
    /\ forall k i, idx !! k = Some i ->
         exists w, window cadences lc (Z.of_nat i) = Ok w
                   /\ rows !! k = Some w.
Proof.
  induction idx as [| i idx IH]; intros H.
  - exists []. repeat split. intros k i Hk. now rewrite lookup_nil in Hk.
  - destruct (H i) as (w & Hw & Hlen); [apply list_elem_of_here |].
    destruct IH as (rows & Hrows & Hl & Hnth).
    { intros j Hj. apply H. now apply list_elem_of_further. }
    exists (w :: rows). simpl. rewrite Hw. simpl.
    rewrite assign_row_same by easy. simpl. rewrite Hrows. simpl.
    repeat split; [now rewrite Hl |].
    intros [| k] j Hk; simpl in Hk.
    + injection Hk as <-. now exists w.
    + now apply Hnth.
Qed.

(** The loop as a whole: when every window has the full width, there is
    one row per sample index, and row [i] is the window for [i]. *)
Lemma reshaped_data_rows (cadences : Z) (lc : list Q) :
  0 <= cadences ->
  (forall i : nat, (i < length lc)%nat ->
     exists w, window cadences lc (Z.of_nat i) = Ok w
               /\ Z.of_nat (length w) = cadences) ->
  exists rows,
    reshaped_data cadences lc = Ok rows
    /\ length rows = length lc
    /\ forall i : nat, (i < length lc)%nat ->
         exists w, window cadences lc (Z.of_nat i) = Ok w
                   /\ rows !! i = Some w.
Proof.
  intros Hc Hall. unfold reshaped_data.
  destruct (cadences <? 0) eqn:E; [lia |].
  destruct (fill_rows_ok cadences lc (seq 0 (length lc)))
    as (rows & Hrows & Hlen & Hnth).
  { intros i Hi. apply elem_of_seq in Hi. apply Hall. lia. }
  exists rows. split; [exact Hrows |].
  rewrite length_seq in Hlen. split; [exact Hlen |].
  intros i Hi. apply (Hnth i i). apply lookup_seq. lia.
Qed.

End WindowFacts.

(** ** When the loop returns *)

Section WindowLoopOutcome.
Import Windows.
Local Open Scope Z_scope.

Lemma slice_inside {A : Type} (l : list A) (a b : Z) :
  0 <= a <= b -> b <= Z.of_nat (length l) ->
  Py.slice l a b = take (Z.to_nat (b - a)) (drop (Z.to_nat a) l).
Proof.
  intros Ha Hb. unfold Py.slice. rewrite !bound_nonneg by lia.
  now rewrite !Z.min_l by lia.
Qed.

Lemma slice_suffix {A : Type} (l : list A) (a : Z) :
  0 <= a <= Z.of_nat (length l) ->
  Py.slice l a (Z.of_nat (length l)) = drop (Z.to_nat a) l.
Proof.
  intros Ha. rewrite slice_inside by lia.
  apply take_ge. rewrite length_drop. lia.
Qed.

Lemma assign_row_bad (width : Z) (f : list Q) :
  Z.of_nat (length f) <> width -> length f <> 1%nat ->
  Py.assign_row width f = Raise (ValueError "could not broadcast input array").
Proof.
  intros Hw H1. unfold Py.assign_row.
  destruct (Z.of_nat (length f) =? width) eqn:E; [lia |].
  destruct f as [| x [| y f]]; simpl in *; [reflexivity | lia | reflexivity].
Qed.

(** One window that cannot be stored stops the loop, at that row if not
    before. *)
Lemma fill_rows_bad (cadences : Z) (lc : list Q) (idx : list nat) (i : nat)
    (w : list Q) :
  i ∈ idx ->
  window cadences lc (Z.of_nat i) = Ok w ->
  Z.of_nat (length w) <> cadences -> length w <> 1%nat ->
  exists e, fill_rows cadences lc idx = Raise e.
Proof.
  intros Hin Hw Hlen H1.
  induction idx as [| j idx IH]; [now apply elem_of_nil in Hin |].
  simpl. destruct (decide (j = i)) as [-> | Hne].
  - rewrite Hw. simpl. rewrite (assign_row_bad _ _ Hlen H1). simpl. eauto.
  - apply elem_of_cons in Hin. destruct Hin as [-> | Hin]; [easy |].
    destruct (window cadences lc (Z.of_nat j)) as [w' | e]; simpl; [| eauto].
    destruct (Py.assign_row cadences w') as [row | e]; simpl; [| eauto].
    destruct (IH Hin) as [e ->]. simpl. eauto.
Qed.

(** The length of a left-boundary window. *)
Lemma window_left_length (cadences : Z) (lc : list Q) (i : Z) :
  0 <= i -> 2 * i <= cadences ->
  exists w, window cadences lc i = Ok w
            /\ Z.of_nat (length w)
               = cadence_pad cadences - i
                 + Z.min (i + cadence_pad cadences) (Z.of_nat (length lc)).
Proof.
  intros Hi Hle. rewrite window_left by lia.
  pose proof (cadence_pad_bounds cadences ltac:(lia)).
  eexists. split; [reflexivity |].
  rewrite length_app, length_replicate, length_take. lia.
Qed.

(** With an odd width the window for index 0 cannot be stored. *)
Lemma reshaped_data_odd (cadences : Z) (lc : list Q) :
  0 <= cadences -> Z.even cadences = false -> lc <> [] ->
  exists e, reshaped_data cadences lc = Raise e.
Proof.
  intros Hc Hodd Hne. unfold reshaped_data.
  destruct (cadences <? 0) eqn:E; [lia |].
  pose proof (cadence_pad_bounds cadences Hc) as Hp.
  assert (Hh : cadences = 2 * cadence_pad cadences + 1).
  { rewrite <- Z.negb_odd in Hodd. apply negb_false_iff in Hodd.
    apply Z.odd_spec in Hodd. destruct Hodd as [m Hm]. lia. }
  assert (Hn : (0 < length lc)%nat) by (destruct lc; simpl; [easy | lia]).
  destruct (window_left_length cadences lc 0 ltac:(lia) ltac:(lia))
    as (w & Hw & Hlen).
  apply (fill_rows_bad cadences lc _ 0%nat w);
    [apply elem_of_seq; lia | exact Hw | lia | lia].
Qed.

(** With an even width and fewer samples than the width, some window is
    short, except for the width 2 on a single sample. *)
Lemma reshaped_data_short (cadences : Z) (lc : list Q) :
  0 <= cadences -> Z.even cadences = true -> lc <> [] ->
  Z.of_nat (length lc) < cadences ->
  ~ (cadences = 2 /\ length lc = 1%nat) ->
  exists e, reshaped_data cadences lc = Raise e.
Proof.
  intros Hc Hev Hne Hshort Hnot. unfold reshaped_data.
  destruct (cadences <? 0) eqn:E; [lia |].
  pose proof (cadence_pad_even cadences Hc Hev) as Hh.
  set (half := cadence_pad cadences) in *.
  assert (Hn : (0 < length lc)%nat) by (destruct lc; simpl; [easy | lia]).
  assert (Hhalf : 2 <= half) by lia.
  destruct (Z.lt_trichotomy (Z.of_nat (length lc)) half) as [Hlt | [Heq | Hgt]].
  - (* fewer than half: index 0 *)
    destruct (window_left_length cadences lc 0 ltac:(lia) ltac:(lia))
      as (w & Hw & Hlen). fold half in Hlen.
    apply (fill_rows_bad cadences lc _ 0%nat w);
      [apply elem_of_seq; lia | exact Hw | lia | lia].
  - (* exactly half: index 1 *)
    destruct (window_left_length cadences lc 1 ltac:(lia) ltac:(lia))
      as (w & Hw & Hlen). fold half in Hlen.
    apply (fill_rows_bad cadences lc _ 1%nat w);
      [apply elem_of_seq; lia | exact Hw | lia | lia].
  - (* more than half: index half *)
    destruct (window_left_length cadences lc half ltac:(lia) ltac:(lia))
      as (w & Hw & Hlen). fold half in Hlen.
    apply (fill_rows_bad cadences lc _ (Z.to_nat half) w);
      [apply elem_of_seq; lia | now rewrite Z2Nat.id by lia | lia | lia].
Qed.

(** When the loop runs to its end on a light curve that is not empty,
    the width is even and no larger than the light curve, or it is 2 on
    a single sample. *)
Lemma reshaped_data_Ok_inv (cadences : Z) (lc : list Q)
    (rows : list (list Q)) :
  reshaped_data cadences lc = Ok rows -> lc <> [] ->
  0 <= cadences
  /\ ((Z.even cadences = true /\ cadences <= Z.of_nat (length lc))
      \/ (cadences = 2 /\ length lc = 1%nat)).
Proof.
  intros Hrows Hne.
  assert (Hc : 0 <= cadences).
  { unfold reshaped_data in Hrows.
    destruct (cadences <? 0) eqn:E; [discriminate | lia]. }
  split; [exact Hc |].
  destruct (Z.even cadences) eqn:Hev.
  - destruct (Z.le_gt_cases cadences (Z.of_nat (length lc)))
      as [Hle | Hgt]; [now left | right].
    destruct (decide (cadences = 2 /\ length lc = 1%nat))
      as [Hyes | Hno]; [exact Hyes |].
    destruct (reshaped_data_short cadences lc Hc Hev Hne ltac:(lia) Hno)
      as [e He].
    congruence.
  - destruct (reshaped_data_odd cadences lc Hc Hev Hne) as [e He].
    congruence.
Qed.

End WindowLoopOutcome.

(** * Properties of the numpy model *)

Section QboolFacts.
Local Open Scope Q_scope.

Lemma Qltb_lt (x y : Q) : Np.Qltb x y = true <-> x < y.
Proof.
  unfold Np.Qltb. rewrite negb_true_iff, <- not_true_iff_false, Qle_bool_iff.
  split; [apply Qnot_le_lt | apply Qlt_not_le].
Qed.

Lemma Qltb_ge (x y : Q) : Np.Qltb x y = false <-> y <= x.
Proof.
  unfold Np.Qltb. rewrite negb_false_iff. apply Qle_bool_iff.
Qed.

Lemma Qeq_bool_false (x y : Q) : Qeq_bool x y = false <-> ~ x == y.
Proof. rewrite <- not_true_iff_false, Qeq_bool_iff. reflexivity. Qed.

Lemma pair_ltb_lt_fst (p q : Q * Q) :
  p.1 < q.1 -> Np.pair_ltb q p = false.
Proof.
  intros H. unfold Np.pair_ltb.
  destruct (Qeq_bool q.1 p.1) eqn:E.
  - apply Qeq_bool_iff in E. rewrite E in H. now apply Qlt_irrefl in H.
  - apply Qltb_ge. now apply Qlt_le_weak.
Qed.

Lemma pair_ltb_asym (p q : Q * Q) :
  Np.pair_ltb p q = true -> Np.pair_ltb q p = false.
Proof.
  unfold Np.pair_ltb. intros H.
  destruct (Qeq_bool p.1 q.1) eqn:E.
  - assert (E' : Qeq_bool q.1 p.1 = true).
    { apply Qeq_bool_iff. symmetry. now apply Qeq_bool_iff. }
    rewrite E'. apply Qltb_ge. apply Qltb_lt in H. now apply Qlt_le_weak.
  - assert (E' : Qeq_bool q.1 p.1 = false).
    { apply Qeq_bool_false. intros Hq. apply Qeq_bool_false in E.
      apply E. now symmetry. }
    rewrite E'. apply Qltb_ge. apply Qltb_lt in H. now apply Qlt_le_weak.
Qed.

Lemma pair_ltb_false_fst (p q : Q * Q) :
  Np.pair_ltb q p = false -> p.1 <= q.1.
Proof.
  unfold Np.pair_ltb. destruct (Qeq_bool q.1 p.1) eqn:E; intros H.
  - apply Qeq_bool_iff in E. rewrite E. apply Qle_refl.
  - now apply Qltb_ge.
Qed.

End QboolFacts.

Section SortedFacts.
Context {A : Type} (ltb : A -> A -> bool).

Abbreviation ordered := (not_after ltb).

Lemma place_Permutation (x : A) (l : list A) : Np.place ltb x l ≡ₚ x :: l.
Proof.
  induction l as [| y l IH]; simpl; [reflexivity |].
  destruct (ltb y x); [| reflexivity].
  rewrite IH. apply Permutation_swap.
Qed.

Lemma sorted_Permutation (l : list A) : Np.sorted ltb l ≡ₚ l.
Proof.
  induction l as [| x l IH]; simpl; [reflexivity |].
  rewrite place_Permutation. now rewrite IH.
Qed.

Lemma length_sorted (l : list A) : length (Np.sorted ltb l) = length l.
Proof. apply Permutation_length, sorted_Permutation. Qed.

Lemma place_head (x : A) (l : list A) :
  Sorted ordered l -> HdRel ordered x l -> Np.place ltb x l = x :: l.
Proof.
  intros _ Hhd. destruct l as [| y l]; simpl; [reflexivity |].
  inversion Hhd as [| ? ? Hxy]; subst. unfold not_after in Hxy.
  now rewrite Hxy.
Qed.

(** A list that is in order already is returned as it is. *)
Lemma sorted_id (l : list A) : Sorted ordered l -> Np.sorted ltb l = l.
Proof.
  induction 1 as [| x l Hs IH Hhd]; simpl; [reflexivity |].
  rewrite IH. now apply place_head.
Qed.

Hypothesis ltb_asym : forall a b, ltb a b = true -> ltb b a = false.

Lemma place_Sorted (x : A) (l : list A) :
  Sorted ordered l -> Sorted ordered (Np.place ltb x l).
Proof.
  induction 1 as [| y l Hs IH Hhd]; simpl.
  - repeat constructor.
  - destruct (ltb y x) eqn:E.
    + constructor; [exact IH |].
      destruct l as [| z l]; simpl.
      * constructor. now apply ltb_asym.
      * destruct (ltb z x); constructor.
        -- now inversion Hhd.
        -- now apply ltb_asym.
    + constructor; [now constructor | now constructor].
Qed.

Lemma sorted_Sorted (l : list A) : Sorted ordered (Np.sorted ltb l).
Proof.
  induction l as [| x l IH]; simpl; [constructor | now apply place_Sorted].
Qed.

End SortedFacts.

(** * Properties of the gap filler *)

Section ListFacts.
Context {A : Type}.
Implicit Types l : list A.

Lemma length_inserted l (i : nat) (values : list A) :
  length (take i l ++ values ++ drop i l) = (length l + length values)%nat.
Proof. rewrite !length_app, length_take, length_drop. lia. Qed.

End ListFacts.

Section DiffFacts.
Local Open Scope Q_scope.

Lemma length_diff (t : list Q) : length (Np.diff t) = (length t - 1)%nat.
Proof.
  induction t as [| a [| b t] IH]; simpl in *; try reflexivity.
  rewrite IH. lia.
Qed.

Lemma diff_positive (t : list Q) :
  Sorted Qlt t -> Forall (fun d => 0 < d) (Np.diff t).
Proof.
  induction 1 as [| a t Hs IH Hhd]; [constructor |].
  destruct t as [| b t]; simpl; [constructor |].
  constructor; [| exact IH].
  inversion Hhd; subst. now apply (Qlt_minus_iff a b).
Qed.

Lemma nanmedian_positive (l : list Q) :
  l <> [] -> Forall (fun d => 0 < d) l -> 0 < Np.nanmedian l.
Proof.
  intros Hne Hpos. unfold Np.nanmedian.
  assert (Hs : Forall (fun d => 0 < d) (Np.sorted Np.Qltb l)).
  { eapply Permutation_Forall; [| exact Hpos].
    symmetry. apply sorted_Permutation. }
  pose proof (length_sorted Np.Qltb l) as Hlen.
  assert (Hn : (0 < length l)%nat) by (destruct l; simpl; [easy | lia]).
  assert (Hnth : forall i, (i < length l)%nat ->
                           0 < nth i (Np.sorted Np.Qltb l) 0).
  { intros i Hi. rewrite <- Hlen in Hi.
    exact (proj1 (Forall_nth _ 0 _) Hs i Hi). }
  destruct (length l =? 0)%nat eqn:E; [apply Nat.eqb_eq in E; lia |].
  pose proof (Nat.div_lt (length l) 2 Hn ltac:(lia)) as Hhalf.
  destruct (Nat.odd (length l)).
  - now apply Hnth.
  - pose proof (Hnth (length l / 2)%nat Hhalf) as H1.
    pose proof (Hnth (length l / 2 - 1)%nat ltac:(lia)) as H2.
    apply Qlt_shift_div_l; [reflexivity | lra].
Qed.

End DiffFacts.

Section ArangeFacts.
Local Open Scope Q_scope.

Lemma arange_ok (start stop step : Q) :
  0 < step -> Np.arange start stop step = Ok (arange_values start stop step).
Proof.
  intros Hs. unfold Np.arange.
  destruct (Qeq_bool step 0) eqn:E; [| reflexivity].
  apply Qeq_bool_iff in E. rewrite E in Hs. now apply Qlt_irrefl in Hs.
Qed.

End ArangeFacts.

Section GapFillerClaims.
Local Open Scope Q_scope.

Variable nanstd : list Q -> Q.
Variable draws : nat -> Q.

Lemma where_ge_nil (d : list Q) (thr : Q) :
  Forall (fun x => x < thr) d -> Np.where_ge d thr = [].
Proof.
  intros H. unfold Np.where_ge.
  destruct (List.filter _ _) as [| i l] eqn:E; [reflexivity |].
  assert (Hi : In i (i :: l)) by now left.
  rewrite <- E in Hi. apply filter_In in Hi. destruct Hi as [Hi Hle].
  apply in_seq in Hi. apply Qle_bool_iff in Hle.
  pose proof (proj1 (Forall_nth _ 0 _) H i ltac:(lia)) as Hlt. simpl in Hlt.
  exfalso. apply (Qlt_not_le _ _ Hlt Hle).
Qed.

Lemma zip_increasing (t f : list Q) :
  Sorted Qlt t -> Sorted (not_after Np.pair_ltb) (zip t f).
Proof.
  intros Hs. revert f.
  induction Hs as [| a t Hs IH Hhd]; intros [| b f]; simpl; try constructor.
  - apply IH.
  - destruct t as [| a' t], f as [| b' f]; simpl; constructor.
    inversion Hhd; subst. now apply pair_ltb_lt_fst.
Qed.

Lemma unzip_sorted_increasing (t f : list Q) :
  t <> [] -> length t = length f -> Sorted Qlt t ->
  unzip_sorted t f = Ok (t, f).
Proof.
  intros Hne Hlen Hs. unfold unzip_sorted.
  rewrite (sorted_id Np.pair_ltb _ (zip_increasing t f Hs)).
  destruct t as [| a t]; [easy |]. destruct f as [| b f]; [easy |].
  change (zip (a :: t) (b :: f)) with ((a, b) :: zip t f).
  cbv iota. change ((a, b) :: zip t f) with (zip (a :: t) (b :: f)).
  rewrite fst_zip, snd_zip by (simpl in *; lia). reflexivity.
Qed.

Lemma Sorted_fst (ps : list (Q * Q)) :
  Sorted (not_after Np.pair_ltb) ps -> Sorted Qle ps.*1.
Proof.
  induction 1 as [| p ps Hs IH Hhd]; simpl; constructor; [exact IH |].
  destruct Hhd as [| q ps' Hpq]; simpl; constructor.
  now apply pair_ltb_false_fst.
Qed.

End GapFillerClaims.

(** ** What the insertion loop keeps *)

Section SublistFacts.
Context {A B : Type}.

Lemma sublist_inserted (l : list A) (i : nat) (values : list A) :
  sublist l (take i l ++ values ++ drop i l).
Proof.
  rewrite <- (take_drop i l) at 1.
  apply sublist_app; [reflexivity |]. now apply sublist_inserts_l.
Qed.

Lemma zip_inserted (l : list A) (k : list B) (i : nat) (u : list A)
    (v : list B) :
  (i <= length l)%nat -> (i <= length k)%nat -> length u = length v ->
  zip (take i l ++ u ++ drop i l) (take i k ++ v ++ drop i k)
  = take i (zip l k) ++ zip u v ++ drop i (zip l k).
Proof.
  intros Hl Hk Huv.
  rewrite (zip_with_app pair (take i l) _ (take i k) _)
    by (rewrite !length_take; lia).
  rewrite (zip_with_app pair u _ v _) by exact Huv.
  now rewrite zip_with_take, zip_with_drop.
Qed.

End SublistFacts.

Section GapFillerShape.
Local Open Scope Q_scope.

Variable nanstd : list Q -> Q.
Variable draws : nat -> Q.

(** What one turn of the insertion loop does to the arrays, whenever it
    returns. *)
Lemma fill_gap_shape (step avg_noise : Q) (i : nat) (t f e : list Q)
    (k : nat) (st' : gap_state) :
  fill_gap draws step avg_noise i (t, f, e, k) = Ok st' ->
  exists x0 x1 new_time new_flux,
    Py.index t i = Ok x0 /\ Py.index t (i + 1) = Ok x1
    /\ Np.arange x0 x1 step = Ok new_time
    /\ length new_flux = length new_time
    /\ (i <= length t)%nat /\ (i <= length f)%nat /\ (i <= length e)%nat
    /\ st' = (take i t ++ new_time ++ drop i t,
              take i f ++ new_flux ++ drop i f,
              take i e ++ replicate (length new_time) avg_noise ++ drop i e,
              (k + length new_time)%nat).
Proof.
  unfold fill_gap. intros H.
  apply bind_Ok_inv in H. destruct H as (func & Hfunc & H).
  apply bind_Ok_inv in H. destruct H as (t_start & Hstart & H).
  apply bind_Ok_inv in H. destruct H as (t_next & Hnext & H).
  apply bind_Ok_inv in H. destruct H as (new_time & Hnew & H).
  apply bind_Ok_inv in H. destruct H as (values & Hvals & H).
  apply bind_Ok_inv in H. destruct H as ([noise k'] & Hnoise & H).
  apply bind_Ok_inv in H. destruct H as (t' & Ht & H).
  apply bind_Ok_inv in H. destruct H as (f' & Hf & H).
  apply bind_Ok_inv in H. destruct H as (e' & He & H).
  injection H as <-.
  assert (Hlv : length values = length new_time).
  { unfold Np.interp1d in Hfunc.
    destruct (Py.slice t _ _) as [| x0 [| x1 [| ? ?]]]; try discriminate.
    destruct (Py.slice f _ _) as [| y0 [| y1 [| ? ?]]]; try discriminate.
    destruct (if Np.Qltb x1 x0 then _ else _) as [[[xlo ylo] xhi] yhi].
    injection Hfunc as <-.
    destruct (forallb _ new_time); [| discriminate].
    injection Hvals as <-. now rewrite length_map. }
  assert (Hn : length noise = length new_time /\ k' = (k + length new_time)%nat).
  { unfold normal in Hnoise.
    destruct (Np.Qltb avg_noise 0); [discriminate |].
    injection Hnoise as <- <-. now rewrite length_map, length_seq. }
  destruct Hn as [Hln ->].
  unfold Py.insert in Ht, Hf, He.
  destruct (length t <? i)%nat eqn:Et; [discriminate |].
  destruct (length f <? i)%nat eqn:Ef; [discriminate |].
  destruct (length e <? i)%nat eqn:Ee; [discriminate |].
  apply Nat.ltb_ge in Et, Ef, Ee.
  injection Ht as <-. injection Hf as <-. injection He as <-.
  exists t_start, t_next, new_time, (zip_with Qplus values noise).
  split; [exact Hstart |]. split; [exact Hnext |]. split; [exact Hnew |].
  split; [rewrite length_zip_with; lia |].
  repeat split; try lia.
Qed.

Lemma grows_refl (avg_noise : Q) (st : gap_state) : grows avg_noise st st.
Proof.
  destruct st as [[[t f] e] k]. unfold grows.
  repeat split; try reflexivity.
  apply Forall_forall. intros v Hv. now left.
Qed.

Lemma grows_trans (avg_noise : Q) (st1 st2 st3 : gap_state) :
  grows avg_noise st1 st2 -> grows avg_noise st2 st3 ->
  grows avg_noise st1 st3.
Proof.
  destruct st1 as [[[t1 f1] e1] k1], st2 as [[[t2 f2] e2] k2],
           st3 as [[[t3 f3] e3] k3].
  unfold grows.
  intros (Ht & Hz & He & Hv & Hl & Hk) (Ht' & Hz' & He' & Hv' & Hl' & Hk').
  split; [now transitivity t2 |]. split; [now transitivity (zip t2 f2) |].
  split; [now transitivity e2 |]. split; [| lia].
  rewrite Forall_forall in Hv, Hv'. apply Forall_forall. intros v Hin.
  destruct (Hv' v Hin) as [Hin2 | ->]; [| now right]. now apply Hv.
Qed.

Lemma fill_gap_grows (step avg_noise : Q) (i : nat) (st st' : gap_state) :
  fill_gap draws step avg_noise i st = Ok st' -> grows avg_noise st st'.
Proof.
  destruct st as [[[t f] e] k]. intros H.
  apply fill_gap_shape in H.
  destruct H as (x0 & x1 & nt & nf & _ & _ & _ & Hlen & Ht & Hf & He & ->).
  unfold grows.
  split; [apply sublist_inserted |].
  split.
  { rewrite zip_inserted by (try lia; now symmetry).
    apply sublist_inserted. }
  split; [apply sublist_inserted |].
  split.
  - rewrite !Forall_app. repeat split.
    + apply Forall_forall. intros v Hv. left.
      eapply elem_of_sublist; [exact Hv | apply sublist_take].
    + apply Forall_forall. intros v Hv. right.
      now apply elem_of_replicate in Hv.
    + apply Forall_forall. intros v Hv. left.
      eapply elem_of_sublist; [exact Hv | apply sublist_drop].
  - rewrite !length_inserted, length_replicate. lia.
Qed.

Lemma fill_gaps_grows (step avg_noise : Q) (idx : list nat)
    (st st' : gap_state) :
  fill_gaps draws step avg_noise idx st = Ok st' -> grows avg_noise st st'.
Proof.
  revert st. induction idx as [| i idx IH]; intros st H; simpl in H.
  - injection H as <-. apply grows_refl.
  - apply bind_Ok_inv in H. destruct H as (st1 & H1 & H).
    eapply grows_trans; [eapply fill_gap_grows, H1 | now apply IH].
Qed.

Lemma inserted_grows (t f e : list Q) (sg : Q) (k : nat) (st' : gap_state) :
  inserted nanstd draws t f e sg k = Ok st' ->
  grows (nanstd f / 2) (t, f, e, k) st'.
Proof.
  unfold inserted.
  destruct (0 <? length (diff_ind nanstd t sg))%nat.
  - apply fill_gaps_grows.
  - intros [= <-]. apply grows_refl.
Qed.

(** The sort only reorders the pairs the loop left. *)
Lemma unzip_sorted_inv (t f t' f' : list Q) :
  unzip_sorted t f = Ok (t', f') ->
  zip t' f' ≡ₚ zip t f /\ length t' = length f'
  /\ length t' = length (zip t f).
Proof.
  unfold unzip_sorted. intros H.
  pose proof (sorted_Permutation Np.pair_ltb (zip t f)) as Hperm.
  destruct (Np.sorted Np.pair_ltb (zip t f)) as [| p ps]; [discriminate |].
  assert (Hz : zip t' f' = p :: ps)
    by (injection H as <- <-; apply (zip_fst_snd (p :: ps))).
  assert (Hl : length t' = length (p :: ps) /\ length f' = length (p :: ps))
    by (injection H as <- <-; split; apply (length_fmap _ (p :: ps))).
  destruct Hl as [Hlt Hlf]. rewrite Hz.
  split; [exact Hperm |]. split; [congruence |].
  rewrite Hlt. now apply Permutation_length.
Qed.

Lemma fill_gap_lengths (step avg_noise : Q) (i : nat) (t f e : list Q)
    (k : nat) (t' f' e' : list Q) (k' : nat) :
  fill_gap draws step avg_noise i (t, f, e, k) = Ok (t', f', e', k') ->
  length t = length f -> length f = length e ->
  length t' = length f' /\ length f' = length e'.
Proof.
  intros H Htf Hfe. apply fill_gap_shape in H.
  destruct H as (x0 & x1 & nt & nf & _ & _ & _ & Hlen & _ & _ & _ & H).
  injection H as -> -> -> ->.
  rewrite !length_inserted, length_replicate. lia.
Qed.

Lemma fill_gaps_lengths (step avg_noise : Q) (idx : list nat)
    (t f e : list Q) (k : nat) (t' f' e' : list Q) (k' : nat) :
  fill_gaps draws step avg_noise idx (t, f, e, k) = Ok (t', f', e', k') ->
  length t = length f -> length f = length e ->
  length t' = length f' /\ length f' = length e'.
Proof.
  revert t f e k. induction idx as [| i idx IH]; intros t f e k H Htf Hfe.
  - simpl in H. injection H as <- <- <- <-. auto.
  - simpl in H. apply bind_Ok_inv in H.
    destruct H as ([[[t1 f1] e1] k1] & H1 & H).
    destruct (fill_gap_lengths _ _ _ _ _ _ _ _ _ _ _ H1 Htf Hfe) as [Htf1 Hfe1].
    exact (IH _ _ _ _ H Htf1 Hfe1).
Qed.

(** Arrays of one length leave the insertion loop with one length. *)
Lemma inserted_lengths (t f e : list Q) (sg : Q) (k : nat)
    (t' f' e' : list Q) (k' : nat) :
  inserted nanstd draws t f e sg k = Ok (t', f', e', k') ->
  length t = length f -> length f = length e ->
  length t' = length f' /\ length f' = length e'.
Proof.
  unfold inserted.
  destruct (0 <? length (diff_ind nanstd t sg))%nat.
  - apply fill_gaps_lengths.
  - intros [= <- <- <- <-]. auto.
Qed.

Lemma unzip_sorted_Sorted (t f t' f' : list Q) :
  unzip_sorted t f = Ok (t', f') -> Sorted Qle t'.
Proof.
  unfold unzip_sorted. intros H.
  pose proof (sorted_Sorted Np.pair_ltb pair_ltb_asym (zip t f)) as Hs.
  destruct (Np.sorted Np.pair_ltb (zip t f)) as [| p ps]; [discriminate |].
  injection H as <- _. exact (Sorted_fst (p :: ps) Hs).
Qed.

Lemma fill_in_sample_inv (t f e : list Q) (sg : Q) (k : nat)
    (t2 f2 e2 : list Q) (k2 : nat) :
  fill_in_sample nanstd draws t f e sg k = Ok (t2, f2, e2, k2) ->
  exists t1 f1,
    inserted nanstd draws t f e sg k = Ok (t1, f1, e2, k2)
    /\ unzip_sorted t1 f1 = Ok (t2, f2).
Proof.
  unfold fill_in_sample. intros H.
  apply bind_Ok_inv in H. destruct H as ([[[t1 f1] e1] k1] & Hins & H).
  apply bind_Ok_inv in H. destruct H as ([t' f'] & Hun & H).
  injection H as <- <- <- <-. eauto.
Qed.

End GapFillerShape.
(** * The claims about [predict] *)

Section PredictClaims.
Import Windows.
Local Open Scope Q_scope.

(** C1 (as the code has it).  For an even window width [cadences] and a
    gap-filled light curve of at least [cadences] samples, the windowing
    loop of [predict] runs to its end and stores one window per sample
    index, each of length exactly [cadences], in all three branches. *)
Theorem reshaped_data_width (cadences : Z) (lc : list Q) :
  Z.even cadences = true ->
  (0 <= cadences <= Z.of_nat (length lc))%Z ->
  exists rows,
    reshaped_data cadences lc = Ok rows
    /\ length rows = length lc
    /\ forall i : nat, (i < length lc)%nat ->
         exists w, window cadences lc (Z.of_nat i) = Ok w
                   /\ rows !! i = Some w
                   /\ Z.of_nat (length w) = cadences.
Proof.
  intros Hev Hc.
  assert (Hall : forall i : nat, (i < length lc)%nat ->
            exists w, window cadences lc (Z.of_nat i) = Ok w
                      /\ Z.of_nat (length w) = cadences).
  { intros i Hi. apply window_length_even; [exact Hev | exact Hc | lia]. }
  destruct (reshaped_data_rows cadences lc ltac:(lia) Hall)
    as (rows & Hrows & Hlen & Hnth).
  exists rows. split; [exact Hrows |]. split; [exact Hlen |].
  intros i Hi.
  destruct (Hnth i Hi) as (w & Hw & Hrow).
  destruct (Hall i Hi) as (w' & Hw' & Hlen').
  exists w. repeat split; [exact Hw | exact Hrow | congruence].
Qed.

Lemma reshaped_data_width_witness :
  Z.even 4 = true
  /\ (0 <= 4 <= Z.of_nat (length [1; 2; 3; 4; 5; 6]))%Z
  /\ exists rows,
       reshaped_data 4 [1; 2; 3; 4; 5; 6] = Ok rows
       /\ length rows = length [1; 2; 3; 4; 5; 6]
       /\ forall i : nat, (i < length [1; 2; 3; 4; 5; 6])%nat ->
            exists w, window 4 [1; 2; 3; 4; 5; 6] (Z.of_nat i) = Ok w
                      /\ rows !! i = Some w
                      /\ Z.of_nat (length w) = 4%Z.
Proof.
  split; [reflexivity |]. split; [simpl; lia |].
  apply (reshaped_data_width 4 [1; 2; 3; 4; 5; 6]); [reflexivity | simpl; lia].
Defined.

(** C1 fails as stated: with the odd width 3 the window for index 0 of a
    five-sample light curve has two values, and the loop raises when it
    stores it. *)
Lemma window_width_odd_cadences :
  window 3 [10; 11; 12; 13; 14] 0 = Ok [0; 10]
  /\ Z.of_nat (length [0; 10]) <> 3%Z
  /\ reshaped_data 3 [10; 11; 12; 13; 14]
     = Raise (ValueError "could not broadcast input array").
Proof. repeat split. easy. Qed.

(** The same happens with an even width on a light curve that is shorter
    than the window. *)
Example window_width_short_light_curve :
  window 4 [10; 11; 12] 2 = Ok [10; 11; 12]
  /\ reshaped_data 4 [10; 11; 12]
     = Raise (ValueError "could not broadcast input array").
Proof. split; reflexivity. Qed.

(** C6.  For an interior index, one for which neither boundary test of
    the loop holds, the window that the loop stores is exactly the slice
    [lc[i-half : i+half]] of the normalized flux, a run of [cadences]
    successive values of the light curve with no padding.  (With an odd
    width, or a light curve shorter than the width, the loop raises at a
    left-boundary index and stores no interior window.) *)
Theorem interior_window (cadences : Z) (lc : list Q) (rows : list (list Q))
    (i : nat) :
  reshaped_data cadences lc = Ok rows ->
  (2 * Z.of_nat i <=? cadences)%Z = false ->
  (Z.of_nat (length lc) - cadence_pad cadences <=? Z.of_nat i)%Z = false ->
  let half := cadence_pad cadences in
  window cadences lc (Z.of_nat i)
  = Ok (Py.slice lc (Z.of_nat i - half) (Z.of_nat i + half))
  /\ rows !! i = Some (Py.slice lc (Z.of_nat i - half) (Z.of_nat i + half))
  /\ Py.slice lc (Z.of_nat i - half) (Z.of_nat i + half)
     = take (Z.to_nat cadences) (drop (Z.to_nat (Z.of_nat i - half)) lc)
  /\ Z.of_nat (length (Py.slice lc (Z.of_nat i - half) (Z.of_nat i + half)))
     = cadences.
Proof.
  intros Hrows H1 H2 half. apply Z.leb_gt in H1, H2.
  assert (Hne : lc <> []).
  { intros ->. unfold reshaped_data in Hrows.
    destruct (cadences <? 0)%Z eqn:E; [discriminate |].
    simpl in H2. pose proof (cadence_pad_bounds cadences ltac:(lia)). lia. }
  destruct (reshaped_data_Ok_inv cadences lc rows Hrows Hne)
    as [Hc [[Hev Hle] | [-> Hone]]].
  2:{ rewrite Hone in H2. change (cadence_pad 2) with 1%Z in H2. lia. }
  pose proof (cadence_pad_even cadences Hc Hev) as Hhalf. fold half in Hhalf.
  destruct (window_interior cadences lc (Z.of_nat i) Hc H1 H2) as [Hw Hlen].
  fold half in Hw, Hlen.
  destruct (reshaped_data_rows cadences lc Hc) as (rows' & Hrows' & _ & Hnth).
  { intros j Hj. apply window_length_even; [exact Hev | lia | lia]. }
  assert (Hi : (i < length lc)%nat).
  { pose proof (cadence_pad_bounds cadences Hc). fold half in H2. lia. }
  destruct (Hnth i Hi) as (w & Hw' & Hrow).
  assert (rows' = rows) by congruence. subst rows'.
  split; [exact Hw |].
  split; [congruence |].
  split; [| lia].
  rewrite slice_inside by (fold half in H2; lia).
  f_equal. lia.
Qed.

Lemma interior_window_witness :
  reshaped_data 4 [1; 2; 3; 4; 5; 6; 7; 8] = Ok eight_rows
  /\ (2 * Z.of_nat 3 <=? 4)%Z = false
  /\ (Z.of_nat (length [1; 2; 3; 4; 5; 6; 7; 8]) - cadence_pad 4
      <=? Z.of_nat 3)%Z = false
  /\ eight_rows !! 3%nat = Some [2; 3; 4; 5].
Proof.
  assert (H : reshaped_data 4 [1; 2; 3; 4; 5; 6; 7; 8] = Ok eight_rows)
    by reflexivity.
  split; [exact H |]. split; [reflexivity |]. split; [reflexivity |].
  exact (proj1 (proj2 (interior_window 4 [1; 2; 3; 4; 5; 6; 7; 8] eight_rows 3
                         H eq_refl eq_refl))).
Defined.

End PredictClaims.

Section PredictEndToEnd.
Local Open Scope Q_scope.

Variable nanstd : list Q -> Q.
Variable draws : nat -> Q.
Variable model_predict : list (list Q) -> result (list Q).


End PredictEndToEnd.

Section PredictEndToEndExamples.
Local Open Scope Q_scope.



End PredictEndToEndExamples.
(** * The claims about [fill_in_sample] *)

Section FillInSampleClaims.
Local Open Scope Q_scope.

Variable nanstd : list Q -> Q.
Variable draws : nat -> Q.

(** C4 (as the code has it).  For every non-empty light curve with time
    and flux of one length and strictly increasing time in which no
    successive time difference reaches
    [median(diff) + sigma*std(diff)], [fill_in_sample] returns the time,
    flux and error values it was given, and draws no random number. *)
Theorem fill_in_sample_no_gaps (t f e : list Q) (sg : Q) (k : nat) :
  t <> [] ->
  length t = length f ->
  Sorted Qlt t ->
  Forall (fun d => d < Np.nanmedian (Np.diff t) + sg * nanstd (Np.diff t))
         (Np.diff t) ->
  fill_in_sample nanstd draws t f e sg k = Ok (t, f, e, k).
Proof.
  intros Hne Hlen Hsorted Hsmall.
  unfold fill_in_sample, inserted, diff_ind.
  rewrite (where_ge_nil _ _ Hsmall). simpl.
  now rewrite (unzip_sorted_increasing t f Hne Hlen Hsorted).
Qed.

(** C4 fails as stated on the empty light curve: nothing is flagged, and
    unpacking the sorted pairs raises. *)
Lemma fill_in_sample_empty_raises :
  Sorted Qlt []
  /\ Forall (fun d => d < Np.nanmedian (Np.diff []) + sigma * 0) (Np.diff [])
  /\ fill_in_sample (fun _ => 0) (fun _ => 0) [] [] [] sigma 0
     = Raise (ValueError "not enough values to unpack (expected 2, got 0)").
Proof. repeat split; constructor. Qed.

(** C5.  Whenever [fill_in_sample] returns on arrays of one length, and
    so on every such light curve with an abnormal gap on which it
    returns: the returned times are in nondecreasing order; the returned
    (time, flux) pairs are a permutation of the pairs the insertion loop
    left, so the flux has followed the times; the returned errors are
    the array the insertion loop left, in that order, which the sort has
    not touched; and the three returned arrays have one length. *)
Theorem fill_in_sample_sorted (t f e : list Q) (sg : Q) (k : nat)
    (t2 f2 e2 : list Q) (k2 : nat) :
  length t = length f ->
  length f = length e ->
  fill_in_sample nanstd draws t f e sg k = Ok (t2, f2, e2, k2) ->
  exists t1 f1,
    inserted nanstd draws t f e sg k = Ok (t1, f1, e2, k2)
    /\ Sorted Qle t2
    /\ zip t2 f2 ≡ₚ zip t1 f1
    /\ length t2 = length f2
    /\ length f2 = length e2.
Proof.
  intros Htf Hfe H. apply fill_in_sample_inv in H.
  destruct H as (t1 & f1 & Hins & Hun).
  exists t1, f1. split; [exact Hins |].
  split; [exact (unzip_sorted_Sorted _ _ _ _ Hun) |].
  destruct (inserted_lengths _ _ _ _ _ _ _ _ _ _ _ Hins Htf Hfe)
    as [Htf1 Hfe1].
  apply unzip_sorted_inv in Hun. destruct Hun as (Hperm & Hlen2 & Hlen1).
  split; [exact Hperm |]. split; [exact Hlen2 |].
  rewrite length_zip in Hlen1. lia.
Qed.

End FillInSampleClaims.

Section FillInSampleWitnesses.
Local Open Scope Q_scope.

Lemma fill_in_sample_no_gaps_witness :
  [0; 1; 2; 3] <> []
  /\ length [0; 1; 2; 3] = length [5; 6; 5; 6]
  /\ Sorted Qlt [0; 1; 2; 3]
  /\ Forall (fun d => d < Np.nanmedian (Np.diff [0; 1; 2; 3])
                          + sigma * (fun _ => 1) (Np.diff [0; 1; 2; 3]))
            (Np.diff [0; 1; 2; 3])
  /\ fill_in_sample (fun _ => 1) (fun _ => 0)
       [0; 1; 2; 3] [5; 6; 5; 6] [1; 1; 1; 1] sigma 0
     = Ok ([0; 1; 2; 3], [5; 6; 5; 6], [1; 1; 1; 1], 0%nat).
Proof.
  assert (H1 : [0; 1; 2; 3] <> []) by discriminate.
  assert (H2 : Sorted Qlt [0; 1; 2; 3]) by (repeat constructor).
  assert (H3 : Forall (fun d => d < Np.nanmedian (Np.diff [0; 1; 2; 3])
                          + sigma * (fun _ => 1) (Np.diff [0; 1; 2; 3]))
            (Np.diff [0; 1; 2; 3])) by (repeat constructor).
  split; [exact H1 |]. split; [reflexivity |]. split; [exact H2 |].
  split; [exact H3 |].
  exact (fill_in_sample_no_gaps (fun _ => 1) (fun _ => 0)
           [0; 1; 2; 3] [5; 6; 5; 6] [1; 1; 1; 1] sigma 0 H1 eq_refl H2 H3).
Defined.

Lemma fill_in_sample_sorted_witness :
  exact_std (Np.diff gap_time) * exact_std (Np.diff gap_time)
  == variance (Np.diff gap_time)
  /\ exact_std gap_flux * exact_std gap_flux == variance gap_flux
  /\ diff_ind exact_std gap_time sigma = [4%nat]
  /\ fill_in_sample exact_std (fun _ => 0) gap_time gap_flux gap_err sigma 0
     = Ok (gap_filled.1.1.1, gap_filled.1.1.2, gap_filled.1.2, gap_filled.2)
  /\ exists t1 f1,
       inserted exact_std (fun _ => 0) gap_time gap_flux gap_err sigma 0
       = Ok (t1, f1, gap_filled.1.2, gap_filled.2)
       /\ Sorted Qle gap_filled.1.1.1
       /\ zip gap_filled.1.1.1 gap_filled.1.1.2 ≡ₚ zip t1 f1
       /\ length gap_filled.1.1.1 = length gap_filled.1.1.2
       /\ length gap_filled.1.1.2 = length gap_filled.1.2.
Proof.
  assert (H : fill_in_sample exact_std (fun _ => 0) gap_time gap_flux
                gap_err sigma 0
              = Ok (gap_filled.1.1.1, gap_filled.1.1.2, gap_filled.1.2,
                    gap_filled.2)) by (vm_compute; reflexivity).
  split; [reflexivity |]. split; [reflexivity |]. split; [reflexivity |].
  split; [exact H |].
  exact (fill_in_sample_sorted exact_std (fun _ => 0) gap_time gap_flux
           gap_err sigma 0 _ _ _ _ eq_refl eq_refl H).
Defined.

End FillInSampleWitnesses.

(** * The claims about [ensemble_metrics] and [fetch_dir] *)

Section MonadFacts.
Context {S : Type}.

Lemma bind_lift {A B : Type} (r : result A) (k : A -> M S B) (s : S) :
  (lift r ≫= k) s = match r with
                    | Ok a => k a s
                    | Raise e => (Raise e, s)
                    end.
Proof. destruct r; reflexivity. Qed.

Lemma bind_modify {B : Type} (f : S -> S) (k : unit -> M S B) (s : S) :
  (modify f ≫= k) s = k tt (f s).
Proof. reflexivity. Qed.

Lemma bind_get {B : Type} (k : S -> M S B) (s : S) :
  (get ≫= k) s = k s s.
Proof. reflexivity. Qed.

Lemma bind_raise {A B : Type} (m : M S A) (k : A -> M S B) (s s' : S) (e : exn) :
  m s = (Raise e, s') -> (m ≫= k) s = (Raise e, s').
Proof. intros H. unfold mbind, M_bind. now rewrite H. Qed.

Lemma bind_ok {A B : Type} (m : M S A) (k : A -> M S B) (s s' : S) (a : A) :
  m s = (Ok a, s') -> (m ≫= k) s = k a s'.
Proof. intros H. unfold mbind, M_bind. now rewrite H. Qed.

End MonadFacts.

Section EnsembleMetricsClaims.

Variable average_precision_score : list cell -> list cell -> result Q.
Variable sklearn_recall_score : list cell -> list cell -> result Q.
Variable sklearn_precision_score : list cell -> list cell -> result Q.
Variable precision_recall_curve :
  list cell -> list cell -> result (list cell * list cell * list cell).

Abbreviation score_one := (score_column average_precision_score).
Abbreviation run_metrics :=
  (ensemble_metrics average_precision_score sklearn_recall_score
     sklearn_precision_score precision_recall_curve).

(** The first turn of the per-column loop never completes. *)
Lemma score_column_raises (df : table) (val : string)
    (acc : list cell * list cell) (self : ConvNN) :
  exists e, score_one df val acc self = (Raise e, self)
    /\ (forall gt col score,
          Table.getitem df "gt" = Ok gt ->
          Table.getitem df val = Ok col ->
          average_precision_score (data gt) (data col) = Ok score ->
          e = NameError "threshold").
Proof.
  destruct acc as [ap ac]. unfold score_column.
  rewrite bind_lift.
  destruct (Table.getitem df "gt") as [gt | e1] eqn:Hgt.
  2:{ exists e1. split; [reflexivity | intros; discriminate]. }
  rewrite bind_lift.
  destruct (Table.getitem df val) as [col | e2] eqn:Hcol.
  2:{ exists e2. split; [reflexivity | intros; discriminate]. }
  rewrite bind_lift.
  destruct (average_precision_score (data gt) (data col)) as [sc | e3] eqn:Hs.
  2:{ exists e3. split; [reflexivity |].
      intros gt' col' sc' [= <-] [= <-] H. congruence. }
  exists (NameError "threshold"). split; [reflexivity | auto].
Qed.

(** C3.  For every table, [ensemble_metrics] raises and leaves every
    attribute of the object as it was, so none of [average_precision],
    [accuracy], [recall_score], [precision_score], [prec_recall_curve] is
    set.  When the table has a column after index 4 and the loop gets to
    the test against [threshold], the exception is the [NameError] for
    that unbound name; when it has none and the scikit-learn calls
    return, it is the [IndexError] of [ap[-1]] on the empty list. *)
Theorem ensemble_metrics_raises (df : table) (self : ConvNN) :
  exists e,
    run_metrics df self = (Raise e, self)
    /\ (forall val rest gt col score,
          drop 4 (Table.colnames df) = val :: rest ->
          Table.getitem df "gt" = Ok gt ->
          Table.getitem df val = Ok col ->
          average_precision_score (data gt) (data col) = Ok score ->
          e = NameError "threshold")
    /\ (forall gt pred_round pred rs ps curve,
          drop 4 (Table.colnames df) = [] ->
          Table.getitem df "gt" = Ok gt ->
          Table.getitem df "pred_round" = Ok pred_round ->
          Table.getitem df "pred" = Ok pred ->
          sklearn_recall_score (data gt) (data pred_round) = Ok rs ->
          sklearn_precision_score (data gt) (data pred_round) = Ok ps ->
          precision_recall_curve (data gt) (data pred) = Ok curve ->
          e = IndexError).
Proof.
  unfold ensemble_metrics.
  destruct (drop 4 (Table.colnames df)) as [| val rest] eqn:Hcols.
  - cbn [for_each].
    change (mret ([], []) ≫= ?k) with (k ([] : list cell, [] : list cell)).
    cbv beta iota.
    rewrite bind_lift.
    destruct (Table.getitem df "gt") as [gt | e1] eqn:Hgt.
    2:{ exists e1. repeat split; intros; discriminate. }
    rewrite bind_lift.
    destruct (Table.getitem df "pred_round") as [pr | e2] eqn:Hpr.
    2:{ exists e2. repeat split; intros; discriminate. }
    rewrite bind_lift.
    destruct (sklearn_recall_score (data gt) (data pr)) as [rs | e3] eqn:Hrs.
    2:{ exists e3. repeat split; [intros; discriminate |].
        intros ? ? ? ? ? ? _ [= <-] [= <-] _ H. congruence. }
    rewrite !bind_lift.
    destruct (sklearn_precision_score (data gt) (data pr)) as [ps | e4] eqn:Hps.
    2:{ exists e4. repeat split; [intros; discriminate |].
        intros ? ? ? ? ? ? _ [= <-] [= <-] _ _ H. congruence. }
    rewrite !bind_lift.
    destruct (Table.getitem df "pred") as [pred | e5] eqn:Hpred.
    2:{ exists e5. repeat split; intros; discriminate. }
    rewrite bind_lift.
    destruct (precision_recall_curve (data gt) (data pred))
      as [[[prec_curve rec_curve] thresholds] | e6] eqn:Hcurve.
    2:{ exists e6. repeat split; [intros; discriminate |].
        intros ? ? ? ? ? ? _ [= <-] _ [= <-] _ _ H. congruence. }
    exists IndexError. repeat split; intros; discriminate.
  - cbn [for_each].
    destruct (score_column_raises df val ([], []) self) as (e & He & Hname).
    exists e. split.
    + apply bind_raise. now apply bind_raise.
    + split.
      * intros val' rest' gt col score [= <- <-]. apply Hname.
      * intros; discriminate.
Qed.

End EnsembleMetricsClaims.
Section FetchDirClaims.

(** When [~/.stella] exists it becomes the output directory. *)
Lemma fetch_dir_existing (self : ConvNN) (os : os_state) :
  Str.path_join (home os) ".stella" ∈ dirs os ->
  fetch_dir (self, os)
  = (Ok tt, (set_output_dir (Str.path_join (home os) ".stella") self, os)).
Proof.
  intros Hin. unfold fetch_dir. rewrite bind_get.
  unfold isdir, mbind, M_bind, get, mret, M_ret, modify. cbn [fst snd].
  now rewrite (bool_decide_eq_true_2 _ Hin).
Qed.

(** C10, on the code.  When [~/.stella] does not exist and [os.mkdir]
    raises [OSError], the handler of [fetch_dir] does not get as far as a
    fallback: its use of [warnings], a module that [neural_network.py]
    never imports, raises [NameError], and [output_dir] is not set. *)
Theorem fetch_dir_uncreatable (self : ConvNN) (os : os_state) :
  Str.path_join (home os) ".stella" ∉ dirs os ->
  mkdir_allowed os (Str.path_join (home os) ".stella") = false ->
  fetch_dir (self, os) = (Raise (NameError "warnings"), (self, os))
  /\ init_output_dir None (self, os)
     = (Raise (NameError "warnings"), (self, os)).
Proof.
  intros Hnotin Hdenied.
  assert (H : fetch_dir (self, os)
              = (Raise (NameError "warnings"), (self, os))).
  { unfold fetch_dir. rewrite bind_get.
    unfold isdir, mbind, M_bind, get, mret, M_ret, modify,
      try_except_OSError, mkdir.
    cbn [fst snd]. rewrite !(bool_decide_eq_false_2 _ Hnotin).
    cbn [fst snd]. rewrite Hdenied. reflexivity. }
  split; [exact H | exact H].
Qed.

End FetchDirClaims.

Lemma fetch_dir_uncreatable_witness :
  (Str.path_join (home read_only_home) ".stella" ∉ dirs read_only_home)
  /\ mkdir_allowed read_only_home
       (Str.path_join (home read_only_home) ".stella") = false
  /\ fetch_dir (no_attributes, read_only_home)
     = (Raise (NameError "warnings"), (no_attributes, read_only_home)).
Proof.
  assert (H1 : Str.path_join (home read_only_home) ".stella"
               ∉ dirs read_only_home).
  { change (dirs read_only_home) with ({["/home/user"]} : gset string).
    apply not_elem_of_singleton. intros H. vm_compute in H. discriminate. }
  split; [exact H1 |]. split; [reflexivity |].
  exact (proj1 (fetch_dir_uncreatable no_attributes read_only_home H1 eq_refl)).
Defined.

(** * Properties of the table operations *)

Section TableFacts.

Lemma getitem_Ok (tb : table) (name : string) (c : column) :
  Table.getitem tb name = Ok c -> c ∈ tb /\ colname c = name.
Proof.
  unfold Table.getitem.
  destruct (List.find _ tb) as [c' |] eqn:E; [| discriminate].
  intros [= <-]. apply find_some in E. destruct E as [Hin Heq].
  split; [now apply list_elem_of_In | now apply String.eqb_eq].
Qed.

Lemma getitem_missing (tb : table) (name : string) :
  name ∉ Table.colnames tb -> Table.getitem tb name = Raise (KeyError name).
Proof.
  intros Hnot. unfold Table.getitem.
  destruct (List.find _ tb) as [c |] eqn:E; [| reflexivity].
  apply find_some in E. destruct E as [Hin Heq].
  apply String.eqb_eq in Heq. exfalso. apply Hnot.
  unfold Table.colnames. rewrite <- Heq.
  apply list_elem_of_fmap_2. now apply list_elem_of_In.
Qed.

Lemma getitem_head (c : column) (tb : table) :
  Table.getitem (c :: tb) (colname c) = Ok c.
Proof. unfold Table.getitem. simpl. now rewrite String.eqb_refl. Qed.

Lemma add_column_Ok (tb : table) (col : column) (index : option nat)
    (tb' : table) :
  Table.add_column tb col index = Ok tb' ->
  tb' = match index with
        | None => tb ++ [col]
        | Some i => take i tb ++ col :: drop i tb
        end
  /\ (colname col ∉ Table.colnames tb)
  /\ (tb = [] \/ length (data col) = Table.len tb).
Proof.
  unfold Table.add_column. case_bool_decide as Hdup; [discriminate |].
  destruct (negb (bool_decide (tb = [])) && _) eqn:E.
  - discriminate.
  - intros H. split; [destruct index; congruence |]. split; [exact Hdup |].
    apply andb_false_iff in E. destruct E as [E | E].
    + left. apply negb_false_iff in E. now apply bool_decide_eq_true in E.
    + right. apply negb_false_iff in E. now apply Nat.eqb_eq in E.
Qed.

Lemma getitem_not_insufficient (tb : table) (name : string) :
  raises_only not_insufficient (Table.getitem tb name).
Proof.
  unfold Table.getitem. destruct (List.find _ tb).
  - apply raises_only_ok.
  - apply raises_only_raise. discriminate.
Qed.

Lemma add_column_not_insufficient (tb : table) (col : column)
    (index : option nat) :
  raises_only not_insufficient (Table.add_column tb col index).
Proof.
  unfold Table.add_column. case_bool_decide.
  - apply raises_only_raise. discriminate.
  - destruct (negb _ && _).
    + apply raises_only_raise. discriminate.
    + destruct index; apply raises_only_ok.
Qed.

Lemma read_table_not_insufficient (dir : directory) (name : string) :
  raises_only not_insufficient (read_table dir name).
Proof.
  unfold read_table. destruct (dir !! name) as [[tb | s |] |];
    first [apply raises_only_ok | apply raises_only_raise; discriminate].
Qed.

Lemma nanmean_axis0_not_insufficient (mean_arr : list (list cell)) :
  raises_only not_insufficient (Stats.nanmean_axis0 mean_arr).
Proof.
  unfold Stats.nanmean_axis0. destruct mean_arr as [| a rest].
  - apply raises_only_ok.
  - destruct (forallb _ _).
    + apply raises_only_ok.
    + apply raises_only_raise. discriminate.
Qed.

Lemma read_files_not_insufficient (dir : directory) (out : string)
    (files : list string) (acc : read_state) :
  raises_only not_insufficient (read_files dir out files acc).
Proof.
  revert acc. induction files as [| name rest IH]; intros [[df ma] r]; simpl.
  - apply raises_only_ok.
  - apply raises_only_bind; [apply read_table_not_insufficient |].
    intros tb _. apply raises_only_bind; [apply getitem_not_insufficient |].
    intros c _. apply raises_only_bind; [apply add_column_not_insufficient |].
    intros df' _. apply IH.
Qed.

End TableFacts.

Section CreateDfClaims.

(** C8.  In the default ['metrics'] mode, once the prediction files have
    been looked up, [create_df] raises the insufficient-models error
    ([ValueError], "Can only calculate metrics for multiple models.")
    when fewer than 2 files were found, and whatever it does with 2 or
    more, it does not end in that error. *)
Theorem create_df_insufficient_models (self : ConvNN) (dir : directory)
    (threshold : cell) (data_set : string) (files : list string)
    (out : string) :
  find_files self dir data_set = Ok (files, out) ->
  ((length files < 2)%nat ->
   create_df self dir threshold "metrics" data_set = Raise insufficient_models)
  /\ ((2 <= length files)%nat ->
      create_df self dir threshold "metrics" data_set
      <> Raise insufficient_models).
Proof.
  intros Hfiles. unfold create_df. rewrite Hfiles. simpl. split.
  - intros Hlt. apply Nat.ltb_lt in Hlt. now rewrite Hlt.
  - intros Hge. apply Nat.ltb_ge in Hge. rewrite Hge.
    intros Hraise. revert Hraise.
    match goal with
    | |- ?m = _ -> False =>
        assert (Hro : raises_only not_insufficient m);
        [| intros Hr; exact (Hro _ Hr eq_refl)]
    end.
    apply raises_only_bind; [apply read_files_not_insufficient |].
    intros [[df ma] r] _.
    apply raises_only_bind; [apply nanmean_axis0_not_insufficient |].
    intros pred _.
    apply raises_only_bind; [apply add_column_not_insufficient |].
    intros df1 _.
    apply raises_only_bind.
    { destruct r; [apply raises_only_ok | apply raises_only_raise; discriminate]. }
    intros r' _.
    apply raises_only_bind; [apply getitem_not_insufficient |]. intros gt _.
    apply raises_only_bind; [apply add_column_not_insufficient |]. intros df2 _.
    apply raises_only_bind; [apply getitem_not_insufficient |]. intros tp _.
    apply raises_only_bind; [apply add_column_not_insufficient |]. intros df3 _.
    apply raises_only_bind; [apply getitem_not_insufficient |]. intros tic _.
    apply raises_only_bind; [apply add_column_not_insufficient |]. intros df4 _.
    apply raises_only_bind; [apply getitem_not_insufficient |]. intros p _.
    apply raises_only_bind; [apply add_column_not_insufficient |]. intros df5 _.
    apply raises_only_ok.
Qed.

End CreateDfClaims.

Section CreateDfFacts.
Local Open Scope Q_scope.

Lemma ge_lt_exclusive (x y : cell) : Stats.lt x y = negb (Stats.ge x y) \/
                                     (Stats.lt x y = false /\ Stats.ge x y = false).
Proof.
  destruct x as [a |], y as [b |]; simpl; auto.
Qed.

(** The two masked assignments of [create_df] give 1 where the mean
    reaches the threshold and 0 elsewhere. *)
Lemma pred_round_label (pred : list cell) (threshold : cell) :
  Stats.pred_round pred threshold (length pred) = map (label threshold) pred.
Proof.
  unfold Stats.pred_round, Stats.mask_assign.
  induction pred as [| p pred IH]; [reflexivity |].
  simpl. rewrite IH. f_equal. unfold label.
  destruct (ge_lt_exclusive p threshold) as [H | [H1 H2]].
  - rewrite H. now destruct (Stats.ge p threshold).
  - now rewrite H1, H2.
Qed.

Lemma label_one_iff (threshold m : cell) :
  label threshold m = Some 1 <->
  exists a b, m = Some a /\ threshold = Some b /\ b <= a.
Proof.
  unfold label. split.
  - destruct m as [a |], threshold as [b |]; simpl; try discriminate.
    destruct (Qle_bool b a) eqn:E; [| discriminate].
    intros _. exists a, b. repeat split. now apply Qle_bool_iff.
  - intros (a & b & -> & -> & Hle). simpl.
    now rewrite (proj2 (Qle_bool_iff b a) Hle).
Qed.

Lemma nanmean_axis0_Ok (first : list cell) (rest : list (list cell))
    (means : list cell) :
  Stats.nanmean_axis0 (first :: rest) = Ok means ->
  means = map (fun i => Stats.nanmean (map (fun a => nth i a None)
                                           (first :: rest)))
              (seq 0 (length first)).
Proof.
  unfold Stats.nanmean_axis0. destruct (forallb _ _); [| discriminate].
  now intros [= <-].
Qed.

(** What the reading loop leaves when it runs to its end. *)
Lemma read_files_Ok (dir : directory) (out : string) (files : list string)
    (df : table) (ma : list (list cell)) (r : option table)
    (df' : table) (ma' : list (list cell)) (r' : option table) :
  read_files dir out files (df, ma, r) = Ok (df', ma', r') ->
  exists preds,
    Forall2 (reads dir) files preds
    /\ df' = df ++ zip_with (seed_column out) files preds
    /\ ma' = ma ++ map Stats.round3 preds
    /\ (files = [] -> r' = r)
    /\ (files <> [] -> is_Some r').
Proof.
  revert df ma r. induction files as [| name rest IH]; intros df ma r; simpl.
  - intros [= <- <- <-]. exists []. rewrite !app_nil_r.
    repeat split; [constructor | easy].
  - intros H.
    apply bind_Ok_inv in H. destruct H as (tb & Htb & H).
    apply bind_Ok_inv in H. destruct H as (c & Hc & H).
    apply bind_Ok_inv in H. destruct H as (df1 & Hdf1 & H).
    apply add_column_Ok in Hdf1. destruct Hdf1 as (-> & _ & _).
    apply IH in H. destruct H as (preds & Hreads & -> & -> & Hnil & Hsome).
    exists (data c :: preds). split.
    { constructor; [| exact Hreads]. now exists tb, c. }
    split; [now rewrite <- app_assoc |].
    split; [now rewrite <- app_assoc |].
    split; [discriminate |].
    intros _. destruct rest as [| name' rest'].
    + rewrite Hnil by reflexivity. now eexists.
    + now apply Hsome.
Qed.

Lemma find_seed_columns (out : string) (files : list string)
    (preds : list (list cell)) (tb : table) :
  List.find (fun c => String.eqb (colname c) "pred")
            (zip_with (seed_column out) files preds ++ tb)
  = List.find (fun c => String.eqb (colname c) "pred") tb.
Proof.
  revert preds. induction files as [| name rest IH]; intros [| p preds];
    simpl; try reflexivity.
  apply IH.
Qed.

Lemma len_app_nonempty (tb tb' : table) :
  tb <> [] -> Table.len (tb ++ tb') = Table.len tb.
Proof. destruct tb; [easy | reflexivity]. Qed.

End CreateDfFacts.

Section AggregateClaims.
Local Open Scope Q_scope.

(** [np.round(x, 3)] gives a multiple of 1/1000 within half of 1/1000. *)
Lemma round_to_3_spec (q : Q) :
  exists k : Z,
    Stats.round_to 3 (Some q) = Some (inject_Z k / inject_Z 1000)
    /\ Qabs (q * inject_Z 1000 - inject_Z k) <= 1 # 2.
Proof.
  unfold Stats.round_to. change (inject_Z (10 ^ Z.of_nat 3)) with (inject_Z 1000).
  simpl option_map. set (x := q * inject_Z 1000).
  exists (Stats.rint x). split; [reflexivity |].
  unfold Stats.rint.
  pose proof (Qfloor_le x) as Hlo. pose proof (Qlt_floor x) as Hhi.
  rewrite inject_Z_plus in Hhi. change (inject_Z 1) with 1 in Hhi.
  set (fl := Qfloor x) in *.
  destruct (Np.Qltb (x - inject_Z fl) (1 # 2)) eqn:E1.
  - apply Qltb_lt in E1. apply Qabs_Qle_condition. split; lra.
  - apply Qltb_ge in E1.
    assert (Hup : Qabs (x - inject_Z (fl + 1)) <= 1 # 2).
    { rewrite inject_Z_plus. change (inject_Z 1) with 1.
      apply Qabs_Qle_condition. split; lra. }
    destruct (Np.Qltb (1 # 2) (x - inject_Z fl)) eqn:E2; [exact Hup |].
    apply Qltb_ge in E2.
    destruct (Z.even fl); [| exact Hup].
    apply Qabs_Qle_condition. split; lra.
Qed.

(** C2.  When [create_df] returns a table, the table is: the thresholded
    labels, the ids, peak times and ground truth of the file read last,
    one column per prediction file holding that file's ['pred'] values
    rounded to 3 decimal places, and the column of their row-wise
    NaN-ignoring means; a label is 1 exactly where the mean is not NaN and
    reaches the threshold, and 0 elsewhere.  Rounding gives a multiple of
    1/1000 within half of 1/1000 of the value; the row [0.2, 0.4, NaN]
    has mean 0.3; a mean of 0.5 against the threshold 0.5 is labelled
    1. *)
Theorem create_df_aggregate :
  (forall (self : ConvNN) (dir : directory) (threshold : cell)
          (mode data_set : string) (df : table),
     create_df self dir threshold mode data_set = Ok df ->
     exists files out preds means tic peak gt,
       find_files self dir data_set = Ok (files, out)
       /\ Forall2 (reads dir) files preds
       /\ df = [Column "pred_round" (map (label threshold) means);
                Column "tic" tic; Column "peak" peak; Column "gt" gt]
               ++ zip_with (seed_column out) files preds
               ++ [Column "pred" means]
       /\ means = map (fun i => Stats.nanmean
                                  (map (fun p => nth i (Stats.round3 p) None)
                                       preds))
                      (seq 0 (length means)))
  /\ (forall threshold m,
        label threshold m = Some 1 <->
        exists a b, m = Some a /\ threshold = Some b /\ b <= a)
  /\ (forall q, exists k : Z,
        Stats.round_to 3 (Some q) = Some (inject_Z k / inject_Z 1000)
        /\ Qabs (q * inject_Z 1000 - inject_Z k) <= 1 # 2)
  /\ (exists m, Stats.nanmean [Some (2 # 10); Some (4 # 10); None] = Some m
                /\ m == 3 # 10)
  /\ label (Some (1 # 2)) (Some (1 # 2)) = Some 1.
Proof.
  split; [| split; [exact label_one_iff | split; [exact round_to_3_spec |]]].
  2:{ split; [| reflexivity]. eexists. split; reflexivity. }
  intros self dir threshold mode data_set df. unfold create_df. intros H.
  apply bind_Ok_inv in H. destruct H as ([files out] & Hfiles & H).
  destruct (String.eqb mode "metrics" && (length files <? 2)%nat);
    [discriminate |].
  apply bind_Ok_inv in H. destruct H as ([[df0 ma] r] & Hread & H).
  apply bind_Ok_inv in H. destruct H as (means & Hmeans & H).
  apply bind_Ok_inv in H. destruct H as (df1 & Hdf1 & H).
  apply bind_Ok_inv in H. destruct H as (r' & Hr & H).
  apply bind_Ok_inv in H. destruct H as (gt & _ & H).
  apply bind_Ok_inv in H. destruct H as (df2 & Hdf2 & H).
  apply bind_Ok_inv in H. destruct H as (tpeak & _ & H).
  apply bind_Ok_inv in H. destruct H as (df3 & Hdf3 & H).
  apply bind_Ok_inv in H. destruct H as (tic & _ & H).
  apply bind_Ok_inv in H. destruct H as (df4 & Hdf4 & H).
  apply bind_Ok_inv in H. destruct H as (p & Hp & H).
  apply bind_Ok_inv in H. destruct H as (df5 & Hdf5 & H).
  injection H as <-.
  apply read_files_Ok in Hread.
  destruct Hread as (preds & Hreads & -> & -> & Hnil & Hsome).
  simpl in *.
  (* the loop ran at least once, or [r] would be unbound *)
  assert (Hne : files <> []).
  { intros ->. rewrite Hnil in Hr by reflexivity. discriminate. }
  destruct files as [| name files]; [easy |].
  inversion Hreads as [| ? p1 ? preds' Hr1 Hrest]; subst. clear Hnil Hsome Hne.
  simpl in Hmeans. apply nanmean_axis0_Ok in Hmeans.
  assert (Hlen : length means = length p1).
  { rewrite Hmeans, length_map, length_seq. unfold Stats.round3.
    now rewrite length_map. }
  apply add_column_Ok in Hdf1. destruct Hdf1 as (-> & _ & _).
  apply add_column_Ok in Hdf2. destruct Hdf2 as (-> & _ & [Hgt | Hgt]);
    [discriminate |].
  apply add_column_Ok in Hdf3. destruct Hdf3 as (-> & _ & [Hpk | Hpk]);
    [discriminate |].
  apply add_column_Ok in Hdf4. destruct Hdf4 as (-> & _ & [Htic | Htic]);
    [discriminate |].
  apply add_column_Ok in Hdf5. destruct Hdf5 as (-> & _ & _).
  simpl in *.
  (* the column named "pred" is the column of means *)
  assert (Hpcol : p = Column "pred" means).
  { unfold Table.getitem in Hp. simpl in Hp.
    rewrite find_seed_columns in Hp. simpl in Hp. congruence. }
  subst p. simpl.
  assert (Hrows : length (data tic) = length means).
  { unfold Stats.round3 in *. rewrite length_map in Hgt. lia. }
  rewrite Hrows, pred_round_label.
  exists (name :: files), out, (p1 :: preds'), means,
         (data tic), (data tpeak), (data gt).
  split; [exact Hfiles |]. split; [exact Hreads |]. split; [reflexivity |].
  rewrite Hlen. rewrite Hmeans at 1.
  replace (length (Stats.round3 p1)) with (length p1)
    by (unfold Stats.round3; now rewrite length_map).
  apply map_ext. intros i. f_equal. simpl. f_equal. now rewrite map_map.
Qed.

End AggregateClaims.

(** * Properties of formats and glob patterns *)

Section StrFacts.

Lemma chars_app (a b : string) :
  Str.chars (a +:+ b) = Str.chars a ++ Str.chars b.
Proof.
  unfold Str.chars. induction a as [| c a IH]; simpl; [reflexivity |].
  now rewrite IH.
Qed.

Lemma chars_of_list (l : list ascii) :
  Str.chars (String.string_of_list_ascii l) = l.
Proof. apply String.list_ascii_of_string_of_list_ascii. Qed.

Lemma plain_app (a b : string) :
  Str.plain (a +:+ b) = Str.plain a && Str.plain b.
Proof. unfold Str.plain. now rewrite chars_app, forallb_app. Qed.

Lemma pretty_N_char_plain (x : N) :
  Str.plain_char (pretty_N_char x) = true.
Proof. unfold pretty_N_char. repeat case_match; reflexivity. Qed.

Lemma pretty_N_go_plain (x : N) (s : string) :
  Str.plain s = true -> Str.plain (pretty_N_go x s) = true.
Proof.
  revert s. induction (N.lt_wf_0 x) as [x _ IH]; intros s Hs.
  assert (x = 0 \/ 0 < x)%N as [-> | Hpos] by lia.
  - now rewrite pretty_N_go_0.
  - rewrite pretty_N_go_step by exact Hpos. apply IH.
    + now apply N.div_lt.
    + unfold Str.plain in *. simpl. now rewrite pretty_N_char_plain, Hs.
Qed.

Lemma pretty_nat_plain (n : nat) : Str.plain (pretty n) = true.
Proof.
  unfold pretty, pretty_nat, pretty, pretty_N.
  case_decide; [reflexivity |]. now apply pretty_N_go_plain.
Qed.

(** A formatted integer holds digits only, so a glob pattern takes it
    literally. *)
Lemma fmt_04d_plain (n : nat) : Str.plain (Str.fmt_04d n) = true.
Proof.
  unfold Str.fmt_04d. rewrite plain_app, pretty_nat_plain, andb_true_r.
  unfold Str.plain. rewrite chars_of_list.
  induction (4 - String.length (pretty n))%nat as [| k IH]; [reflexivity |].
  simpl. exact IH.
Qed.

End StrFacts.

Section FnmatchFacts.
Implicit Types pat name : list ascii.

Lemma fnmatch_plain_prefix (p pat name : list ascii) :
  forallb Str.plain_char p = true ->
  Str.fnmatch (p ++ pat) (p ++ name) = Str.fnmatch pat name.
Proof.
  induction p as [| c p IH]; intros Hp; [reflexivity |].
  simpl in Hp. apply andb_true_iff in Hp. destruct Hp as [Hc Hp].
  simpl. unfold Str.plain_char in Hc. apply negb_true_iff in Hc.
  apply orb_false_iff in Hc. destruct Hc as [Hc _].
  apply orb_false_iff in Hc. destruct Hc as [Hstar _].
  rewrite Hstar, Ascii.eqb_refl, orb_true_r. simpl. now apply IH.
Qed.

Lemma fnmatch_star_empty pat name :
  Str.fnmatch pat name = true -> Str.fnmatch ("*"%char :: pat) name = true.
Proof. intros H. simpl. destruct name; now rewrite H. Qed.

Lemma fnmatch_star_skip pat name (c : ascii) :
  Str.fnmatch ("*"%char :: pat) name = true ->
  Str.fnmatch ("*"%char :: pat) (c :: name) = true.
Proof. intros H. simpl in *. rewrite H. apply orb_true_r. Qed.

Lemma fnmatch_nil : Str.fnmatch [] [] = true.
Proof. reflexivity. Qed.

End FnmatchFacts.

Section PatternFacts.

(** The name under which [train_models] saves the validation table. *)
Lemma predval_matches (n_epochs : nat) (balance : string) :
  Str.plain balance = true ->
  Str.fnmatch (Str.chars (pred_pattern "predval" n_epochs balance))
              (Str.chars ("predval" +:+ "_i" +:+ Str.fmt_04d n_epochs +:+ "_b"
                          +:+ balance +:+ ".txt"))
  = true.
Proof.
  intros Hb. unfold pred_pattern. rewrite !chars_app.
  pose proof (fmt_04d_plain n_epochs) as He. unfold Str.plain in He, Hb.
  rewrite (fnmatch_plain_prefix (Str.chars "predval")) by reflexivity.
  change (Str.chars "*i") with ("*"%char :: Str.chars "i").
  change (Str.chars "_i") with ("_"%char :: Str.chars "i").
  rewrite <- !app_comm_cons.
  apply fnmatch_star_skip, fnmatch_star_empty.
  rewrite (fnmatch_plain_prefix (Str.chars "i")) by reflexivity.
  rewrite (fnmatch_plain_prefix (Str.chars (Str.fmt_04d n_epochs))) by exact He.
  change (Str.chars "*_b") with ("*"%char :: Str.chars "_b").
  rewrite <- !app_comm_cons. apply fnmatch_star_empty.
  rewrite (fnmatch_plain_prefix (Str.chars "_b")) by reflexivity.
  rewrite <- (app_nil_r (Str.chars ".txt")).
  rewrite (fnmatch_plain_prefix (Str.chars balance)) by exact Hb.
  rewrite (fnmatch_plain_prefix (Str.chars ".txt")) by reflexivity.
  reflexivity.
Qed.

Lemma glob_sorted_elem (dir : directory) (pattern name : string) :
  is_Some (dir !! name) ->
  Str.fnmatch (Str.chars pattern) (Str.chars name) = true ->
  name ∈ glob_sorted dir pattern.
Proof.
  intros Hin Hm. unfold glob_sorted.
  rewrite (sorted_Permutation String.ltb).
  apply list_elem_of_In, filter_In. split; [| exact Hm].
  apply list_elem_of_In, elem_of_elements, elem_of_dom. exact Hin.
Qed.

End PatternFacts.

(** * Properties of [train_models] *)

Section StateFacts.
Context {S : Type}.

Lemma bind_M_Ok_inv {A B : Type} (m : M S A) (k : A -> M S B) (s s' : S)
    (b : B) :
  (m ≫= k) s = (Ok b, s') ->
  exists a s1, m s = (Ok a, s1) /\ k a s1 = (Ok b, s').
Proof.
  unfold mbind, M_bind. destruct (m s) as [[a | e] s1]; [eauto | discriminate].
Qed.

Lemma lift_Ok_inv {A : Type} (r : result A) (s s' : S) (a : A) :
  lift r s = (Ok a, s') -> r = Ok a /\ s' = s.
Proof. unfold lift. intros [= -> ->]. auto. Qed.

End StateFacts.

Section TrainModelsFacts.

Variable fit : nat -> nat -> result (list (string * list cell)).
Variable predict_val : nat -> result (list cell).
Variable predict_test : nat -> result (list cell).

(** The column that a seed adds to the validation table. *)
Lemma train_seed_Ok (n_epochs : nat) (pred_test : bool) (seed : nat)
    (tb vt tt tb' vt' tt' : table) (st st' : disk_state) :
  train_seed fit predict_val predict_test n_epochs pred_test seed
    (tb, vt, tt) st = (Ok (tb', vt', tt'), st') ->
  st'.1 = st.1
  /\ (forall name, per_seed_name name -> st'.2 !! name = st.2 !! name)
  /\ Table.colnames vt'
     = Table.colnames vt ++ ["pred_s" +:+ Str.fmt_04d seed].
Proof.
  unfold train_seed. intros H.
  apply bind_M_Ok_inv in H. destruct H as (st0 & s1 & Hget & H).
  injection Hget as <- <-.
  apply bind_M_Ok_inv in H. destruct H as (history & s2 & Hl & H).
  apply lift_Ok_inv in Hl. destruct Hl as [_ ->].
  apply bind_M_Ok_inv in H. destruct H as (tb1 & s3 & Hl & H).
  apply lift_Ok_inv in Hl. destruct Hl as [_ ->].
  apply bind_M_Ok_inv in H. destruct H as (out & s4 & Hl & H).
  apply lift_Ok_inv in Hl. destruct Hl as [_ ->].
  apply bind_M_Ok_inv in H. destruct H as ([] & s5 & Hw & H).
  injection Hw as <-.
  apply bind_M_Ok_inv in H. destruct H as (val_preds & s6 & Hl & H).
  apply lift_Ok_inv in Hl. destruct Hl as [_ ->].
  apply bind_M_Ok_inv in H. destruct H as (vt1 & s7 & Hl & H).
  apply lift_Ok_inv in Hl. destruct Hl as [Hvt ->].
  apply add_column_Ok in Hvt. destruct Hvt as (-> & _ & _).
  apply bind_M_Ok_inv in H. destruct H as (tt1 & s8 & Htest & H).
  injection H as <- <- <- <-.
  assert (Hs8 : s8 = (st.1, <["model" +:+ ("_s" +:+ Str.fmt_04d seed +:+ "_i"
                                +:+ Str.fmt_04d n_epochs +:+ "_b"
                                +:+ frac_balance st.1) +:+ ".h5"
                               := ModelFile seed]> st.2)).
  { destruct pred_test.
    - apply bind_M_Ok_inv in Htest. destruct Htest as (tp & s9 & Hl & Htest).
      apply lift_Ok_inv in Hl. destruct Hl as [_ ->].
      apply lift_Ok_inv in Htest. now destruct Htest as [_ ->].
    - now injection Htest as <- <-. }
  subst s8. simpl. split; [reflexivity |]. split.
  - intros name [rest ->]. apply lookup_insert_ne. discriminate.
  - unfold Table.colnames. now rewrite map_app.
Qed.

Lemma train_seeds_Ok (n_epochs : nat) (pred_test : bool) (seeds : list nat)
    (tb vt tt tb' vt' tt' : table) (st st' : disk_state) :
  for_each (train_seed fit predict_val predict_test n_epochs pred_test) seeds
    (tb, vt, tt) st = (Ok (tb', vt', tt'), st') ->
  st'.1 = st.1
  /\ (forall name, per_seed_name name -> st'.2 !! name = st.2 !! name)
  /\ Table.colnames vt'
     = Table.colnames vt ++ map (fun seed => "pred_s" +:+ Str.fmt_04d seed) seeds.
Proof.
  revert tb vt tt st. induction seeds as [| seed seeds IH]; intros tb vt tt st.
  - simpl. intros [= <- <- <- <-]. now rewrite app_nil_r.
  - cbn [for_each]. intros H.
    apply bind_M_Ok_inv in H. destruct H as ([[tb1 vt1] tt1] & s1 & Hseed & H).
    apply train_seed_Ok in Hseed. destruct Hseed as (Hself & Hdir & Hcols).
    apply IH in H. destruct H as (Hself' & Hdir' & Hcols').
    split; [congruence |]. split.
    + intros name Hname. rewrite Hdir', Hdir by exact Hname. reflexivity.
    + rewrite Hcols', Hcols, <- app_assoc. reflexivity.
Qed.

Lemma create_Ok_colnames (c1 c2 c3 : column) (tb : table) :
  Table.create [c1; c2; c3] [] = Ok tb ->
  Table.colnames tb = [colname c1; colname c2; colname c3].
Proof.
  cbn [Table.create]. intros H.
  apply bind_Ok_inv in H. destruct H as (t1 & H1 & H).
  apply bind_Ok_inv in H. destruct H as (t2 & H2 & H).
  apply bind_Ok_inv in H. destruct H as (t3 & H3 & H).
  injection H as <-.
  apply add_column_Ok in H1, H2, H3.
  destruct H1 as (-> & _), H2 as (-> & _), H3 as (-> & _). reflexivity.
Qed.

(** What a run of [train_models] with [save=True] leaves. *)
Lemma train_models_saved (seeds : list nat) (n_epochs : nat)
    (pred_test : bool) (st st' : disk_state) :
  train_models fit predict_val predict_test seeds n_epochs pred_test true st
  = (Ok tt, st') ->
  epochs st'.1 = Some n_epochs
  /\ frac_balance st'.1 = frac_balance st.1
  /\ is_Some (output_dir st'.1)
  /\ (forall name, per_seed_name name -> st'.2 !! name = st.2 !! name)
  /\ exists val_table,
       st'.2 !! saved_predval n_epochs (frac_balance st.1)
       = Some (TableFile val_table)
       /\ Table.colnames val_table
          = ["tic"; "gt"; "tpeak"]
            ++ map (fun seed => "pred_s" +:+ Str.fmt_04d seed) seeds.
Proof.
  unfold train_models. intros H.
  apply bind_M_Ok_inv in H. destruct H as ([] & s1 & Hm & H).
  injection Hm as <-.
  apply bind_M_Ok_inv in H. destruct H as (st0 & s2 & Hget & H).
  injection Hget as <- <-.
  apply bind_M_Ok_inv in H. destruct H as (vt & s3 & Hl & H).
  apply lift_Ok_inv in Hl. destruct Hl as [Hvt ->].
  apply bind_M_Ok_inv in H. destruct H as (tt0 & s4 & Hl & H).
  apply lift_Ok_inv in Hl. destruct Hl as [_ ->].
  apply bind_M_Ok_inv in H. destruct H as ([[tb1 vt1] tt1] & s5 & Hloop & H).
  apply train_seeds_Ok in Hloop. destruct Hloop as (Hself & Hdir & Hcols).
  apply create_Ok_colnames in Hvt. rewrite Hvt in Hcols. simpl colname in Hcols.
  apply bind_M_Ok_inv in H. destruct H as ([] & s6 & Hm & H).
  injection Hm as <-.
  cbn [fst snd] in H.
  apply bind_M_Ok_inv in H. destruct H as (out & s7 & Hl & H).
  apply lift_Ok_inv in Hl. destruct Hl as [Hout ->].
  apply bind_M_Ok_inv in H. destruct H as ([] & s8 & Hw & H).
  injection Hw as <-.
  apply bind_M_Ok_inv in H. destruct H as ([] & s9 & Hw & H).
  injection Hw as <-.
  cbn [fst snd] in *.
  assert (Hout' : is_Some (output_dir (set_epochs n_epochs st.1))).
  { destruct (output_dir (set_epochs n_epochs st.1)); [eauto | discriminate]. }
  destruct s5 as [self5 dir5]. cbn [fst snd] in *. subst self5.
  destruct (3 <? length (Table.colnames tt1))%nat.
  - injection H as <-. cbn [fst snd].
    split; [reflexivity |]. split; [reflexivity |]. split; [exact Hout' |].
    split.
    + intros name [rest ->].
      rewrite !lookup_insert_ne by discriminate.
      apply Hdir. now exists rest.
    + exists vt1. split; [| exact Hcols].
      rewrite lookup_insert_ne by discriminate.
      apply lookup_insert_eq.
  - injection H as <-. cbn [fst snd].
    split; [reflexivity |]. split; [reflexivity |]. split; [exact Hout' |].
    split.
    + intros name [rest ->].
      rewrite !lookup_insert_ne by discriminate.
      apply Hdir. now exists rest.
    + exists vt1. split; [| exact Hcols]. apply lookup_insert_eq.
Qed.

End TrainModelsFacts.

(** * The claim about saving and aggregating *)

Section RoundTripClaims.

Variable fit : nat -> nat -> result (list (string * list cell)).
Variable predict_val : nat -> result (list cell).
Variable predict_test : nat -> result (list cell).

(** The reading loop stops at a file without a ['pred'] column, if not
    before. *)
Lemma read_files_raises (dir : directory) (out name : string)
    (files : list string) (tb : table) (acc : read_state) :
  name ∈ files ->
  read_table dir name = Ok tb ->
  "pred" ∉ Table.colnames tb ->
  exists e, read_files dir out files acc = Raise e.
Proof.
  intros Hin Hread Hmissing. revert acc.
  induction files as [| n rest IH]; intros [[df ma] r].
  - now apply elem_of_nil in Hin.
  - simpl. destruct (decide (n = name)) as [-> | Hne].
    + rewrite Hread. simpl. rewrite (getitem_missing tb "pred" Hmissing).
      simpl. eauto.
    + apply elem_of_cons in Hin. destruct Hin as [-> | Hin]; [easy |].
      destruct (read_table dir n) as [tb' | e]; simpl; [| eauto].
      destruct (Table.getitem tb' "pred") as [c | e]; simpl; [| eauto].
      destruct (Table.add_column df _ None) as [df' | e]; simpl; [| eauto].
      now apply IH.
Qed.

Lemma pred_not_saved_column (seeds : list nat) :
  "pred" ∉ ["tic"; "gt"; "tpeak"]
           ++ map (fun seed => "pred_s" +:+ Str.fmt_04d seed) seeds.
Proof.
  rewrite elem_of_app. intros [H | H].
  - repeat (apply elem_of_cons in H; destruct H as [H | H];
            [discriminate |]).
    now apply elem_of_nil in H.
  - apply list_elem_of_fmap in H. destruct H as (seed & H & _). discriminate.
Qed.

(** C9.  For an output directory and a balance text without glob
    characters, a run of [train_models] with [save=True] writes the
    validation predictions to the single file
    [predval_i<epochs>_b<balance>.txt],
    whose columns are [tic], [gt], [tpeak] and one [pred_s<seed>] per
    seed; it writes no file under a name of the per-seed template
    [predval_fmt]; the glob of [create_df] does find the file; and
    [create_df] on the validation set then raises in every mode, since
    it asks each file for a column named ['pred']. *)
Theorem train_models_not_consumed (seeds : list nat) (n_epochs : nat)
    (pred_test : bool) (st st' : disk_state) (out : string) :
  output_dir st.1 = Some out ->
  Str.plain out = true ->
  Str.plain (frac_balance st.1) = true ->
  train_models fit predict_val predict_test seeds n_epochs pred_test true st
  = (Ok tt, st') ->
  (exists val_table,
     st'.2 !! saved_predval n_epochs (frac_balance st.1)
     = Some (TableFile val_table)
     /\ Table.colnames val_table
        = ["tic"; "gt"; "tpeak"]
          ++ map (fun seed => "pred_s" +:+ Str.fmt_04d seed) seeds)
  /\ (forall seed,
        st'.2 !! predval_fmt seed n_epochs (frac_balance st.1)
        = st.2 !! predval_fmt seed n_epochs (frac_balance st.1))
  /\ (saved_predval n_epochs (frac_balance st.1)
      ∈ glob_sorted st'.2
          (pred_pattern "predval" n_epochs (frac_balance st.1)))
  /\ (forall threshold mode data_set,
        Str.lower data_set = "validation" ->
        exists e, create_df st'.1 st'.2 threshold mode data_set = Raise e).
Proof.
  intros Hdir _ Hplain Hrun.
  destruct (train_models_saved fit predict_val predict_test seeds n_epochs
              pred_test st st' Hrun)
    as (Hepochs & Hbal & [out' Hout] & Hkeep & val_table & Hfile & Hcols).
  assert (Hglob : saved_predval n_epochs (frac_balance st.1)
                  ∈ glob_sorted st'.2
                      (pred_pattern "predval" n_epochs (frac_balance st.1))).
  { apply glob_sorted_elem; [rewrite Hfile; eauto |].
    now apply predval_matches. }
  split; [now exists val_table |]. split.
  { intros seed. apply Hkeep. unfold predval_fmt. now eexists. }
  split; [exact Hglob |].
  intros threshold mode data_set Hlower.
  unfold create_df, find_files.
  rewrite Hlower, Hout, Hepochs, Hbal. simpl.
  destruct (String.eqb mode "metrics" && _); [eauto |].
  destruct (read_files_raises st'.2 out' _ _ val_table ([], [], None) Hglob)
    as (e & He).
  - unfold read_table. now rewrite Hfile.
  - rewrite Hcols. apply pred_not_saved_column.
  - rewrite He. simpl. eauto.
Qed.

End RoundTripClaims.

(** * The theorems at concrete inputs *)

Section Witnesses.
Local Open Scope Q_scope.

Lemma create_df_aggregate_witness :
  create_df trained three_seeds (Some (1 # 2)) "metrics" "validation"
  = Ok aggregated
  /\ (exists m, Table.getitem aggregated "pred"
                = Ok (Column "pred" [Some m; Some (1000000 # 2000000)])
                /\ m == 3 # 10)
  /\ Table.getitem aggregated "pred_round"
     = Ok (Column "pred_round" [Some 0; Some 1])
  /\ exists files out preds means tic peak gt,
       find_files trained three_seeds "validation" = Ok (files, out)
       /\ Forall2 (reads three_seeds) files preds
       /\ aggregated
          = [Column "pred_round" (map (label (Some (1 # 2))) means);
             Column "tic" tic; Column "peak" peak; Column "gt" gt]
            ++ zip_with (seed_column out) files preds
            ++ [Column "pred" means]
       /\ means = map (fun i => Stats.nanmean
                                  (map (fun p => nth i (Stats.round3 p) None)
                                       preds))
                      (seq 0 (length means)).
Proof.
  assert (H : create_df trained three_seeds (Some (1 # 2)) "metrics"
                "validation" = Ok aggregated) by (vm_compute; reflexivity).
  split; [exact H |].
  split; [eexists; split; [vm_compute; reflexivity | reflexivity] |].
  split; [vm_compute; reflexivity |].
  exact (proj1 create_df_aggregate trained three_seeds (Some (1 # 2))
           "metrics" "validation" aggregated H).
Defined.

Lemma create_df_insufficient_models_witness :
  find_files trained one_seed "validation"
  = Ok (["predval_s0001_i0005_b0.73.txt"], "/home/user/.stella")
  /\ (length ["predval_s0001_i0005_b0.73.txt"] < 2)%nat
  /\ create_df trained one_seed (Some (1 # 2)) "metrics" "validation"
     = Raise insufficient_models.
Proof.
  assert (H : find_files trained one_seed "validation"
              = Ok (["predval_s0001_i0005_b0.73.txt"], "/home/user/.stella"))
    by (vm_compute; reflexivity).
  assert (Hlen : (length ["predval_s0001_i0005_b0.73.txt"] < 2)%nat)
    by (simpl; lia).
  split; [exact H |]. split; [exact Hlen |].
  exact (proj1 (create_df_insufficient_models trained one_seed (Some (1 # 2))
                  "validation" _ _ H) Hlen).
Defined.

(** With the three files the default mode gets past the test. *)
Example create_df_three_models :
  exists df,
    create_df trained three_seeds (Some (1 # 2)) "metrics" "validation" = Ok df.
Proof. exists aggregated. vm_compute. reflexivity. Qed.

Lemma train_models_not_consumed_witness :
  output_dir (trained, (∅ : directory)).1 = Some "/home/user/.stella"
  /\ Str.plain "/home/user/.stella" = true
  /\ Str.plain (frac_balance (trained, (∅ : directory)).1) = true
  /\ train_models example_fit example_predict example_predict
       [1%nat; 2%nat] 5 false true (trained, ∅)
     = (Ok tt, after_training)
  /\ (saved_predval 5 "0.73" = "predval_i0005_b0.73.txt")
  /\ (exists e, create_df after_training.1 after_training.2 (Some (1 # 2))
                  "metrics" "validation" = Raise e)
  /\ (exists e, create_df after_training.1 after_training.2 (Some (1 # 2))
                  "plain" "validation" = Raise e).
Proof.
  assert (H1 : Str.plain (frac_balance (trained, (∅ : directory)).1) = true)
    by reflexivity.
  assert (H2 : train_models example_fit example_predict example_predict
                 [1%nat; 2%nat] 5 false true (trained, ∅)
               = (Ok tt, after_training)) by (vm_compute; reflexivity).
  pose proof (train_models_not_consumed example_fit example_predict
                example_predict [1%nat; 2%nat] 5 false (trained, ∅)
                after_training "/home/user/.stella" eq_refl eq_refl H1 H2)
    as (_ & _ & _ & Hraise).
  split; [reflexivity |]. split; [reflexivity |].
  split; [exact H1 |]. split; [exact H2 |]. split; [reflexivity |].
  split; apply Hraise; reflexivity.
Defined.

End Witnesses.

(** * Further properties of the windowing loop *)

Section WindowShapes.
Import Windows.
Local Open Scope Z_scope.

(** X1.  In the right-boundary branch the window is the tail of the light
    curve from [i - half] on, followed by zeros up to exactly [cadences]
    values, for every width [cadences >= 0], odd or even. *)
Theorem window_right_padded (cadences : Z) (lc : list Q) (i : Z) :
  0 <= cadences ->
  i < Z.of_nat (length lc) ->
  (2 * i <=? cadences) = false ->
  (Z.of_nat (length lc) - cadence_pad cadences <=? i) = true ->
  exists k : nat,
    window cadences lc i
    = Ok (drop (Z.to_nat (i - cadence_pad cadences)) lc ++ replicate k 0%Q)
    /\ Z.of_nat (length (drop (Z.to_nat (i - cadence_pad cadences)) lc)) + Z.of_nat k
       = cadences.
Proof.
  intros Hc Hi H1 H2. apply Z.leb_gt in H1. apply Z.leb_le in H2.
  pose proof (cadence_pad_bounds cadences Hc) as Hp.
  unfold window.
  destruct (2 * i <=? cadences) eqn:E1; [lia |].
  destruct (Z.of_nat (length lc) - cadence_pad cadences <=? i) eqn:E2; [| lia].
  rewrite slice_suffix by lia.
  set (s := drop (Z.to_nat (i - cadence_pad cadences)) lc).
  assert (Hs : Z.of_nat (length s)
               = Z.of_nat (length lc) - (i - cadence_pad cadences)).
  { unfold s. rewrite length_drop. lia. }
  rewrite zeros_ok by lia. simpl.
  exists (Z.to_nat (Z.abs (cadences - Z.of_nat (length s)))).
  split; [reflexivity | lia].
Qed.

Lemma window_right_padded_witness :
  0 <= 3
  /\ (exists k : nat,
        window 3 [10; 11; 12; 13; 14]%Q 4
        = Ok (drop (Z.to_nat (4 - cadence_pad 3)) [10; 11; 12; 13; 14]%Q
              ++ replicate k 0%Q)
        /\ Z.of_nat (length (drop (Z.to_nat (4 - cadence_pad 3))
                                  [10; 11; 12; 13; 14]%Q)) + Z.of_nat k = 3).
Proof.
  split; [lia |].
  apply (window_right_padded 3 [10; 11; 12; 13; 14]%Q 4);
    [lia | simpl; lia | reflexivity | reflexivity].
Defined.

(** X2.  Every window is centred on its sample: for a width of at least
    2, the value at position [half] of the window for index [i] is
    [lc[i]], in all three branches. *)
Theorem window_centred (cadences : Z) (lc : list Q) (i : nat) (x : Q) :
  2 <= cadences ->
  lc !! i = Some x ->
  exists w,
    window cadences lc (Z.of_nat i) = Ok w
    /\ w !! Z.to_nat (cadence_pad cadences) = Some x.
Proof.
  intros Hc Hx. pose proof (lookup_lt_Some _ _ _ Hx) as Hi.
  pose proof (cadence_pad_bounds cadences ltac:(lia)) as Hp.
  set (half := cadence_pad cadences) in *.
  destruct (Z.le_gt_cases (2 * Z.of_nat i) cadences) as [Hl | Hl].
  - rewrite window_left by lia. fold half. eexists. split; [reflexivity |].
    rewrite lookup_app_r by (rewrite length_replicate; lia).
    rewrite length_replicate.
    replace (Z.to_nat half - Z.to_nat (half - Z.of_nat i))%nat with i by lia.
    rewrite lookup_take_lt by lia. exact Hx.
  - unfold window. fold half.
    destruct (2 * Z.of_nat i <=? cadences) eqn:E1; [lia |].
    destruct (Z.of_nat (length lc) - half <=? Z.of_nat i) eqn:E2.
    + apply Z.leb_le in E2. rewrite slice_suffix by lia.
      rewrite zeros_ok by lia. simpl. eexists. split; [reflexivity |].
      rewrite lookup_app_l by (rewrite length_drop; lia).
      rewrite lookup_drop.
      replace (Z.to_nat (Z.of_nat i - half) + Z.to_nat half)%nat with i by lia.
      exact Hx.
    + apply Z.leb_gt in E2. rewrite slice_inside by lia.
      eexists. split; [reflexivity |].
      rewrite lookup_take_lt by lia. rewrite lookup_drop.
      replace (Z.to_nat (Z.of_nat i - half) + Z.to_nat half)%nat with i by lia.
      exact Hx.
Qed.

Lemma window_centred_witness :
  2 <= 4
  /\ [10; 11; 12; 13; 14; 15]%Q !! 0%nat = Some 10%Q
  /\ exists w,
       window 4 [10; 11; 12; 13; 14; 15]%Q (Z.of_nat 0) = Ok w
       /\ w !! Z.to_nat (cadence_pad 4) = Some 10%Q.
Proof.
  split; [lia |]. split; [reflexivity |].
  apply (window_centred 4 [10; 11; 12; 13; 14; 15]%Q 0 10%Q);
    [lia | reflexivity].
Defined.

End WindowShapes.

Section WindowLoopReturns.
Import Windows.
Local Open Scope Z_scope.

(** X3.  The windowing loop of [predict] runs to its end exactly when the
    width is not negative and either the light curve is empty, or the
    width is even and the light curve has at least [cadences] samples, or
    the width is 2 and there is a single sample.  In every other case
    storing a window raises. *)
Theorem reshaped_data_returns_iff (cadences : Z) (lc : list Q) :
  (exists rows, reshaped_data cadences lc = Ok rows) <->
  0 <= cadences
  /\ (lc = []
      \/ (Z.even cadences = true /\ cadences <= Z.of_nat (length lc))
      \/ (cadences = 2 /\ length lc = 1%nat)).
Proof.
  split.
  - intros [rows Hrows].
    assert (Hc : 0 <= cadences).
    { unfold reshaped_data in Hrows.
      destruct (cadences <? 0) eqn:E; [discriminate | lia]. }
    split; [exact Hc |].
    destruct lc as [| x lc]; [now left | right].
    destruct (Z.even cadences) eqn:Hev.
    + destruct (Z.le_gt_cases cadences (Z.of_nat (length (x :: lc))))
        as [Hle | Hgt]; [now left | right].
      destruct (decide (cadences = 2 /\ length (x :: lc) = 1%nat))
        as [Hyes | Hno]; [exact Hyes |].
      destruct (reshaped_data_short cadences (x :: lc) Hc Hev
                  ltac:(discriminate) ltac:(lia) Hno) as [e He].
      congruence.
    + destruct (reshaped_data_odd cadences (x :: lc) Hc Hev
                  ltac:(discriminate)) as [e He].
      congruence.
  - intros (Hc & [-> | [[Hev Hle] | [-> Hone]]]).
    + exists []. unfold reshaped_data.
      destruct (cadences <? 0) eqn:E; [lia | reflexivity].
    + destruct (reshaped_data_rows cadences lc Hc) as (rows & Hrows & _).
      { intros i Hi. apply window_length_even; [exact Hev | lia | lia]. }
      now exists rows.
    + destruct lc as [| x [| y lc]]; try discriminate.
      eexists. reflexivity.
Qed.

End WindowLoopReturns.

Section SortedFacts.
Local Open Scope Q_scope.

Lemma Sorted_lookup_lt (t : list Q) (i : nat) (a b : Q) :
  Sorted Qlt t -> t !! i = Some a -> t !! S i = Some b -> a < b.
Proof.
  intros Hs. revert i. induction Hs as [| x t Hs IH Hhd]; intros i Ha Hb.
  - discriminate.
  - destruct i as [| i]; simpl in *.
    + injection Ha as ->. destruct t as [| y t]; [discriminate |].
      injection Hb as ->. now inversion Hhd.
    + now apply (IH i).
Qed.

Lemma StronglySorted_sublist2 (l : list Q) (a b : Q) :
  StronglySorted Qlt l -> sublist [a; b] l -> a < b.
Proof.
  induction 1 as [| x l Hs IH Hall]; intros Hsub.
  - inversion Hsub.
  - apply sublist_cons_r in Hsub. destruct Hsub as [Hsub | (l' & Heq & Hsub)].
    + now apply IH.
    + injection Heq as -> <-. apply singleton_sublist_l in Hsub.
      rewrite Forall_forall in Hall. now apply Hall.
Qed.

(** A strictly increasing array holds no value twice. *)
Lemma Sorted_no_repeat (l : list Q) (a b : Q) :
  Sorted Qlt l -> [a; b] ⊆+ l -> ~ a == b.
Proof.
  intros Hs Hsub Heq.
  apply Sorted_StronglySorted in Hs;
    [| intros x y z; apply Qlt_trans].
  apply submseteq_sublist_r in Hsub. destruct Hsub as (l2 & Hperm & Hsub).
  apply Permutation_length_2_inv in Hperm. destruct Hperm as [-> | ->].
  - pose proof (StronglySorted_sublist2 l a b Hs Hsub) as Hlt.
    rewrite Heq in Hlt. now apply Qlt_irrefl in Hlt.
  - pose proof (StronglySorted_sublist2 l b a Hs Hsub) as Hlt.
    rewrite Heq in Hlt. now apply Qlt_irrefl in Hlt.
Qed.

(** [np.arange] starts at its first argument. *)
Lemma arange_head (start stop step : Q) :
  0 < step -> start < stop ->
  exists h rest, arange_values start stop step = h :: rest /\ h == start.
Proof.
  intros Hs Hlt. unfold arange_values.
  assert (Hq : 0 < (stop - start) / step).
  { apply Qlt_shift_div_l; [exact Hs | lra]. }
  pose proof (Qle_ceiling ((stop - start) / step)) as Hc.
  assert (Hz : inject_Z 0 < inject_Z (Qceiling ((stop - start) / step))).
  { eapply Qlt_le_trans; [exact Hq | exact Hc]. }
  rewrite <- Zlt_Qlt in Hz.
  destruct (Z.to_nat (Qceiling ((stop - start) / step))) as [| n] eqn:E;
    [lia |].
  cbn [seq map]. eexists _, _. split; [reflexivity |].
  change (inject_Z (Z.of_nat 0)) with 0. ring.
Qed.

Lemma nanmedian_const (l : list Q) (d : Q) :
  l <> [] -> Forall (fun x => x == d) l -> Np.nanmedian l == d.
Proof.
  intros Hne Hall. unfold Np.nanmedian.
  assert (Hs : Forall (fun x => x == d) (Np.sorted Np.Qltb l)).
  { eapply Permutation_Forall; [| exact Hall].
    symmetry. apply sorted_Permutation. }
  pose proof (length_sorted Np.Qltb l) as Hlen.
  assert (Hn : (0 < length l)%nat) by (destruct l; simpl; [easy | lia]).
  assert (Hnth : forall i, (i < length l)%nat ->
                           nth i (Np.sorted Np.Qltb l) 0 == d).
  { intros i Hi. rewrite <- Hlen in Hi.
    exact (proj1 (Forall_nth _ 0 _) Hs i Hi). }
  destruct (length l =? 0)%nat eqn:E; [apply Nat.eqb_eq in E; lia |].
  pose proof (Nat.div_lt (length l) 2 Hn ltac:(lia)) as Hhalf.
  destruct (Nat.odd (length l)).
  - now apply Hnth.
  - rewrite (Hnth (length l / 2)%nat Hhalf).
    rewrite (Hnth (length l / 2 - 1)%nat ltac:(lia)). field.
Qed.

Lemma filter_all {A : Type} (p : A -> bool) (l : list A) :
  (forall x, In x l -> p x = true) -> List.filter p l = l.
Proof.
  induction l as [| x l IH]; intros H; simpl; [reflexivity |].
  rewrite (H x (or_introl eq_refl)). f_equal. apply IH.
  intros y Hy. apply H. now right.
Qed.

End SortedFacts.

Section GapFillerExtras.
Local Open Scope Q_scope.

Variable nanstd : list Q -> Q.
Variable draws : nat -> Q.

(** X4.  Whatever its input, when [fill_in_sample] returns it has kept
    every (time, flux) sample it was given: the input pairs are among the
    returned pairs, as often as they occurred.  The input errors are a
    subsequence of the returned errors, and the generator has advanced by
    exactly the number of values added. *)
Theorem fill_in_sample_keeps_samples (t f e : list Q) (sg : Q) (k : nat)
    (t2 f2 e2 : list Q) (k2 : nat) :
  fill_in_sample nanstd draws t f e sg k = Ok (t2, f2, e2, k2) ->
  zip t f ⊆+ zip t2 f2
  /\ sublist e e2
  /\ (k2 + length e = k + length e2)%nat.
Proof.
  intros H. apply fill_in_sample_inv in H.
  destruct H as (t1 & f1 & Hins & Hun).
  apply inserted_grows in Hins.
  destruct Hins as (_ & Hz & He & _ & Hl & Hk).
  apply unzip_sorted_inv in Hun. destruct Hun as (Hperm & _ & _).
  split; [| split; [exact He | lia]].
  rewrite Hperm. now apply sublist_submseteq.
Qed.

(** X5.  Whenever [fill_in_sample] returns on arrays of one length, the
    returned error array is as long as the returned time array, and each
    of its values is an input error or the synthetic error
    [nanstd(f)/2]. *)
Theorem fill_in_sample_errors (t f e : list Q) (sg : Q) (k : nat)
    (t2 f2 e2 : list Q) (k2 : nat) :
  length t = length f ->
  length f = length e ->
  fill_in_sample nanstd draws t f e sg k = Ok (t2, f2, e2, k2) ->
  length e2 = length t2
  /\ Forall (fun v => v ∈ e \/ v = nanstd f / 2) e2.
Proof.
  intros Htf Hfe H. apply fill_in_sample_inv in H.
  destruct H as (t1 & f1 & Hins & Hun).
  destruct (inserted_lengths _ _ _ _ _ _ _ _ _ _ _ Hins Htf Hfe)
    as [Htf1 Hfe1].
  apply unzip_sorted_inv in Hun. destruct Hun as (_ & _ & Hlen1).
  rewrite length_zip in Hlen1.
  split; [lia |].
  apply inserted_grows in Hins. now destruct Hins as (_ & _ & _ & Hv & _).
Qed.

(** X6.  Filling a gap repeats a time stamp.  Whenever [fill_in_sample]
    returns on a light curve with time and flux of one length, strictly
    increasing time and at least one flagged gap, the returned time
    array holds some input time twice, so the returned times are no
    longer strictly increasing: [np.arange] starts at the left edge of
    the gap, and its values are inserted in front of that edge. *)
Theorem fill_in_sample_repeats_time (t f e : list Q) (sg : Q) (k : nat)
    (t2 f2 e2 : list Q) (k2 : nat) :
  length t = length f ->
  Sorted Qlt t ->
  diff_ind nanstd t sg <> [] ->
  fill_in_sample nanstd draws t f e sg k = Ok (t2, f2, e2, k2) ->
  exists x x',
    x ∈ t /\ x' == x /\ [x'; x] ⊆+ t2
    /\ ~ Sorted Qlt t2.
Proof.
  intros Htf Hsorted Hgap H. apply fill_in_sample_inv in H.
  destruct H as (t1 & f1 & Hins & Hun).
  (* the first turn of the loop *)
  pose proof Hins as Hloop. unfold inserted in Hloop.
  destruct (diff_ind nanstd t sg) as [| i0 rest] eqn:Eind; [easy |].
  simpl in Hloop.
  apply bind_Ok_inv in Hloop.
  destruct Hloop as ([[[ta fa] ea] ka] & Hfirst & Hrest).
  pose proof Hfirst as Hshape. apply fill_gap_shape in Hshape.
  destruct Hshape
    as (x0 & x1 & nt & nf & Hx0 & Hx1 & Hnt & Hlen & Hit & Hif & _ & Hst).
  injection Hst as -> -> -> ->.
  (* time and flux keep one length through the loop *)
  assert (Htfa : length (take i0 t ++ nt ++ drop i0 t)
                 = length (take i0 f ++ nf ++ drop i0 f)).
  { rewrite !length_inserted. lia. }
  assert (Htf1 : length t1 = length f1).
  { clear - Hrest Htfa.
    revert Hrest Htfa. generalize (take i0 t ++ nt ++ drop i0 t).
    generalize (take i0 f ++ nf ++ drop i0 f).
    generalize (take i0 e ++ replicate (length nt) (nanstd f / 2)
                ++ drop i0 e).
    generalize (k + length nt)%nat.
    induction rest as [| j rest IH]; intros k' e' f' t' Hrest Hl.
    - simpl in Hrest. injection Hrest as <- <- _ _. exact Hl.
    - simpl in Hrest. apply bind_Ok_inv in Hrest.
      destruct Hrest as ([[[tb fb] eb] kb] & Hj & Hrest).
      apply fill_gap_shape in Hj.
      destruct Hj as (? & ? & nt' & nf' & _ & _ & _ & Hl' & _ & _ & _ & Hst).
      injection Hst as -> -> -> ->.
      refine (IH _ _ _ _ Hrest _). rewrite !length_inserted. lia. }
  apply fill_gaps_grows in Hrest. destruct Hrest as (Hsub & _).
  pose proof (unzip_sorted_inv _ _ _ _ Hun) as (Hperm & Hlen2 & Hlen1).
  rewrite length_zip in Hlen1.
  assert (Ht2 : t2 ≡ₚ t1).
  { rewrite <- (fst_zip t2 f2) by lia. rewrite <- (fst_zip t1 f1) by lia.
    now apply fmap_Permutation. }
  unfold Py.index in Hx0, Hx1.
  destruct (t !! i0) as [a |] eqn:Ea; [| discriminate].
  destruct (t !! (i0 + 1)%nat) as [b |] eqn:Eb; [| discriminate].
  injection Hx0 as <-. injection Hx1 as <-.
  replace (i0 + 1)%nat with (S i0) in Eb by lia.
  pose proof (Sorted_lookup_lt t i0 a b Hsorted Ea Eb) as Hab.
  assert (Hd : Np.diff t <> []).
  { intros Hd. pose proof (length_diff t) as Hl. rewrite Hd in Hl.
    apply lookup_lt_Some in Eb. simpl in Hl. lia. }
  assert (Hstep : 0 < Np.nanmedian (Np.diff t)).
  { apply nanmedian_positive; [exact Hd | now apply diff_positive]. }
  rewrite (arange_ok a b _ Hstep) in Hnt. injection Hnt as <-.
  destruct (arange_head a b _ Hstep Hab) as (h & tl & Hhd & Hh).
  rewrite Hhd in Hsub.
  assert (Hpair : sublist [h; a] t1).
  { etransitivity; [| exact Hsub].
    rewrite (drop_S t a i0 Ea).
    apply sublist_inserts_l. simpl. apply sublist_skip.
    apply sublist_inserts_l. apply sublist_skip. apply sublist_nil_l. }
  assert (Hms : [h; a] ⊆+ t2).
  { rewrite Ht2. now apply sublist_submseteq. }
  exists a, h.
  split; [apply list_elem_of_lookup; eauto |].
  split; [exact Hh |]. split; [exact Hms |].
  intros Hs. exact (Sorted_no_repeat t2 h a Hs Hms Hh).
Qed.

(** X7.  The gap test is [>=], so a light curve whose successive time
    differences are all equal, and have standard deviation 0, has every
    one of its cadences flagged as a gap. *)
Theorem uniform_spacing_flags_all (t : list Q) (sg d : Q) :
  Forall (fun x => x == d) (Np.diff t) ->
  nanstd (Np.diff t) == 0 ->
  diff_ind nanstd t sg = seq 0 (length t - 1).
Proof.
  intros Hall Hstd. unfold diff_ind, Np.where_ge.
  rewrite length_diff. apply filter_all. intros i Hi.
  apply in_seq in Hi. apply Qle_bool_iff.
  assert (Hne : Np.diff t <> []).
  { intros Hd. pose proof (length_diff t) as Hl. rewrite Hd in Hl.
    simpl in Hl. lia. }
  rewrite (nanmedian_const _ d Hne Hall), Hstd.
  assert (Hi' : (i < length (Np.diff t))%nat) by (rewrite length_diff; lia).
  pose proof (proj1 (Forall_nth _ 0 _) Hall i Hi') as Hnth. simpl in Hnth.
  rewrite Hnth. lra.
Qed.

End GapFillerExtras.

Section GapFillerExtraWitnesses.
Local Open Scope Q_scope.

Lemma fill_in_sample_keeps_samples_witness :
  fill_in_sample (fun _ => 1) (fun _ => 0)
    gappy_time gappy_flux gappy_err sigma 0
  = Ok (filled.1.1.1, filled.1.1.2, filled.1.2, filled.2)
  /\ zip gappy_time gappy_flux ⊆+ zip filled.1.1.1 filled.1.1.2
  /\ sublist gappy_err filled.1.2
  /\ (filled.2 + length gappy_err = 0 + length filled.1.2)%nat.
Proof.
  assert (H : fill_in_sample (fun _ => 1) (fun _ => 0)
                gappy_time gappy_flux gappy_err sigma 0
              = Ok (filled.1.1.1, filled.1.1.2, filled.1.2, filled.2))
    by (vm_compute; reflexivity).
  split; [exact H |].
  exact (fill_in_sample_keeps_samples (fun _ => 1) (fun _ => 0)
           gappy_time gappy_flux gappy_err sigma 0
           filled.1.1.1 filled.1.1.2 filled.1.2 filled.2 H).
Defined.

Lemma fill_in_sample_errors_witness :
  fill_in_sample exact_std (fun _ => 0) gap_time gap_flux gap_err sigma 0
  = Ok (gap_filled.1.1.1, gap_filled.1.1.2, gap_filled.1.2, gap_filled.2)
  /\ length gap_filled.1.2 = length gap_filled.1.1.1
  /\ Forall (fun v => v ∈ gap_err \/ v = exact_std gap_flux / 2)
            gap_filled.1.2.
Proof.
  assert (H : fill_in_sample exact_std (fun _ => 0) gap_time gap_flux
                gap_err sigma 0
              = Ok (gap_filled.1.1.1, gap_filled.1.1.2, gap_filled.1.2,
                    gap_filled.2)) by (vm_compute; reflexivity).
  split; [exact H |].
  exact (fill_in_sample_errors exact_std (fun _ => 0) gap_time gap_flux
           gap_err sigma 0 _ _ _ _ eq_refl eq_refl H).
Defined.

Lemma fill_in_sample_repeats_time_witness :
  Sorted Qlt gap_time
  /\ diff_ind exact_std gap_time sigma <> []
  /\ fill_in_sample exact_std (fun _ => 0) gap_time gap_flux gap_err sigma 0
     = Ok (gap_filled.1.1.1, gap_filled.1.1.2, gap_filled.1.2, gap_filled.2)
  /\ exists x x',
       x ∈ gap_time /\ x' == x /\ [x'; x] ⊆+ gap_filled.1.1.1
       /\ ~ Sorted Qlt gap_filled.1.1.1.
Proof.
  assert (H1 : Sorted Qlt gap_time) by (repeat constructor).
  assert (H2 : diff_ind exact_std gap_time sigma <> [])
    by (vm_compute; discriminate).
  assert (H : fill_in_sample exact_std (fun _ => 0) gap_time gap_flux
                gap_err sigma 0
              = Ok (gap_filled.1.1.1, gap_filled.1.1.2, gap_filled.1.2,
                    gap_filled.2)) by (vm_compute; reflexivity).
  split; [exact H1 |]. split; [exact H2 |]. split; [exact H |].
  exact (fill_in_sample_repeats_time exact_std (fun _ => 0) gap_time gap_flux
           gap_err sigma 0 _ _ _ _ eq_refl H1 H2 H).
Defined.

Lemma uniform_spacing_flags_all_witness :
  Forall (fun x => x == 1) (Np.diff [0; 1; 2; 3])
  /\ (fun _ : list Q => 0) (Np.diff [0; 1; 2; 3]) == 0
  /\ diff_ind (fun _ => 0) [0; 1; 2; 3] sigma = seq 0 (length [0; 1; 2; 3] - 1).
Proof.
  assert (H1 : Forall (fun x => x == 1) (Np.diff [0; 1; 2; 3]))
    by (repeat constructor).
  assert (H2 : (fun _ : list Q => 0) (Np.diff [0; 1; 2; 3]) == 0)
    by reflexivity.
  split; [exact H1 |]. split; [exact H2 |].
  exact (uniform_spacing_flags_all (fun _ => 0) [0; 1; 2; 3] sigma 1 H1 H2).
Defined.

End GapFillerExtraWitnesses.
(** * Further properties of [predict] *)

Section PredictExtras.
Local Open Scope Q_scope.

Variable nanstd : list Q -> Q.
Variable draws : nat -> Q.
Variable model_predict : list (list Q) -> result (list Q).

Lemma index_Ok_lt {A : Type} (l : list A) (i : nat) (a : A) :
  Py.index l i = Ok a -> (i < length l)%nat.
Proof.
  unfold Py.index. destruct (l !! i) eqn:E; [| discriminate].
  intros _. now apply lookup_lt_Some in E.
Qed.

Lemma predict_from_Ok (cadences : Z) (times fluxes errs : list (list Q))
    (js : list nat) (j k : nat) (ps : list (list Q)) :
  predict_from nanstd draws model_predict cadences times fluxes errs j js k
  = Ok ps ->
  length ps = length js
  /\ (js <> [] ->
      (j + length js <= length fluxes)%nat
      /\ (j + length js <= length errs)%nat).
Proof.
  revert j k ps. induction js as [| j0 js IH]; intros j k ps H; simpl in H.
  - injection H as <-. split; [reflexivity | easy].
  - apply bind_Ok_inv in H. destruct H as (time & _ & H).
    apply bind_Ok_inv in H. destruct H as (lc & Hlc & H).
    apply bind_Ok_inv in H. destruct H as (err & Herr & H).
    apply bind_Ok_inv in H. destruct H as ([preds k'] & _ & H).
    apply bind_Ok_inv in H. destruct H as (rest & Hrest & H).
    injection H as <-.
    apply index_Ok_lt in Hlc, Herr.
    destruct (IH _ _ _ Hrest) as [Hlen Hb].
    split; [simpl; now rewrite Hlen |].
    intros _. destruct js as [| j1 js]; [simpl; lia |].
    destruct Hb as [H1 H2]; [easy |]. simpl in *. lia.
Qed.

(** X8.  When [predict] returns, it returns one array of predictions
    for each light curve, and [fluxes] and [errs] held at least as many
    light curves as [times]: with fewer, indexing raises. *)
Theorem predict_one_array_each (cadences : Z)
    (times fluxes errs : list (list Q)) (k : nat) (ps : list (list Q)) :
  predict nanstd draws model_predict cadences times fluxes errs k = Ok ps ->
  length ps = length times
  /\ (length times <= length fluxes)%nat
  /\ (length times <= length errs)%nat.
Proof.
  unfold predict. intros H. apply predict_from_Ok in H.
  rewrite length_seq in H. destruct H as [Hlen Hb].
  split; [exact Hlen |].
  destruct times as [| t0 times]; [simpl; lia |].
  destruct Hb as [H1 H2]; [easy |]. simpl in *. lia.
Qed.

(** X9.  On a gap-free light curve that is at least [cadences] long, with
    [cadences] even and a median flux that is not zero, the body of the
    loop of [predict] hands the classifier one window of width
    [cadences] per sample, cut from the flux divided by its median; the
    errors play no part and no random number is drawn.  (A zero median
    is left out: numpy divides by it without raising, and the quotients
    are no rationals.) *)
Theorem predict_one_gap_free (cadences : Z) (t f e : list Q) (k : nat) :
  t <> [] ->
  length t = length f ->
  Sorted Qlt t ->
  Forall (fun d => d < Np.nanmedian (Np.diff t) + sigma * nanstd (Np.diff t))
         (Np.diff t) ->
  ~ Np.nanmedian f == 0 ->
  Z.even cadences = true ->
  (0 <= cadences <= Z.of_nat (length f))%Z ->
  exists rows,
    Windows.reshaped_data cadences (normalize f) = Ok rows
    /\ length rows = length f
    /\ Forall (fun row => Z.of_nat (length row) = cadences) rows
    /\ predict_one nanstd draws model_predict cadences t f e k
       = (preds ← model_predict rows; Ok (preds, k)).
Proof.
  intros Hne Hlen Hsorted Hsmall _ Hev Hc.
  assert (Hn : length (normalize f) = length f)
    by (unfold normalize; now rewrite length_map).
  destruct (reshaped_data_rows cadences (normalize f) ltac:(lia))
    as (rows & Hrows & Hl & Hnth).
  { intros i Hi. apply window_length_even; [exact Hev | lia | lia]. }
  exists rows. split; [exact Hrows |]. split; [lia |].
  split.
  - apply Forall_lookup. intros i row Hrow.
    pose proof (lookup_lt_Some _ _ _ Hrow) as Hi. rewrite Hl in Hi.
    destruct (Hnth i Hi) as (w & Hw & Hrow'). rewrite Hrow in Hrow'.
    injection Hrow' as ->.
    destruct (window_length_even cadences (normalize f) (Z.of_nat i) Hev
                ltac:(lia) ltac:(lia)) as (w' & Hw' & Hlw).
    congruence.
  - unfold predict_one, fill_in_sample, inserted, diff_ind.
    rewrite (where_ge_nil _ _ Hsmall). simpl.
    rewrite (unzip_sorted_increasing t f Hne Hlen Hsorted). simpl.
    rewrite Hrows. reflexivity.
Qed.

End PredictExtras.

Section PredictExtraWitnesses.
Local Open Scope Q_scope.

Lemma predict_one_array_each_witness :
  predict (fun _ => 1) (fun _ => 0) example_model 4
    two_times two_fluxes two_errs 0 = Ok predicted
  /\ length predicted = length two_times
  /\ (length two_times <= length two_fluxes)%nat
  /\ (length two_times <= length two_errs)%nat.
Proof.
  assert (H : predict (fun _ => 1) (fun _ => 0) example_model 4
                two_times two_fluxes two_errs 0 = Ok predicted)
    by (vm_compute; reflexivity).
  split; [exact H |].
  exact (predict_one_array_each (fun _ => 1) (fun _ => 0) example_model 4
           two_times two_fluxes two_errs 0 predicted H).
Defined.

Lemma predict_one_gap_free_witness :
  [0; 1; 2; 3] <> []
  /\ Sorted Qlt [0; 1; 2; 3]
  /\ Forall (fun d => d < Np.nanmedian (Np.diff [0; 1; 2; 3])
                          + sigma * (fun _ => 1) (Np.diff [0; 1; 2; 3]))
            (Np.diff [0; 1; 2; 3])
  /\ ~ Np.nanmedian [5; 6; 5; 6] == 0
  /\ exists rows,
       Windows.reshaped_data 4 (normalize [5; 6; 5; 6]) = Ok rows
       /\ length rows = length [5; 6; 5; 6]
       /\ Forall (fun row => Z.of_nat (length row) = 4%Z) rows
       /\ predict_one (fun _ => 1) (fun _ => 0) example_model 4
            [0; 1; 2; 3] [5; 6; 5; 6] [1; 1; 1; 1] 0
          = (preds ← example_model rows; Ok (preds, 0%nat)).
Proof.
  assert (H1 : [0; 1; 2; 3] <> []) by discriminate.
  assert (H2 : Sorted Qlt [0; 1; 2; 3]) by (repeat constructor).
  assert (H3 : Forall (fun d => d < Np.nanmedian (Np.diff [0; 1; 2; 3])
                          + sigma * (fun _ => 1) (Np.diff [0; 1; 2; 3]))
            (Np.diff [0; 1; 2; 3])) by (repeat constructor).
  assert (H4 : ~ Np.nanmedian [5; 6; 5; 6] == 0) by discriminate.
  split; [exact H1 |]. split; [exact H2 |]. split; [exact H3 |].
  split; [exact H4 |].
  exact (predict_one_gap_free (fun _ => 1) (fun _ => 0) example_model 4
           [0; 1; 2; 3] [5; 6; 5; 6] [1; 1; 1; 1] 0
           H1 eq_refl H2 H3 H4 eq_refl ltac:(simpl; lia)).
Defined.

End PredictExtraWitnesses.
(** * Further properties of the file names *)

Section DigitFacts.

Lemma pretty_N_char_digit (x : N) :
  digit_char (pretty_N_char x) = true.
Proof. unfold pretty_N_char. repeat case_match; reflexivity. Qed.

Lemma pretty_N_char_value (x : N) :
  (x < 10)%N -> digit_value (pretty_N_char x) = x.
Proof.
  intros Hx.
  assert (x = 0 \/ x = 1 \/ x = 2 \/ x = 3 \/ x = 4 \/ x = 5 \/ x = 6
          \/ x = 7 \/ x = 8 \/ x = 9)%N as H by lia.
  repeat (destruct H as [-> | H]; [reflexivity |]). now subst.
Qed.

Lemma pretty_N_go_digits (x : N) (s : string) :
  forallb digit_char (Str.chars s) = true ->
  forallb digit_char (Str.chars (pretty_N_go x s)) = true.
Proof.
  revert s. induction (N.lt_wf_0 x) as [x _ IH]; intros s Hs.
  assert (x = 0 \/ 0 < x)%N as [-> | Hpos] by lia.
  - now rewrite pretty_N_go_0.
  - rewrite pretty_N_go_step by exact Hpos. apply IH.
    + now apply N.div_lt.
    + simpl. now rewrite pretty_N_char_digit, Hs.
Qed.

Lemma pretty_nat_digits (n : nat) :
  forallb digit_char (Str.chars (pretty n)) = true.
Proof.
  unfold pretty, pretty_nat, pretty, pretty_N.
  case_decide; [reflexivity |]. now apply pretty_N_go_digits.
Qed.

Lemma fmt_04d_digits (n : nat) :
  forallb digit_char (Str.chars (Str.fmt_04d n)) = true.
Proof.
  unfold Str.fmt_04d. rewrite chars_app, forallb_app, pretty_nat_digits,
    andb_true_r, chars_of_list.
  induction (4 - String.length (pretty n))%nat as [| k IH]; [reflexivity |].
  simpl. exact IH.
Qed.

Lemma pretty_N_go_value (x : N) (s : string) :
  fold_left (fun acc c => (10 * acc + digit_value c)%N)
            (Str.chars (pretty_N_go x s)) 0%N
  = fold_left (fun acc c => (10 * acc + digit_value c)%N) (Str.chars s) x.
Proof.
  revert s. induction (N.lt_wf_0 x) as [x _ IH]; intros s.
  assert (x = 0 \/ 0 < x)%N as [-> | Hpos] by lia.
  - now rewrite pretty_N_go_0.
  - rewrite pretty_N_go_step by exact Hpos.
    rewrite IH by now apply N.div_lt.
    cbn [Str.chars String.list_ascii_of_string fold_left].
    rewrite pretty_N_char_value by now apply N.mod_lt.
    f_equal. rewrite (N.div_mod x 10) at 3 by easy. lia.
Qed.

Lemma pretty_nat_value (n : nat) :
  decimal_value (Str.chars (pretty n)) = N.of_nat n.
Proof.
  unfold decimal_value, pretty, pretty_nat, pretty, pretty_N.
  case_decide as H; [now rewrite H |]. apply pretty_N_go_value.
Qed.

(** Reading a formatted number back gives the number. *)
Lemma fmt_04d_value (n : nat) :
  decimal_value (Str.chars (Str.fmt_04d n)) = N.of_nat n.
Proof.
  unfold Str.fmt_04d. rewrite chars_app, chars_of_list.
  rewrite <- (pretty_nat_value n). unfold decimal_value.
  rewrite fold_left_app.
  induction (4 - String.length (pretty n))%nat as [| k IH]; [reflexivity |].
  simpl. exact IH.
Qed.

Lemma fmt_04d_inj (n m : nat) : Str.fmt_04d n = Str.fmt_04d m -> n = m.
Proof.
  intros H. apply Nat2N.inj. rewrite <- !fmt_04d_value. now rewrite H.
Qed.

Lemma digit_not_underscore (l : list ascii) :
  forallb digit_char l = true -> Forall (fun c => c <> "_"%char) l.
Proof.
  intros H. apply Forall_forall. intros c Hc ->.
  rewrite forallb_forall in H. apply list_elem_of_In in Hc.
  apply H in Hc. discriminate.
Qed.

End DigitFacts.

Section SplitFacts.

Lemma before_first_underscore_app (d r : list ascii) :
  Forall (fun c => c <> "_"%char) d ->
  Str.before_first_underscore (d ++ "_"%char :: r) = d.
Proof.
  induction 1 as [| c d Hc _ IH]; [reflexivity |].
  simpl. destruct (Ascii.eqb_spec c "_"); [contradiction |]. now rewrite IH.
Qed.

Lemma after_last_s_skip (c : ascii) (l : list ascii) :
  c <> "_"%char -> Str.after_last_s (c :: l) = Str.after_last_s l.
Proof.
  intros Hc. simpl. destruct (Str.after_last_s l); [reflexivity |].
  destruct c as [[] [] [] [] [] [] [] []]; try reflexivity. contradiction.
Qed.

Lemma after_last_s_skips (d l : list ascii) :
  Forall (fun c => c <> "_"%char) d ->
  Str.after_last_s (d ++ l) = Str.after_last_s l.
Proof.
  induction 1 as [| c d Hc _ IH]; [reflexivity |].
  simpl app. now rewrite after_last_s_skip.
Qed.

Lemma after_last_s_found (p rest : list ascii) :
  Str.after_last_s rest = None ->
  Str.after_last_s (p ++ "_"%char :: "s"%char :: rest) = Some rest.
Proof.
  intros Hrest. induction p as [| c p IH].
  - simpl. rewrite Hrest. reflexivity.
  - simpl app. cbn [Str.after_last_s]. now rewrite IH.
Qed.

End SplitFacts.

Section NameExtras.

Lemma chars_path_join (dir name : string) :
  exists p, Str.chars (Str.path_join dir name) = p ++ Str.chars name.
Proof.
  unfold Str.path_join. destruct (last (Str.chars dir)) as [c |].
  - destruct (Ascii.eqb c "/").
    + exists (Str.chars dir). apply chars_app.
    + exists (Str.chars dir ++ Str.chars "/"). now rewrite !chars_app, app_assoc.
  - now exists [].
Qed.

(** What follows the seed in a per-seed file name holds no ["_s"]. *)
Lemma after_last_s_tail (n_epochs : nat) (balance : string) :
  Forall (fun c => c <> "_"%char) (Str.chars balance) ->
  Str.after_last_s
    (Str.chars ("_i" +:+ Str.fmt_04d n_epochs +:+ "_b" +:+ balance +:+ ".txt"))
  = None.
Proof.
  intros Hb. rewrite !chars_app.
  change (Str.chars "_i") with ["_"%char; "i"%char].
  change (Str.chars "_b") with ["_"%char; "b"%char].
  cbn [app]. cbn [Str.after_last_s].
  rewrite (after_last_s_skips (Str.chars (Str.fmt_04d n_epochs)))
    by (apply digit_not_underscore, fmt_04d_digits).
  cbn [Str.after_last_s].
  rewrite (after_last_s_skips (Str.chars balance)) by exact Hb.
  reflexivity.
Qed.

Lemma seed_text_per_seed (out kind : string) (seed n_epochs : nat)
    (balance : string) :
  Forall (fun c => c <> "_"%char) (Str.chars balance) ->
  Str.seed_text
    (Str.path_join out
       (kind +:+ "_s" +:+ Str.fmt_04d seed +:+ "_i" +:+ Str.fmt_04d n_epochs
        +:+ "_b" +:+ balance +:+ ".txt"))
  = Str.fmt_04d seed.
Proof.
  intros Hb. unfold Str.seed_text.
  destruct (chars_path_join out
              (kind +:+ "_s" +:+ Str.fmt_04d seed +:+ "_i"
               +:+ Str.fmt_04d n_epochs +:+ "_b" +:+ balance +:+ ".txt"))
    as [p ->].
  rewrite (chars_app kind), (chars_app "_s"), (chars_app (Str.fmt_04d seed)).
  change (Str.chars "_s") with ["_"%char; "s"%char].
  rewrite app_assoc. cbn [app].
  rewrite after_last_s_found.
  - cbn [default from_option id].
    rewrite (chars_app "_i").
    change (Str.chars "_i") with ["_"%char; "i"%char]. cbn [app].
    rewrite before_first_underscore_app
      by (apply digit_not_underscore, fmt_04d_digits).
    apply String.string_of_list_ascii_of_string.
  - rewrite after_last_s_skips
      by (apply digit_not_underscore, fmt_04d_digits).
    now apply after_last_s_tail.
Qed.

(** X10.  Reading the seed back from a per-seed file name.  For a file
    named by the template [predval_fmt] or [predtest_fmt], in whatever
    directory, the text that [create_df] cuts out of the path for the
    column name is the four-digit seed, provided the text of
    [frac_balance] holds no underscore. *)
Theorem seed_text_round_trip (out : string) (seed n_epochs : nat)
    (balance : string) :
  Forall (fun c => c <> "_"%char) (Str.chars balance) ->
  Str.seed_text (Str.path_join out (predval_fmt seed n_epochs balance))
  = Str.fmt_04d seed
  /\ Str.seed_text (Str.path_join out (predtest_fmt seed n_epochs balance))
     = Str.fmt_04d seed.
Proof.
  intros Hb. split.
  - exact (seed_text_per_seed out "predval" seed n_epochs balance Hb).
  - exact (seed_text_per_seed out "predtest" seed n_epochs balance Hb).
Qed.

Lemma per_seed_matches (kind : string) (seed n_epochs : nat)
    (balance : string) :
  Str.plain kind = true -> Str.plain balance = true ->
  Str.fnmatch (Str.chars (pred_pattern kind n_epochs balance))
              (Str.chars (kind +:+ "_s" +:+ Str.fmt_04d seed +:+ "_i"
                          +:+ Str.fmt_04d n_epochs +:+ "_b" +:+ balance
                          +:+ ".txt"))
  = true.
Proof.
  intros Hk Hb. unfold pred_pattern. rewrite !chars_app.
  pose proof (fmt_04d_plain n_epochs) as He. unfold Str.plain in He, Hb, Hk.
  rewrite (fnmatch_plain_prefix (Str.chars kind)) by exact Hk.
  change (Str.chars "*i") with ("*"%char :: Str.chars "i").
  change (Str.chars "_s") with ["_"%char; "s"%char].
  change (Str.chars "_i") with ("_"%char :: Str.chars "i").
  cbn [app]. do 2 apply fnmatch_star_skip.
  induction (Str.chars (Str.fmt_04d seed)) as [| c l IH].
  - cbn [app]. apply fnmatch_star_skip, fnmatch_star_empty.
    rewrite (fnmatch_plain_prefix (Str.chars "i")) by reflexivity.
    rewrite (fnmatch_plain_prefix (Str.chars (Str.fmt_04d n_epochs)))
      by exact He.
    change (Str.chars "*_b") with ("*"%char :: Str.chars "_b").
    rewrite <- !app_comm_cons. apply fnmatch_star_empty.
    rewrite (fnmatch_plain_prefix (Str.chars "_b")) by reflexivity.
    rewrite <- (app_nil_r (Str.chars ".txt")).
    rewrite (fnmatch_plain_prefix (Str.chars balance)) by exact Hb.
    rewrite (fnmatch_plain_prefix (Str.chars ".txt")) by reflexivity.
    reflexivity.
  - cbn [app]. now apply fnmatch_star_skip.
Qed.

(** X11.  [create_df] finds the per-seed files.  With [output_dir] and
    [epochs] set and no glob character in the name of the output
    directory or in the balance text, every file of the directory that
    is named by [predval_fmt] for the object's epochs and balance is
    among the files that [create_df] reads for the validation set, and
    likewise [predtest_fmt] for the test set. *)
Theorem find_files_per_seed (self : ConvNN) (dir : directory) (out : string)
    (n_epochs seed : nat) :
  output_dir self = Some out ->
  Str.plain out = true ->
  epochs self = Some n_epochs ->
  Str.plain (frac_balance self) = true ->
  (is_Some (dir !! predval_fmt seed n_epochs (frac_balance self)) ->
   exists files,
     find_files self dir "validation" = Ok (files, out)
     /\ predval_fmt seed n_epochs (frac_balance self) ∈ files)
  /\ (is_Some (dir !! predtest_fmt seed n_epochs (frac_balance self)) ->
      exists files,
        find_files self dir "test" = Ok (files, out)
        /\ predtest_fmt seed n_epochs (frac_balance self) ∈ files).
Proof.
  intros Hout _ He Hb. unfold find_files. rewrite Hout, He. simpl.
  split; intros Hin; eexists; (split; [reflexivity |]);
    (apply glob_sorted_elem; [exact Hin |]).
  - exact (per_seed_matches "predval" seed n_epochs _ eq_refl Hb).
  - exact (per_seed_matches "predtest" seed n_epochs _ eq_refl Hb).
Qed.

End NameExtras.

Section NameExtraWitnesses.

Lemma seed_text_round_trip_witness :
  Forall (fun c => c <> "_"%char) (Str.chars "0.73")
  /\ Str.seed_text (Str.path_join "/home/my_stella" (predval_fmt 12 350 "0.73"))
     = Str.fmt_04d 12.
Proof.
  assert (H : Forall (fun c => c <> "_"%char) (Str.chars "0.73"))
    by (repeat constructor; discriminate).
  split; [exact H |].
  exact (proj1 (seed_text_round_trip "/home/my_stella" 12 350 "0.73" H)).
Defined.

Lemma find_files_per_seed_witness :
  output_dir trained = Some "/home/user/.stella"
  /\ Str.plain "/home/user/.stella" = true
  /\ epochs trained = Some 5%nat
  /\ Str.plain (frac_balance trained) = true
  /\ is_Some (three_seeds !! predval_fmt 2 5 (frac_balance trained))
  /\ exists files,
       find_files trained three_seeds "validation"
       = Ok (files, "/home/user/.stella")
       /\ predval_fmt 2 5 (frac_balance trained) ∈ files.
Proof.
  assert (H : is_Some (three_seeds !! predval_fmt 2 5 (frac_balance trained)))
    by (vm_compute; eauto).
  split; [reflexivity |]. split; [reflexivity |]. split; [reflexivity |].
  split; [reflexivity |]. split; [exact H |].
  exact (proj1 (find_files_per_seed trained three_seeds "/home/user/.stella"
                  5 2 eq_refl eq_refl eq_refl eq_refl) H).
Defined.

End NameExtraWitnesses.
(** * Further properties of [train_models] *)

Section KeepsFacts.
Context {S : Type}.
Implicit Types P : S -> Prop.

Lemma keeps_lift {A : Type} P (r : result A) : keeps P (lift r).
Proof. intros s r' s' [= _ <-]. auto. Qed.

Lemma keeps_get P : keeps P get.
Proof. intros s r' s' [= _ <-]. auto. Qed.

Lemma keeps_ret {A : Type} P (a : A) : keeps P (mret a).
Proof. intros s r' s' [= _ <-]. auto. Qed.

Lemma keeps_modify P (f : S -> S) :
  (forall s, P s -> P (f s)) -> keeps P (modify f).
Proof. intros Hf s r' s' [= _ <-]. auto. Qed.

Lemma keeps_bind {A B : Type} P (m : M S A) (k : A -> M S B) :
  keeps P m -> (forall a, keeps P (k a)) -> keeps P (m ≫= k).
Proof.
  intros Hm Hk s r s'. unfold mbind, M_bind.
  destruct (m s) as [[a | e] s1] eqn:E.
  - intros H Hs. eapply Hk; [exact H |]. eapply Hm; [exact E | exact Hs].
  - intros [= <- <-] Hs. eapply Hm; [exact E | exact Hs].
Qed.

Lemma keeps_for_each {A B : Type} P (body : A -> B -> M S B) (xs : list A)
    (acc : B) :
  (forall x b, keeps P (body x b)) -> keeps P (for_each body xs acc).
Proof.
  intros Hbody. revert acc. induction xs as [| x xs IH]; intros acc; simpl.
  - apply keeps_ret.
  - apply keeps_bind; [apply Hbody | intros b; apply IH].
Qed.

End KeepsFacts.

Section SavedModelFacts.

Lemma chars_inj (a b : string) : Str.chars a = Str.chars b -> a = b.
Proof.
  intros H. rewrite <- (String.string_of_list_ascii_of_string a),
    <- (String.string_of_list_ascii_of_string b).
  unfold Str.chars in H. now rewrite H.
Qed.

Lemma saved_model_inj (s s' n_epochs : nat) (balance : string) :
  saved_model s n_epochs balance = saved_model s' n_epochs balance -> s = s'.
Proof.
  intros H. apply fmt_04d_inj, chars_inj.
  apply (f_equal Str.chars) in H. unfold saved_model in H.
  rewrite !chars_app, <- !app_assoc in H.
  apply app_inv_head in H. apply app_inv_head in H.
  change (Str.chars "_i") with ["_"%char; "i"%char] in H. cbn [app] in H.
  apply (f_equal Str.before_first_underscore) in H.
  now rewrite !before_first_underscore_app in H
    by (apply digit_not_underscore, fmt_04d_digits).
Qed.

Lemma with_models_keeps (n_epochs : nat) (balance : string)
    (seeds : list nat) (dir : directory) (seed : nat) :
  dir !! saved_model seed n_epochs balance = Some (ModelFile seed) ->
  with_models n_epochs balance seeds dir !! saved_model seed n_epochs balance
  = Some (ModelFile seed).
Proof.
  unfold with_models. revert dir.
  induction seeds as [| s seeds IH]; intros dir H; simpl; [exact H |].
  apply IH.
  destruct (decide (saved_model s n_epochs balance
                    = saved_model seed n_epochs balance)) as [E | E].
  - rewrite E. apply saved_model_inj in E. subst s. apply lookup_insert_eq.
  - now rewrite lookup_insert_ne.
Qed.

Lemma with_models_lookup (n_epochs : nat) (balance : string)
    (seeds : list nat) (dir : directory) (seed : nat) :
  seed ∈ seeds ->
  with_models n_epochs balance seeds dir !! saved_model seed n_epochs balance
  = Some (ModelFile seed).
Proof.
  revert dir. induction seeds as [| s seeds IH]; intros dir Hin.
  - now apply elem_of_nil in Hin.
  - apply elem_of_cons in Hin. destruct Hin as [-> | Hin].
    + apply (with_models_keeps n_epochs balance seeds). apply lookup_insert_eq.
    + apply (IH _ Hin).
Qed.

Lemma with_models_other (n_epochs : nat) (balance : string)
    (seeds : list nat) (dir : directory) (name : string) :
  (forall seed, seed ∈ seeds -> name <> saved_model seed n_epochs balance) ->
  with_models n_epochs balance seeds dir !! name = dir !! name.
Proof.
  unfold with_models. revert dir.
  induction seeds as [| s seeds IH]; intros dir H; simpl; [reflexivity |].
  rewrite IH by (intros seed Hs; apply H; now apply list_elem_of_further).
  apply lookup_insert_ne. intros E. symmetry in E. revert E.
  apply H, list_elem_of_here.
Qed.

End SavedModelFacts.

Section TrainModelsExtras.

Variable fit : nat -> nat -> result (list (string * list cell)).
Variable predict_val : nat -> result (list cell).
Variable predict_test : nat -> result (list cell).

Lemma train_seed_inv (n_epochs : nat) (pred_test : bool) (seed : nat)
    (tb vt tt tb' vt' tt' : table) (st st' : disk_state) :
  train_seed fit predict_val predict_test n_epochs pred_test seed
    (tb, vt, tt) st = (Ok (tb', vt', tt'), st') ->
  st' = (st.1, <[saved_model seed n_epochs (frac_balance st.1)
                 := ModelFile seed]> st.2)
  /\ Table.colnames vt' = Table.colnames vt ++ [pred_column seed]
  /\ (pred_column seed ∉ Table.colnames vt)
  /\ Table.colnames tt'
     = Table.colnames tt ++ (if pred_test then [test_column seed] else []).
Proof.
  unfold train_seed. intros H.
  apply bind_M_Ok_inv in H. destruct H as (st0 & s1 & Hget & H).
  injection Hget as <- <-.
  apply bind_M_Ok_inv in H. destruct H as (history & s2 & Hl & H).
  apply lift_Ok_inv in Hl. destruct Hl as [_ ->].
  apply bind_M_Ok_inv in H. destruct H as (tb1 & s3 & Hl & H).
  apply lift_Ok_inv in Hl. destruct Hl as [_ ->].
  apply bind_M_Ok_inv in H. destruct H as (out & s4 & Hl & H).
  apply lift_Ok_inv in Hl. destruct Hl as [_ ->].
  apply bind_M_Ok_inv in H. destruct H as ([] & s5 & Hw & H).
  injection Hw as <-.
  apply bind_M_Ok_inv in H. destruct H as (val_preds & s6 & Hl & H).
  apply lift_Ok_inv in Hl. destruct Hl as [_ ->].
  apply bind_M_Ok_inv in H. destruct H as (vt1 & s7 & Hl & H).
  apply lift_Ok_inv in Hl. destruct Hl as [Hvt ->].
  apply add_column_Ok in Hvt. destruct Hvt as (-> & Hfresh & _).
  apply bind_M_Ok_inv in H. destruct H as (tt1 & s8 & Htest & H).
  injection H as <- <- <- <-.
  assert (Hs8 : s8 = (st.1, <[saved_model seed n_epochs (frac_balance st.1)
                               := ModelFile seed]> st.2)
                /\ Table.colnames tt1
                   = Table.colnames tt
                     ++ (if pred_test then [test_column seed] else [])).
  { destruct pred_test.
    - apply bind_M_Ok_inv in Htest. destruct Htest as (tp & s9 & Hl & Htest).
      apply lift_Ok_inv in Hl. destruct Hl as [_ ->].
      apply lift_Ok_inv in Htest. destruct Htest as [Htt ->].
      apply add_column_Ok in Htt. destruct Htt as (-> & _ & _).
      split; [reflexivity |]. unfold Table.colnames. now rewrite map_app.
    - injection Htest as <- <-. split; [reflexivity | now rewrite app_nil_r]. }
  destruct Hs8 as [-> Htt]. split; [reflexivity |].
  split; [unfold Table.colnames; now rewrite map_app |].
  split; [exact Hfresh | exact Htt].
Qed.

Lemma train_seeds_inv (n_epochs : nat) (pred_test : bool) (seeds : list nat)
    (tb vt tt tb' vt' tt' : table) (st st' : disk_state) :
  for_each (train_seed fit predict_val predict_test n_epochs pred_test) seeds
    (tb, vt, tt) st = (Ok (tb', vt', tt'), st') ->
  st' = (st.1, with_models n_epochs (frac_balance st.1) seeds st.2)
  /\ Table.colnames vt' = Table.colnames vt ++ map pred_column seeds
  /\ Forall (fun seed => pred_column seed ∉ Table.colnames vt) seeds
  /\ NoDup (map pred_column seeds)
  /\ Table.colnames tt'
     = Table.colnames tt ++ (if pred_test then map test_column seeds else []).
Proof.
  revert tb vt tt st. induction seeds as [| seed seeds IH]; intros tb vt tt st.
  - simpl. intros [= <- <- <- <-]. rewrite !app_nil_r.
    split; [now destruct st |]. split; [reflexivity |].
    split; [constructor |]. split; [constructor |].
    now destruct pred_test; rewrite ?app_nil_r.
  - cbn [for_each]. intros H.
    apply bind_M_Ok_inv in H. destruct H as ([[tb1 vt1] tt1] & s1 & Hseed & H).
    apply train_seed_inv in Hseed.
    destruct Hseed as (-> & Hcols & Hfresh & Htt).
    apply IH in H. destruct H as (-> & Hcols' & Hall & Hnd & Htt').
    cbn [fst snd] in *.
    rewrite Hcols in Hcols', Hall. rewrite Htt in Htt'.
    split; [reflexivity |].
    split; [now rewrite Hcols', <- app_assoc |].
    split.
    { constructor; [exact Hfresh |].
      eapply Forall_impl; [exact Hall |]. intros s Hs Hin. apply Hs.
      apply elem_of_app. now left. }
    split.
    { simpl. constructor; [| exact Hnd].
      intros Hin. apply (list_elem_of_fmap pred_column) in Hin.
      destruct Hin as (s & Heq & Hs).
      rewrite Forall_forall in Hall. apply (Hall s Hs).
      apply elem_of_app. right. rewrite Heq. apply list_elem_of_here. }
    rewrite Htt'. destruct pred_test; now rewrite <- app_assoc.
Qed.

(** What a run of [train_models] that returns has done. *)
Lemma train_models_Ok_inv (seeds : list nat) (n_epochs : nat)
    (pred_test save : bool) (st st' : disk_state) :
  train_models fit predict_val predict_test seeds n_epochs pred_test save st
  = (Ok tt, st') ->
  exists tb vt tt0,
    Table.colnames vt = ["tic"; "gt"; "tpeak"] ++ map pred_column seeds
    /\ Table.colnames tt0
       = ["tic"; "gt"; "tpeak"]
         ++ (if pred_test then map test_column seeds else [])
    /\ NoDup (map pred_column seeds)
    /\ st'.1 = set_tables tb vt tt0 (set_epochs n_epochs st.1)
    /\ st'.2
       = let d := with_models n_epochs (frac_balance st.1) seeds st.2 in
         let fmt_table := "_i" +:+ Str.fmt_04d n_epochs +:+ "_b"
                          +:+ frac_balance st.1 +:+ ".txt" in
         if save then
           let d := <["predval" +:+ fmt_table := TableFile vt]>
                      (<["histories" +:+ fmt_table := TableFile tb]> d) in
           if (3 <? length (Table.colnames tt0))%nat
           then <["predtest" +:+ fmt_table := TableFile tt0]> d
           else d
         else d.
Proof.
  unfold train_models. intros H.
  apply bind_M_Ok_inv in H. destruct H as ([] & s1 & Hm & H).
  injection Hm as <-.
  apply bind_M_Ok_inv in H. destruct H as (st0 & s2 & Hget & H).
  injection Hget as <- <-.
  apply bind_M_Ok_inv in H. destruct H as (vt & s3 & Hl & H).
  apply lift_Ok_inv in Hl. destruct Hl as [Hvt ->].
  apply bind_M_Ok_inv in H. destruct H as (tt0 & s4 & Hl & H).
  apply lift_Ok_inv in Hl. destruct Hl as [Htt ->].
  apply bind_M_Ok_inv in H. destruct H as ([[tb1 vt1] tt1] & s5 & Hloop & H).
  apply train_seeds_inv in Hloop.
  destruct Hloop as (-> & Hcols & _ & Hnd & Hcolt).
  apply create_Ok_colnames in Hvt. rewrite Hvt in Hcols.
  apply create_Ok_colnames in Htt. rewrite Htt in Hcolt.
  simpl colname in Hcols, Hcolt.
  apply bind_M_Ok_inv in H. destruct H as ([] & s6 & Hm & H).
  injection Hm as <-.
  cbn [fst snd] in H.
  exists tb1, vt1, tt1.
  split; [exact Hcols |]. split; [exact Hcolt |]. split; [exact Hnd |].
  destruct save.
  - apply bind_M_Ok_inv in H. destruct H as (out & s7 & Hl & H).
    apply lift_Ok_inv in Hl. destruct Hl as [Hout ->].
    apply bind_M_Ok_inv in H. destruct H as ([] & s8 & Hw & H).
    injection Hw as <-.
    apply bind_M_Ok_inv in H. destruct H as ([] & s9 & Hw & H).
    injection Hw as <-.
    cbn [fst snd] in *. cbv zeta.
    destruct (3 <? length (Table.colnames tt1))%nat;
      injection H as <-; split; reflexivity.
  - injection H as <-. split; reflexivity.
Qed.

(** X13.  A seed that occurs twice stops [train_models]: the second
    column for it has a name that the validation table already holds, so
    for such a list of seeds the call raises, whatever keras does. *)
Theorem train_models_repeated_seed (seeds : list nat) (n_epochs : nat)
    (pred_test save : bool) (st : disk_state) :
  ~ NoDup seeds ->
  exists e st',
    train_models fit predict_val predict_test seeds n_epochs pred_test save st
    = (Raise e, st').
Proof.
  intros Hdup.
  destruct (train_models fit predict_val predict_test seeds n_epochs
              pred_test save st) as [[[] | e] st'] eqn:E; [| eauto].
  exfalso. apply Hdup.
  apply train_models_Ok_inv in E.
  destruct E as (tb & vt & tt0 & _ & _ & Hnd & _).
  now apply NoDup_fmap_1 in Hnd.
Qed.

(** X14.  [train_models] sets [self.epochs] first and nothing resets it:
    after the call, whether it returned or raised, [self.epochs] holds
    the number of epochs that was asked for. *)
Theorem train_models_sets_epochs (seeds : list nat) (n_epochs : nat)
    (pred_test save : bool) (st st' : disk_state) (r : result unit) :
  train_models fit predict_val predict_test seeds n_epochs pred_test save st
  = (r, st') ->
  epochs st'.1 = Some n_epochs.
Proof.
  unfold train_models. unfold mbind at 1. unfold M_bind, modify.
  set (P := fun s : disk_state => epochs s.1 = Some n_epochs).
  intros H. revert H.
  match goal with
  | |- ?m ?s = _ -> _ => assert (Hk : keeps P m)
  end.
  { apply keeps_bind; [apply keeps_get |]. intros st0.
    apply keeps_bind; [apply keeps_lift |]. intros vt.
    apply keeps_bind; [apply keeps_lift |]. intros tt0.
    apply keeps_bind.
    { apply keeps_for_each. intros seed [[tb v] t]. unfold train_seed.
      apply keeps_bind; [apply keeps_get |]. intros s0.
      apply keeps_bind; [apply keeps_lift |]. intros h.
      apply keeps_bind; [apply keeps_lift |]. intros tb1.
      apply keeps_bind; [apply keeps_lift |]. intros o.
      apply keeps_bind; [apply keeps_modify; auto |]. intros [].
      apply keeps_bind; [apply keeps_lift |]. intros vp.
      apply keeps_bind; [apply keeps_lift |]. intros v1.
      apply keeps_bind; [| intros t1; apply keeps_ret].
      destruct pred_test; [| apply keeps_ret].
      apply keeps_bind; [apply keeps_lift |]. intros tp. apply keeps_lift. }
    intros [[tb v] t].
    apply keeps_bind; [apply keeps_modify; auto |]. intros [].
    destruct save; [| apply keeps_ret].
    apply keeps_bind; [apply keeps_lift |]. intros o.
    apply keeps_bind; [apply keeps_modify; auto |]. intros [].
    apply keeps_bind; [apply keeps_modify; auto |]. intros [].
    destruct (3 <? _)%nat; [apply keeps_modify; auto | apply keeps_ret]. }
  intros H. exact (Hk _ _ _ H eq_refl).
Qed.

(** X15.  When [train_models] returns, [val_pred_table] holds the
    columns tic, gt, tpeak and then one column [pred_sNNNN] per seed, in
    the order of the seeds; [test_pred_table] holds tic, gt, tpeak and,
    only with [pred_test], one column [test_sNNNN] per seed. *)
Theorem train_models_tables (seeds : list nat) (n_epochs : nat)
    (pred_test save : bool) (st st' : disk_state) :
  train_models fit predict_val predict_test seeds n_epochs pred_test save st
  = (Ok tt, st') ->
  exists h v t,
    history_table st'.1 = Some h
    /\ val_pred_table st'.1 = Some v
    /\ test_pred_table st'.1 = Some t
    /\ Table.colnames v = ["tic"; "gt"; "tpeak"] ++ map pred_column seeds
    /\ Table.colnames t
       = ["tic"; "gt"; "tpeak"]
         ++ (if pred_test then map test_column seeds else []).
Proof.
  intros H. apply train_models_Ok_inv in H.
  destruct H as (tb & vt & tt0 & Hv & Ht & _ & Hself & _).
  exists tb, vt, tt0. rewrite Hself. repeat split; assumption.
Qed.

(** X16.  The models are saved whatever [save] says.  When
    [train_models] returns, the output directory holds the model file of
    every seed; with [save=False] no other entry of the directory has
    changed; and without [pred_test] no table of test predictions is
    written. *)
Theorem train_models_files (seeds : list nat) (n_epochs : nat)
    (pred_test save : bool) (st st' : disk_state) :
  train_models fit predict_val predict_test seeds n_epochs pred_test save st
  = (Ok tt, st') ->
  (forall seed, seed ∈ seeds ->
     st'.2 !! saved_model seed n_epochs (frac_balance st.1)
     = Some (ModelFile seed))
  /\ (save = false ->
      forall name,
        (forall seed, seed ∈ seeds ->
           name <> saved_model seed n_epochs (frac_balance st.1)) ->
        st'.2 !! name = st.2 !! name)
  /\ (pred_test = false ->
      st'.2 !! ("predtest" +:+ "_i" +:+ Str.fmt_04d n_epochs +:+ "_b"
                +:+ frac_balance st.1 +:+ ".txt")
      = st.2 !! ("predtest" +:+ "_i" +:+ Str.fmt_04d n_epochs +:+ "_b"
                 +:+ frac_balance st.1 +:+ ".txt")).
Proof.
  intros H. apply train_models_Ok_inv in H.
  destruct H as (tb & vt & tt0 & _ & Ht & _ & _ & Hdir).
  cbv zeta in Hdir. rewrite Hdir. split; [| split].
  - intros seed Hin.
    pose proof (with_models_lookup n_epochs (frac_balance st.1) seeds st.2
                  seed Hin) as Hm.
    destruct save; [| exact Hm].
    destruct (3 <? _)%nat;
      rewrite ?lookup_insert_ne by (unfold saved_model; discriminate);
      exact Hm.
  - intros -> name Hname. now apply with_models_other.
  - intros ->. rewrite app_nil_r in Ht. rewrite Ht. cbn [length Nat.ltb Nat.leb].
    assert (Hm : with_models n_epochs (frac_balance st.1) seeds st.2
                 !! ("predtest" +:+ "_i" +:+ Str.fmt_04d n_epochs +:+ "_b"
                     +:+ frac_balance st.1 +:+ ".txt")
                 = st.2 !! ("predtest" +:+ "_i" +:+ Str.fmt_04d n_epochs
                            +:+ "_b" +:+ frac_balance st.1 +:+ ".txt")).
    { apply with_models_other. intros seed _. unfold saved_model.
      discriminate. }
    destruct save; [| exact Hm].
    rewrite !lookup_insert_ne by discriminate. exact Hm.
Qed.

End TrainModelsExtras.

Section TrainModelsExtraWitnesses.

Lemma train_models_repeated_seed_witness :
  ~ NoDup [2%nat; 2%nat]
  /\ exists e st',
       train_models example_fit example_predict example_predict
         [2%nat; 2%nat] 5 false false (trained, ∅)
       = (Raise e, st').
Proof.
  assert (H : ~ NoDup [2%nat; 2%nat]).
  { intros Hnd. apply NoDup_cons in Hnd. destruct Hnd as [Hnd _].
    apply Hnd. apply list_elem_of_here. }
  split; [exact H |].
  exact (train_models_repeated_seed example_fit example_predict
           example_predict [2%nat; 2%nat] 5 false false (trained, ∅) H).
Defined.

Lemma train_models_sets_epochs_witness :
  train_models example_fit example_predict example_predict
    [1%nat; 2%nat] 5 false true (trained, ∅)
  = (Ok tt, after_training)
  /\ epochs after_training.1 = Some 5%nat.
Proof.
  assert (H : train_models example_fit example_predict example_predict
                [1%nat; 2%nat] 5 false true (trained, ∅)
              = (Ok tt, after_training)) by (vm_compute; reflexivity).
  split; [exact H |].
  exact (train_models_sets_epochs example_fit example_predict example_predict
           [1%nat; 2%nat] 5 false true (trained, ∅) after_training (Ok tt) H).
Defined.

Lemma train_models_tables_witness :
  train_models example_fit example_predict example_predict
    [1%nat; 2%nat] 5 false true (trained, ∅)
  = (Ok tt, after_training)
  /\ exists h v t,
       history_table after_training.1 = Some h
       /\ val_pred_table after_training.1 = Some v
       /\ test_pred_table after_training.1 = Some t
       /\ Table.colnames v
          = ["tic"; "gt"; "tpeak"] ++ map pred_column [1%nat; 2%nat]
       /\ Table.colnames t = ["tic"; "gt"; "tpeak"] ++ [].
Proof.
  assert (H : train_models example_fit example_predict example_predict
                [1%nat; 2%nat] 5 false true (trained, ∅)
              = (Ok tt, after_training)) by (vm_compute; reflexivity).
  split; [exact H |].
  exact (train_models_tables example_fit example_predict example_predict
           [1%nat; 2%nat] 5 false true (trained, ∅) after_training H).
Defined.

Lemma train_models_files_witness :
  train_models example_fit example_predict example_predict
    [1%nat; 2%nat] 5 false true (trained, ∅)
  = (Ok tt, after_training)
  /\ forall seed, seed ∈ [1%nat; 2%nat] ->
       after_training.2 !! saved_model seed 5 (frac_balance trained)
       = Some (ModelFile seed).
Proof.
  assert (H : train_models example_fit example_predict example_predict
                [1%nat; 2%nat] 5 false true (trained, ∅)
              = (Ok tt, after_training)) by (vm_compute; reflexivity).
  split; [exact H |].
  exact (proj1 (train_models_files example_fit example_predict example_predict
                  [1%nat; 2%nat] 5 false true (trained, ∅) after_training H)).
Defined.

End TrainModelsExtraWitnesses.
(** * Further properties of [fetch_dir] *)

Section FetchDirExtras.

Lemma stella_dir_not_cwd (h : string) : Str.path_join h ".stella" <> ".".
Proof.
  intros H. apply (f_equal Str.chars) in H.
  destruct (chars_path_join h ".stella") as [p Hp]. rewrite Hp in H.
  apply (f_equal length) in H. rewrite length_app in H. simpl in H. lia.
Qed.

Lemma set_output_dir_twice (d : string) (self : ConvNN) :
  set_output_dir d (set_output_dir d self) = set_output_dir d self.
Proof. reflexivity. Qed.

(** The three ways through [fetch_dir]. *)
Lemma fetch_dir_cases (self : ConvNN) (os : os_state) :
  let d := Str.path_join (home os) ".stella" in
  (exists os',
     fetch_dir (self, os) = (Ok tt, (set_output_dir d self, os'))
     /\ d ∈ dirs os' /\ dirs os ⊆ dirs os' /\ home os' = home os)
  \/ (fetch_dir (self, os) = (Raise (NameError "warnings"), (self, os))
      /\ d ∉ dirs os).
Proof.
  intros d.
  destruct (decide (d ∈ dirs os)) as [Hin | Hnotin].
  - left. exists os. split; [| split; [exact Hin | split; [reflexivity |]]].
    + unfold fetch_dir. rewrite bind_get.
      unfold isdir, mbind, M_bind, get, mret, M_ret, modify. cbn [fst snd].
      fold d. now rewrite (bool_decide_eq_true_2 _ Hin).
    + reflexivity.
  - destruct (mkdir_allowed os d) eqn:Hallowed.
    + left.
      exists {| home := home os; dirs := {[d]} ∪ dirs os;
                mkdir_allowed := mkdir_allowed os |}.
      split; [| split; [| split; [| reflexivity]]].
      * unfold fetch_dir. rewrite bind_get.
        unfold isdir, mbind, M_bind, get, mret, M_ret, modify,
          try_except_OSError, mkdir.
        cbn [fst snd]. fold d. rewrite !(bool_decide_eq_false_2 _ Hnotin).
        cbn [fst snd]. rewrite Hallowed. reflexivity.
      * cbn [dirs]. apply elem_of_union_l, elem_of_singleton. reflexivity.
      * cbn [dirs]. apply union_subseteq_r.
    + right. split; [| exact Hnotin].
      unfold fetch_dir. rewrite bind_get.
      unfold isdir, mbind, M_bind, get, mret, M_ret, modify,
        try_except_OSError, mkdir.
      cbn [fst snd]. fold d. rewrite !(bool_decide_eq_false_2 _ Hnotin).
      cbn [fst snd]. rewrite Hallowed. reflexivity.
Qed.

(** X18.  What [fetch_dir] can do.  Either it returns, and then
    [output_dir] is [~/.stella], which is a directory afterwards, every
    earlier directory still exists and nothing else of the object has
    changed; or it raises [NameError] for [warnings] and leaves the
    object and the file system as they were.  In no case does it set
    [output_dir] to the working directory ["."]. *)
Theorem fetch_dir_outcomes (self : ConvNN) (os : os_state) :
  let d := Str.path_join (home os) ".stella" in
  d <> "."
  /\ ((exists os',
         fetch_dir (self, os) = (Ok tt, (set_output_dir d self, os'))
         /\ d ∈ dirs os' /\ dirs os ⊆ dirs os' /\ home os' = home os)
      \/ (fetch_dir (self, os) = (Raise (NameError "warnings"), (self, os))
          /\ d ∉ dirs os)).
Proof.
  intros d. split; [apply stella_dir_not_cwd | apply fetch_dir_cases].
Qed.

(** X19.  [fetch_dir] is idempotent: once it has returned, calling it
    again returns and changes neither the object nor the file system. *)
Theorem fetch_dir_idempotent (st st' : fetch_state) :
  fetch_dir st = (Ok tt, st') -> fetch_dir st' = (Ok tt, st').
Proof.
  destruct st as [self os]. intros H.
  destruct (fetch_dir_cases self os) as [Hok | [Hraise _]].
  - destruct Hok as (os' & Hrun & Hin & _ & Hhome).
    rewrite Hrun in H. injection H as <-.
    rewrite <- Hhome in Hin.
    rewrite (fetch_dir_existing _ os' Hin), Hhome.
    now rewrite set_output_dir_twice.
  - rewrite Hraise in H. discriminate.
Qed.

End FetchDirExtras.

Section FetchDirExtraWitnesses.

Lemma fetch_dir_idempotent_witness :
  fetch_dir (no_attributes,
             {| home := "/home/user"; dirs := {["/home/user"]};
                mkdir_allowed := fun _ => true |})
  = (Ok tt, (set_output_dir "/home/user/.stella" no_attributes,
             {| home := "/home/user";
                dirs := {["/home/user/.stella"]} ∪ {["/home/user"]};
                mkdir_allowed := fun _ => true |}))
  /\ fetch_dir (set_output_dir "/home/user/.stella" no_attributes,
                {| home := "/home/user";
                   dirs := {["/home/user/.stella"]} ∪ {["/home/user"]};
                   mkdir_allowed := fun _ => true |})
     = (Ok tt, (set_output_dir "/home/user/.stella" no_attributes,
                {| home := "/home/user";
                   dirs := {["/home/user/.stella"]} ∪ {["/home/user"]};
                   mkdir_allowed := fun _ => true |})).
Proof.
  assert (H : fetch_dir (no_attributes,
                         {| home := "/home/user"; dirs := {["/home/user"]};
                            mkdir_allowed := fun _ => true |})
              = (Ok tt, (set_output_dir "/home/user/.stella" no_attributes,
                         {| home := "/home/user";
                            dirs := {["/home/user/.stella"]} ∪ {["/home/user"]};
                            mkdir_allowed := fun _ => true |}))).
  { unfold fetch_dir. rewrite bind_get.
    unfold isdir, mbind, M_bind, get, mret, M_ret, modify,
      try_except_OSError, mkdir.
    cbn [fst snd home dirs mkdir_allowed].
    assert (Hn : Str.path_join "/home/user" ".stella"
                 ∉ ({["/home/user"]} : gset string)).
    { apply not_elem_of_singleton. intros E. vm_compute in E. discriminate. }
    rewrite !(bool_decide_eq_false_2 _ Hn). reflexivity. }
  split; [exact H |].
  exact (fetch_dir_idempotent _ _ H).
Defined.

End FetchDirExtraWitnesses.
(** * [cross_validation] *)

Section CrossValidationExtras.

Variable kfold_indices : nat -> Z -> nat -> list nat * list nat.
Variable create_model : Z -> M cv_object unit.
Variable rest_of_fold : nat -> table -> M cv_object table.

(** The first turn of the loop raises, at the latest where it calls
    [create_model] without a seed. *)
Lemma cv_fold_raises (y : list cell) (fold : list nat * list nat)
    (acc : nat * table) (self : cv_object) :
  exists e self',
    cv_fold create_model rest_of_fold y fold acc self = (Raise e, self')
    /\ cv_kfolds_table self' = cv_kfolds_table self
    /\ (e = TypeError \/ e = IndexError).
Proof.
  destruct fold as [ti vi], acc as [i tab]. unfold cv_fold.
  rewrite bind_lift.
  assert (Hidx : forall idx, (exists vs, fancy_index y idx = Ok vs)
                             \/ fancy_index y idx = Raise IndexError).
  { induction idx as [| j idx IH]; simpl; [left; eauto |].
    unfold Py.index. destruct (y !! j); simpl; [| now right].
    destruct IH as [[vs ->] | ->]; simpl; [left; eauto | now right]. }
  destruct (Hidx ti) as [[tl ->] | ->]; [| eauto 6].
  rewrite bind_modify, bind_lift.
  destruct (Hidx vi) as [[vl ->] | ->]; [| eauto 6].
  rewrite bind_modify. eexists _, _. split; [reflexivity |]. auto.
Qed.

(** X20.  [cross_validation] never returns.  For every object and all
    integer arguments it raises: [ValueError] from [KFold] or its
    [split], [AttributeError] for [self.seed], which no method assigns,
    or, with a seed set from outside and enough samples, in the first
    fold, [IndexError] or the [TypeError] of calling [create_model]
    without its seed.  [kfolds_table] is never set.  On an object whose
    [seed] has not been set, and with at least two splits, the exception
    is the [AttributeError] and the object is unchanged. *)
Theorem cross_validation_never_returns (n_epochs n_splits : Z)
    (self : cv_object) :
  (exists e self',
     cross_validation kfold_indices create_model rest_of_fold
       n_epochs n_splits self = (Raise e, self')
     /\ cv_kfolds_table self' = cv_kfolds_table self
     /\ ((exists msg, e = ValueError msg) \/ e = AttributeError "seed"
         \/ e = TypeError \/ e = IndexError))
  /\ (cv_seed self = None -> 2 <= n_splits ->
      cross_validation kfold_indices create_model rest_of_fold
        n_epochs n_splits self = (Raise (AttributeError "seed"), self)).
Proof.
  unfold cross_validation. rewrite bind_get, bind_lift. unfold KFold.
  destruct (n_splits <=? 1) eqn:Ek.
  - split; [eauto 10 | intros _ Hn; lia].
  - apply Z.leb_gt in Ek. rewrite bind_lift.
    destruct (cv_seed self) as [seed |]; simpl getattr.
    + split; [| discriminate].
      rewrite bind_lift. unfold kf_split.
      destruct (Z.of_nat _ <? n_splits); [eauto 10 |].
      destruct (Z.to_nat n_splits) as [| k] eqn:En; [lia |].
      cbn [seq map for_each].
      set (y := Py.slice _ _ _).
      destruct (cv_fold_raises y (kfold_indices (length y) n_splits 0%nat)
                  (0%nat, []) self) as (e & self' & Hrun & Htab & He).
      eexists e, self'. split.
      { apply bind_raise. now apply bind_raise. }
      split; [exact Htab |]. destruct He as [-> | ->]; auto.
    + split; [eauto 10 | reflexivity].
Qed.

End CrossValidationExtras.
